(** * Echo-System: telemetry windowing pipeline and risk-fusion scorer

    A shallow embedding of the numeric core of the repository:

    - [fusion/fusion.py]                  (module [Fusion])
    - [api/app/services/predict.py]       (module [Predict])
    - [api/app/routes.py]                 (module [Routes])
    - [test_fusion_demo.py]               (modules [Demo], [DemoAggregates])
    - [api/preprocessing/preprocess.py]   (modules [Preprocess], [Resample])
    - [training/train_rf.py]              (module [TrainRf])

    Python floats are modelled as exact rationals ([Q]); a missing cell
    (NaN) of a data frame is [None].  Python exceptions are values of
    [Py.exn] carried by [Py.result]; code that reads or writes the
    module-level model handles runs in the state-and-exception monad
    [Py.M].  Dictionaries are [gmap string _]. *)

From Stdlib Require Import QArith Qround Qminmax ZArith List Lia Lqa Sorted.
From stdpp Require Import gmap strings list.

Set Default Proof Using "Type".

(* ================================================================== *)
(** * Python: exceptions, results, the state-and-exception monad       *)
(* ================================================================== *)

Module Py.

(** The exception classes the modelled code can meet.  Every one of
    them is a subclass of [Exception], which is what the handlers of
    the source catch. *)
Inductive exn :=
| ValueError
| AttributeError
| IndexError
| RuntimeError
| ExternalError (msg : string).

(** [str(e)].  For the exceptions that numpy and sklearn raise the
    wording depends on the library and its version; the text given for
    [ValueError] stands for it, and no statement depends on it. *)
Definition str (e : exn) : string :=
  match e with
  | ValueError => "ValueError"
  | AttributeError => "'NoneType' object has no attribute 'predict'"
  | IndexError => "single positional indexer is out-of-bounds"
  | RuntimeError => "No data loaded for scaler fitting"
  | ExternalError msg => msg
  end.

Inductive result (A : Type) :=
| Ok (a : A)
| Raise (e : exn).
Arguments Ok {A} a.
Arguments Raise {A} e.

Definition rbind {A B} (r : result A) (k : A -> result B) : result B :=
  match r with
  | Ok a => k a
  | Raise e => Raise e
  end.

(** A computation over a store [S] that may raise.  The store as it
    was when the exception left is kept: assignments to globals made
    before a [raise] persist. *)
Definition M (S A : Type) : Type := S -> S * result A.

Definition ret {S A} (a : A) : M S A := fun s => (s, Ok a).
Definition raise {S A} (e : exn) : M S A := fun s => (s, Raise e).
Definition lift {S A} (r : result A) : M S A := fun s => (s, r).
Definition get {S} : M S S := fun s => (s, Ok s).
Definition put {S} (s' : S) : M S unit := fun _ => (s', Ok tt).

Definition bind {S A B} (m : M S A) (k : A -> M S B) : M S B :=
  fun s =>
    match m s with
    | (s', Ok a) => k a s'
    | (s', Raise e) => (s', Raise e)
    end.

(** [try: body / except Exception as e: handler e] *)
Definition try_except {S A} (body : M S A) (handler : exn -> M S A) : M S A :=
  fun s =>
    match body s with
    | (s', Ok a) => (s', Ok a)
    | (s', Raise e) => handler e s'
    end.

End Py.

Import Py.

Declare Scope py_scope.
Delimit Scope py_scope with py.
Notation "x <- m ;; k" := (Py.bind m (fun x => k))
  (at level 100, m at next level, right associativity) : py_scope.
Notation "m ;; k" := (Py.bind m (fun _ => k))
  (at level 100, right associativity) : py_scope.

(* ================================================================== *)
(** * numpy: the arrays the service wrapper builds                     *)
(* ================================================================== *)

Module Np.

(** An array of dimension one or two.  [Arr2 c rows] has shape
    [(length rows, c)]; every row has [c] entries. *)
Inductive ndarray :=
| Arr1 (xs : list Q)
| Arr2 (ncols : nat) (rows : list (list Q)).

Definition shape (a : ndarray) : list nat :=
  match a with
  | Arr1 xs => [length xs]
  | Arr2 c rows => [length rows; c]
  end.

(** [len(a)]: the extent of the first axis. *)
Definition len (a : ndarray) : nat :=
  match a with
  | Arr1 xs => length xs
  | Arr2 _ rows => length rows
  end.

(** [np.array(data, dtype=np.float32)] on a list of lists of numbers:
    the empty list has shape [(0,)], rows of one common length [c]
    give shape [(n, c)], rows of different lengths are refused. *)
Definition array (data : list (list Q)) : result ndarray :=
  match data with
  | [] => Ok (Arr1 [])
  | r :: rs =>
      if forallb (fun r' => length r' =? length r)%nat rs
      then Ok (Arr2 (length r) data)
      else Raise ValueError
  end.

(** [np.zeros((n, c))] *)
Definition zeros (n c : nat) : ndarray := Arr2 c (repeat (repeat 0%Q c) n).

(** [np.atleast_2d]: a one-dimensional array becomes a single row. *)
Definition atleast_2d (a : ndarray) : nat * list (list Q) :=
  match a with
  | Arr1 xs => (length xs, [xs])
  | Arr2 c rows => (c, rows)
  end.

(** [np.vstack([a, b])]: the rows of [a] then the rows of [b]; the
    column counts must agree. *)
Definition vstack (a b : ndarray) : result ndarray :=
  let '(ca, ra) := atleast_2d a in
  let '(cb, rb) := atleast_2d b in
  if (ca =? cb)%nat then Ok (Arr2 ca (ra ++ rb)) else Raise ValueError.

(** [a[-k:]]: the last [k] entries along the first axis (all of them
    when there are fewer). *)
Definition last_rows (k : nat) (a : ndarray) : ndarray :=
  match a with
  | Arr1 xs => Arr1 (skipn (length xs - k) xs)
  | Arr2 c rows => Arr2 c (skipn (length rows - k) rows)
  end.

Definition Qsum (xs : list Q) : Q := fold_right Qplus 0%Q xs.

(** [np.mean] of a non-empty list.  (numpy answers nan for an empty
    one, which the rationals do not have: the value is 0 there, and
    what is proved of a mean is meant for at least one value.) *)
Definition mean (xs : list Q) : Q := (Qsum xs / inject_Z (Z.of_nat (length xs)))%Q.

(** [np.mean((w - recon)**2, axis=(1,2))[0]] for a window [w] and its
    reconstruction of identical shape. *)
Definition mse (w recon : ndarray) : result Q :=
  match w, recon with
  | Arr2 c rows, Arr2 c' rows' =>
      if ((c =? c') && (length rows =? length rows'))%nat
      then Ok (mean (map (fun '(x, y) => ((x - y) * (x - y))%Q)
                         (combine (concat rows) (concat rows'))))
      else Raise ValueError
  | _, _ => Raise ValueError
  end.

(** Ascending sort of the values, as the order statistics need it. *)
Fixpoint insert_sorted (x : Q) (l : list Q) : list Q :=
  match l with
  | [] => [x]
  | y :: l' => if Qle_bool x y then x :: l else y :: insert_sorted x l'
  end.

Definition sort (l : list Q) : list Q := fold_right insert_sorted [] l.

(** [np.median] of a non-empty list: the middle value, or the mean of
    the two middle values. *)
Definition median (xs : list Q) : Q :=
  let s := sort xs in
  let n := length s in
  if Nat.even n
  then ((nth (n / 2 - 1) s 0 + nth (n / 2) s 0) / 2)%Q
  else nth (n / 2) s 0%Q.

(** [np.percentile(xs, 100 * q)] with the default linear interpolation
    between the two nearest order statistics. *)
Definition percentile (q : Q) (xs : list Q) : Q :=
  let s := sort xs in
  let h := (inject_Z (Z.of_nat (length s - 1)) * q)%Q in
  let lo := Z.to_nat (Qfloor h) in
  let hi := Nat.min (lo + 1) (length s - 1) in
  (nth lo s 0 + (h - inject_Z (Qfloor h)) * (nth hi s 0 - nth lo s 0))%Q.

End Np.

(* ================================================================== *)
(** * sklearn: the fitted imputer and scaler                           *)
(* ================================================================== *)

Module Sklearn.

(** [SimpleImputer(strategy="median")] after [fit]: one statistic per
    feature seen at fit time, [None] (nan) for a feature that had no
    observed value. *)
Record SimpleImputer := { statistics_ : list (option Q) }.

(** [RobustScaler()] after [fit]. *)
Record RobustScaler := { center_ : list Q; scale_ : list Q }.

Import Np.

(** A two-dimensional input as its list of rows. *)
Definition n_features {A} (X : list (list A)) : nat :=
  match X with
  | [] => 0
  | r :: _ => length r
  end.

(** Input validation: at least one sample and at least one feature
    are required ("Found array with 0 sample(s)", "... 0 feature(s)"). *)
Definition check_array {A} (X : list (list A)) : result unit :=
  match X with
  | [] => Raise ValueError
  | [] :: _ => Raise ValueError
  | _ => Ok tt
  end.

Definition column_at {A} (j : nat) (X : list (list A)) (d : A) : list A :=
  map (fun r => nth j r d) X.

Definition observed (w : list (option Q)) : list Q := omap id w.

(** [SimpleImputer(strategy="median").fit(X)]: the median of the
    observed values of each column. *)
Definition imputer_fit (X : list (list (option Q))) : result SimpleImputer :=
  rbind (check_array X) (fun _ =>
    Ok {| statistics_ :=
            map (fun j =>
                   match observed (column_at j X None) with
                   | [] => None
                   | obs => Some (median obs)
                   end)
                (seq 0 (n_features X)) |}).

(** One row through the imputer: a missing cell takes the statistic of
    its column; a column whose statistic is nan is dropped. *)
Fixpoint impute_row (stats : list (option Q)) (r : list (option Q)) : list Q :=
  match stats, r with
  | Some s :: stats', x :: r' => default s x :: impute_row stats' r'
  | None :: stats', _ :: r' => impute_row stats' r'
  | _, _ => []
  end.

(** [imputer.transform(X)]: refused unless [X] has as many features as
    the data the imputer was fit on. *)
Definition imputer_transform (imp : SimpleImputer) (X : list (list (option Q)))
    : result (list (list Q)) :=
  rbind (check_array X) (fun _ =>
    if (n_features X =? length (statistics_ imp))%nat
    then Ok (map (impute_row (statistics_ imp)) X)
    else Raise ValueError).

(** A spread of zero is replaced by one. *)
Definition handle_zeros_in_scale (s : Q) : Q :=
  if Qeq_bool s 0 then 1%Q else s.

(** [RobustScaler().fit(X)]: center = median, scale = interquartile
    range, per column. *)
Definition scaler_fit (X : list (list Q)) : result RobustScaler :=
  rbind (check_array X) (fun _ =>
    let cols := map (fun j => column_at j X 0%Q) (seq 0 (n_features X)) in
    Ok {| center_ := map median cols;
          scale_ := map (fun col => handle_zeros_in_scale
                                      (percentile 0.75 col - percentile 0.25 col)%Q)
                        cols |}).

Fixpoint scale_row (center scale : list Q) (r : list Q) : list Q :=
  match center, scale, r with
  | c :: center', s :: scale', x :: r' =>
      ((x - c) / s)%Q :: scale_row center' scale' r'
  | _, _, _ => []
  end.

(** [scaler.transform(X)] *)
Definition scaler_transform (sc : RobustScaler) (X : list (list Q))
    : result (list (list Q)) :=
  rbind (check_array X) (fun _ =>
    if (n_features X =? length (center_ sc))%nat
    then Ok (map (scale_row (center_ sc) (scale_ sc)) X)
    else Raise ValueError).

End Sklearn.

(* ================================================================== *)
(** * fusion/fusion.py                                                 *)
(* ================================================================== *)

Module Fusion.
Import Np Sklearn.
Local Open Scope py_scope.

(** Responses are dictionaries from field names to floats or text. *)
Inductive value :=
| VFloat (q : Q)
| VStr (s : string).

Abbreviation Response := (gmap string value).
Abbreviation AggRow := (gmap string Q).

(** The three external predictors as the scorer uses them. *)
(** [float(np.squeeze(model.predict(w[None, ...], verbose=0)))] *)
Definition SeqModel := ndarray -> result Q.
(** [ae.predict(w[None, ...], verbose=0)[0]] *)
Definition AeModel := ndarray -> result ndarray.
(** [float(rf.predict_proba(X)[0, 1])] for [X = np.array([features])] *)
Definition RfModel := list Q -> result Q.

(** What lies outside the module: the five artifacts on disk (a load
    either yields the handle or raises) and [np.exp]. *)
Record Env := {
  LSTM_PATH : result SeqModel;
  AE_PATH : result AeModel;
  RF_PATH : result RfModel;
  IMPUTER_PATH : result SimpleImputer;
  SCALER_PATH : result RobustScaler;
  np_exp : Q -> Q
}.

(** weights used in paper *)
Definition W_LSTM : Q := 0.6.
Definition W_RF : Q := 0.3.
Definition W_AE : Q := 0.1.

(** The module-level handles, [None] until loaded. *)
Record Globals := {
  _lstm : option SeqModel;
  _ae : option AeModel;
  _rf : option RfModel;
  _imputer : option SimpleImputer;
  _scaler : option RobustScaler
}.

Definition initial : Globals :=
  {| _lstm := None; _ae := None; _rf := None; _imputer := None; _scaler := None |}.

Definition Handles : Type :=
  option SeqModel * option AeModel * option RfModel
  * option SimpleImputer * option RobustScaler.

(** [if slot is None: slot = load(path)] *)
Definition load_if_none {A} (slot : Globals -> option A) (file : result A)
    (store : option A -> Globals -> Globals) : M Globals unit :=
  g <- get ;;
  match slot g with
  | Some _ => ret tt
  | None => m <- lift file ;; put (store (Some m) g)
  end.

Definition set_lstm v g :=
  {| _lstm := v; _ae := _ae g; _rf := _rf g; _imputer := _imputer g; _scaler := _scaler g |}.
Definition set_ae v g :=
  {| _lstm := _lstm g; _ae := v; _rf := _rf g; _imputer := _imputer g; _scaler := _scaler g |}.
Definition set_rf v g :=
  {| _lstm := _lstm g; _ae := _ae g; _rf := v; _imputer := _imputer g; _scaler := _scaler g |}.
Definition set_imputer v g :=
  {| _lstm := _lstm g; _ae := _ae g; _rf := _rf g; _imputer := v; _scaler := _scaler g |}.
Definition set_scaler v g :=
  {| _lstm := _lstm g; _ae := _ae g; _rf := _rf g; _imputer := _imputer g; _scaler := v |}.

Definition load_all (env : Env) : M Globals Handles :=
  try_except
    (load_if_none _lstm (LSTM_PATH env) set_lstm ;;
     load_if_none _ae (AE_PATH env) set_ae ;;
     load_if_none _rf (RF_PATH env) set_rf ;;
     load_if_none _imputer (IMPUTER_PATH env) set_imputer ;;
     load_if_none _scaler (SCALER_PATH env) set_scaler ;;
     g <- get ;;
     ret (_lstm g, _ae g, _rf g, _imputer g, _scaler g))
    (fun _ =>
       g <- get ;;
       ret (None, None, _rf g, _imputer g, _scaler g)).

(** [model.predict] on [None] is an [AttributeError]. *)
Definition lstm_predict_prob (env : Env) (window : ndarray) : M Globals Q :=
  h <- load_all env ;;
  let '(model, _, _, _, _) := h in
  match model with
  | None => raise AttributeError
  | Some m => lift (m window)
  end.

Definition ae_anomaly_score (env : Env) (window : ndarray) : M Globals Q :=
  h <- load_all env ;;
  let '(_, ae, _, _, _) := h in
  match ae with
  | None => raise AttributeError
  | Some m => recon <- lift (m window) ;; lift (mse window recon)
  end.

Definition sensor_names : list string := ["temperature"; "vibration"; "rpm"; "humidity"].
Definition stat_names : list string := ["mean"; "std"; "min"; "max"; "median"].

(** The nested loops of [rf_prob_failure]: [f"{sensor}_{stat}"]. *)
Definition feature_names : list string :=
  flat_map (fun sensor => map (fun stat => sensor +:+ "_" +:+ stat) stat_names)
           sensor_names.

(** [[agg_row.get(feat_name, 0.0) for feat_name in feature_names]] *)
Definition feature_vector (agg_row : AggRow) : list Q :=
  map (fun feat_name => default 0%Q (agg_row !! feat_name)) feature_names.

Definition rf_prob_failure (env : Env) (agg_row : AggRow) : M Globals Q :=
  h <- load_all env ;;
  let '(_, _, rf, imputer, scaler) := h in
  match rf with
  | None => ret 0.5%Q
  | Some rf =>
      let features := feature_vector agg_row in
      try_except (lift (rf features)) (fun _ => ret 0.5%Q)
  end.

(** The arithmetic and the returned dictionary of [predict_fusion],
    over exact rationals.  (In binary64 every product and sum is
    rounded, and the logistic is exactly 1.0 for large scores.) *)
Definition fuse (sigmoid_exp : Q -> Q) (p_lstm p_rf ae_score : Q) : Response :=
  let ae_scaled := (1 / (1 + sigmoid_exp (- (ae_score - 0.01) * 100)))%Q in
  let health_score := (1.0 - p_rf)%Q in
  let fused := (W_LSTM * p_lstm + W_RF * (1 - health_score) + W_AE * ae_scaled)%Q in
  <["failure_prob_lstm" := VFloat p_lstm]>
  (<["prob_failure_rf" := VFloat p_rf]>
  (<["ae_score" := VFloat ae_score]>
  (<["ae_scaled" := VFloat ae_scaled]>
  (<["health_score" := VFloat health_score]>
  (<["fused_risk" := VFloat fused]> ∅))))).

Definition predict_fusion (env : Env) (window : ndarray) (agg_row : AggRow)
    : M Globals Response :=
  p_lstm <- lstm_predict_prob env window ;;
  p_rf <- rf_prob_failure env agg_row ;;
  ae_score <- ae_anomaly_score env window ;;
  ret (fuse (np_exp env) p_lstm p_rf ae_score).

End Fusion.


(* ================================================================== *)
(** * api/app/services/predict.py                                      *)
(* ================================================================== *)

Module Predict.
Import Np Fusion.
Local Open Scope py_scope.

(** What the module-level name [predict_fusion] is bound to after the
    guarded import: the function of [fusion/fusion.py], or [None] when
    the import failed. *)
Definition Binding : Type := option (ndarray -> AggRow -> M Globals Response).

Definition imported (env : Env) : Binding := Some (Fusion.predict_fusion env).
Definition import_failed : Binding := None.

(** The dictionary returned when [predict_fusion is None]. *)
Definition unavailable_response : Response :=
  <["error" := VStr "Fusion model not available"]>
  (<["failure_prob_lstm" := VFloat 0.5]>
  (<["prob_failure_rf" := VFloat 0.5]>
  (<["ae_score" := VFloat 0.5]>
  (<["ae_scaled" := VFloat 0.5]>
  (<["health_score" := VFloat 0.5]>
  (<["fused_risk" := VFloat 0.5]> ∅)))))).

(** The "safe defaults" of the [except] branch. *)
Definition error_response (e : exn) : Response :=
  <["error" := VStr (Py.str e)]>
  (<["failure_prob_lstm" := VFloat 0.5]>
  (<["prob_failure_rf" := VFloat 0.5]>
  (<["ae_score" := VFloat 1.0]>
  (<["ae_scaled" := VFloat 0.5]>
  (<["health_score" := VFloat 0.5]>
  (<["fused_risk" := VFloat 0.5]> ∅)))))).

(** Lines 45-56: conversion to an array, then "pad or truncate as
    needed". *)
Definition adapt_window (window_data : list (list Q)) : result ndarray :=
  rbind (Np.array window_data) (fun window_array =>
    if decide (shape window_array ≠ [60; 4]%nat) then
      if (len window_array <? 60)%nat then
        let padding := zeros (60 - len window_array) 4 in
        vstack padding window_array
      else if (60 <? len window_array)%nat then
        Ok (last_rows 60 window_array)
      else Ok window_array
    else Ok window_array).

Definition predict_from_window_and_agg (predict_fusion : Binding)
    (window_data : list (list Q)) (agg_data : AggRow) : M Globals Response :=
  match predict_fusion with
  | None => ret unavailable_response
  | Some predict_fusion =>
      try_except
        (window_array <- lift (adapt_window window_data) ;;
         result <- predict_fusion window_array agg_data ;;
         ret result)
        (fun e => ret (error_response e))
  end.

End Predict.

(* ================================================================== *)
(** * test_fusion_demo.py: the risk assessment of the demo             *)
(* ================================================================== *)

Module Demo.

Inductive Level := LOW | MEDIUM | HIGH.

(** The local function [risk_level] of [main]; the icon that comes
    with each level is left out. *)
Definition risk_level (risk_score : Q) : Level :=
  if Qlt_le_dec risk_score 0.3 then LOW
  else if Qlt_le_dec risk_score 0.6 then MEDIUM
  else HIGH.

End Demo.

(* ================================================================== *)
(** * api/preprocessing/config.py and preprocess.py                    *)
(* ================================================================== *)

Module Preprocess.
Import Np Sklearn.

(** ** config.py *)
Definition WINDOW_SIZE : nat := 60.
Definition MIN_VALID_RATIO : Q := 0.8.
Definition AGG_FEATURES : list string := ["temperature"; "vibration"; "rpm"; "humidity"].

(** ** Resampled frames *)

(** One bin of a resampled device frame: the four channel means
    ([None] where the bin is missing), the identity columns and the
    propagated label. *)
Record Bin := {
  temperature : option Q;
  vibration : option Q;
  rpm : option Q;
  humidity : option Q;
  device_id : string;
  device_type : string;
  label : Z
}.

(** A device frame; [label_column] tells whether ["label" in
    df_device.columns]. *)
Record DataFrame := {
  rows : list Bin;
  label_column : bool
}.

(** [df_device[c]] for a channel name [c]. *)
Definition cell (c : string) (b : Bin) : option Q :=
  if String.eqb c "temperature" then temperature b
  else if String.eqb c "vibration" then vibration b
  else if String.eqb c "rpm" then rpm b
  else if String.eqb c "humidity" then humidity b
  else None.

Definition column (df : DataFrame) (c : string) : list (option Q) :=
  map (cell c) (rows df).

(** [df_device[AGG_FEATURES].values]: an [n x 4] array. *)
Definition values (df : DataFrame) : list (list (option Q)) :=
  map (fun b => map (fun c => cell c b) AGG_FEATURES) (rows df).

(** [df_device["label"].values] or, without the column, zeros. *)
Definition labels_of (df : DataFrame) : list Z :=
  if label_column df then map label (rows df)
  else map (fun _ => 0%Z) (rows df).

(** [l[start:stop]] for [0 <= start]. *)
Definition slice {A} (start stop : nat) (l : list A) : list A :=
  firstn (stop - start) (skipn start l).

(** [range(0, stop)] *)
Definition range (stop : Z) : list nat := seq 0 (Z.to_nat stop).

(** [.max()] of an integer array; numpy refuses a zero-size array. *)
Definition np_max (xs : list Z) : result Z :=
  match xs with
  | [] => Raise ValueError
  | x :: xs' => Ok (fold_left Z.max xs' x)
  end.

Definition isnan (x : option Q) : bool :=
  match x with None => true | Some _ => false end.

(** [np.count_nonzero(~np.isnan(window))] *)
Definition count_valid (window : list (list (option Q))) : nat :=
  length (filter (fun x => negb (isnan x)) (concat window)).

Abbreviation Window := (list (list (option Q))).

(** ** extract_windows *)

(** The body of the [for start in range(...)] loop, threading the two
    accumulators.  The division is never by zero: with [window_size = 0]
    the [.max()] of the empty label slice has already raised. *)
Fixpoint extract_loop (arr : list (list (option Q))) (labels : list Z)
    (window_size : nat) (min_valid_ratio : Q) (starts : list nat)
    (windows : list Window) (win_labels : list Z)
    : result (list Window * list Z) :=
  match starts with
  | [] => Ok (windows, win_labels)
  | start :: starts' =>
      let window := slice start (start + window_size) arr in
      rbind (np_max (slice start (start + window_size) labels)) (fun lab =>
        let valid_ratio :=
          (inject_Z (Z.of_nat (count_valid window))
           / inject_Z (Z.of_nat (window_size * length AGG_FEATURES)))%Q in
        if Qle_bool min_valid_ratio valid_ratio
        then extract_loop arr labels window_size min_valid_ratio starts'
               (windows ++ [window]) (win_labels ++ [lab])
        else extract_loop arr labels window_size min_valid_ratio starts'
               windows win_labels)
  end.

(** Returns the kept windows and, in parallel, their labels (both
    empty when nothing is kept). *)
Definition extract_windows (df_device : DataFrame) (window_size : nat)
    (min_valid_ratio : Q) : result (list Window * list Z) :=
  let arr := values df_device in
  let labels := labels_of df_device in
  let n := length arr in
  extract_loop arr labels window_size min_valid_ratio
    (range (Z.of_nat n - Z.of_nat window_size + 1)) [] [].

(** ** aggregate_features *)

(** [int(x)] for a float: truncation toward zero. *)
Definition py_int (x : Q) : Z := Z.quot (Qnum x) (Zpos (Qden x)).

(** [df.rolling(window, min_periods)] followed by a reducer, on one
    column: at position [i] the reducer sees the observed (non-nan)
    values among the last [window] positions up to [i], and the result
    is nan when fewer than [min_periods] of them are observed. *)
Definition rolling (window min_periods : nat) (stat : list Q -> option Q)
    (col : list (option Q)) : list (option Q) :=
  map (fun i =>
         let obs := observed (slice (i + 1 - window) (i + 1) col) in
         if (length obs <? min_periods)%nat then None else stat obs)
      (seq 0 (length col)).

Definition stat_mean (obs : list Q) : option Q := Some (mean obs).

(** The sample standard deviation (one delta degree of freedom); the
    square root is numpy's. *)
Definition stat_std (sqrt : Q -> Q) (obs : list Q) : option Q :=
  if (length obs <=? 1)%nat then None
  else
    let m := mean obs in
    Some (sqrt (Qsum (map (fun x => (x - m) * (x - m)) obs)
                / inject_Z (Z.of_nat (length obs - 1)))%Q).

Definition stat_min (obs : list Q) : option Q :=
  match obs with
  | [] => None
  | x :: xs => Some (fold_left Qmin xs x)
  end.

Definition stat_max (obs : list Q) : option Q :=
  match obs with
  | [] => None
  | x :: xs => Some (fold_left Qmax xs x)
  end.

Definition stat_median (obs : list Q) : option Q :=
  match obs with
  | [] => None
  | _ => Some (median obs)
  end.

(** The five pieces of the [pd.concat], each with its [add_suffix]. *)
Definition reducers (sqrt : Q -> Q) : list (string * (list Q -> option Q)) :=
  [("_mean", stat_mean); ("_std", stat_std sqrt); ("_min", stat_min);
   ("_max", stat_max); ("_median", stat_median)].

Definition min_periods : nat :=
  Z.to_nat (py_int (inject_Z (Z.of_nat WINDOW_SIZE) * 0.5)).

(** The statistic columns of [agg], in the order of the [pd.concat]. *)
Definition agg_columns (sqrt : Q -> Q) (df_device : DataFrame)
    : list (string * list (option Q)) :=
  flat_map (fun '(suffix, stat) =>
              map (fun c => (c +:+ suffix,
                             rolling WINDOW_SIZE min_periods stat (column df_device c)))
                  AGG_FEATURES)
           (reducers sqrt).

(** One row of the aggregate table. *)
Record AggRecord := {
  index : nat;
  stats : list (string * option Q);
  agg_device_id : string;
  agg_device_type : string;
  agg_label : Z
}.

(** [.iloc[0]] of the identity columns fails on an empty frame. *)
Definition aggregate_features (sqrt : Q -> Q) (df_device : DataFrame)
    : result (list AggRecord) :=
  let cols := agg_columns sqrt df_device in
  match rows df_device with
  | [] => Raise IndexError
  | b0 :: _ =>
      Ok (map (fun i =>
                 {| index := i;
                    stats := map (fun '(name, col) => (name, nth i col None)) cols;
                    agg_device_id := device_id b0;
                    agg_device_type := device_type b0;
                    agg_label := nth i (labels_of df_device) 0%Z |})
              (seq 0 (length (rows df_device))))
  end.

(** ** main, from the resampled device frames on *)

(** The artifacts directory: what [main] has written so far. *)
Record OutDir := {
  imputer_joblib : option SimpleImputer;
  scaler_joblib : option RobustScaler;
  windows_npy : option (list (list (list Q)));
  labels_npy : option (list Z);
  aggregates_csv : option (list AggRecord)
}.

Definition empty_dir : OutDir :=
  {| imputer_joblib := None; scaler_joblib := None; windows_npy := None;
     labels_npy := None; aggregates_csv := None |}.

(** The accumulators of the device loop. *)
Record Acc := {
  concat_for_scaler : list (list (list (option Q)));
  all_windows : list (list Window);
  all_labels : list (list Z);
  agg_rows : list (list AggRecord)
}.

Fixpoint device_loop (sqrt : Q -> Q) (frames : list DataFrame) (acc : Acc) : result Acc :=
  match frames with
  | [] => Ok acc
  | df_res :: frames' =>
      rbind (extract_windows df_res WINDOW_SIZE MIN_VALID_RATIO) (fun '(windows, win_labels) =>
      rbind (aggregate_features sqrt df_res) (fun agg =>
        device_loop sqrt frames'
          {| concat_for_scaler := concat_for_scaler acc ++ [values df_res];
             all_windows := match windows with
                            | [] => all_windows acc
                            | _ => all_windows acc ++ [windows]
                            end;
             all_labels := match windows with
                           | [] => all_labels acc
                           | _ => all_labels acc ++ [win_labels]
                           end;
             agg_rows := agg_rows acc ++ [agg] |}))
  end.

(** [n] consecutive pieces of [k] entries each. *)
Fixpoint chunks {A} (k n : nat) (l : list A) : list (list A) :=
  match n with
  | O => []
  | S n' => firstn k l :: chunks k n' (skipn k l)
  end.

(** [X.reshape(nsamples, wlen, nfeat)] of a two-dimensional [X]: the
    number of entries must be preserved. *)
Definition reshape3 (nsamples wlen nfeat : nat) (X : list (list Q))
    : result (list (list (list Q))) :=
  if (forallb (fun r => length r =? nfeat) X && (length X =? nsamples * wlen))%nat
  then Ok (chunks wlen nsamples X)
  else Raise ValueError.

(** "apply imputation + scaling per timestep feature-wise" *)
Definition transform_windows (imputer : SimpleImputer) (scaler : RobustScaler)
    (windows_arr : list Window) : result (list (list (list Q))) :=
  let nsamples := length windows_arr in
  let wlen := WINDOW_SIZE in
  let nfeat := length AGG_FEATURES in
  let windows_reshaped := concat windows_arr in
  rbind (imputer_transform imputer windows_reshaped) (fun windows_imp =>
  rbind (scaler_transform scaler windows_imp) (fun windows_scaled =>
    reshape3 nsamples wlen nfeat windows_scaled)).

(** [s in c] for strings. *)
Definition contains (c s : string) : bool :=
  match String.index 0 s c with
  | Some _ => true
  | None => false
  end.

Definition agg_df_columns (sqrt : Q -> Q) : list string :=
  "index" :: map fst (agg_columns sqrt {| rows := []; label_column := true |})
  ++ ["device_id"; "device_type"; "label"].

(** [[c for c in agg_df.columns if any(s in c for s in AGG_FEATURES)]] *)
Definition numcols (sqrt : Q -> Q) : list string :=
  filter (fun c => existsb (contains c) AGG_FEATURES) (agg_df_columns sqrt).

Definition assoc {A} (k : string) (l : list (string * A)) : option A :=
  match find (fun kv => String.eqb (fst kv) k) l with
  | Some kv => Some (snd kv)
  | None => None
  end.

(** [agg_df[numcols]] as rows; the selected names are all statistic
    columns. *)
Definition select (names : list string) (r : AggRecord) : list (option Q) :=
  map (fun c => default None (assoc c (stats r))) names.

(** [agg_df[numcols] = X]: the selected columns take the columns of [X]. *)
Definition assign (names : list string) (r : AggRecord) (x : list Q) : AggRecord :=
  {| index := index r;
     stats := map (fun '(name, v) =>
                     match assoc name (combine names x) with
                     | Some v' => (name, Some v')
                     | None => (name, v)
                     end) (stats r);
     agg_device_id := agg_device_id r;
     agg_device_type := agg_device_type r;
     agg_label := agg_label r |}.

(** "impute + scale numeric cols in agg_df" *)
Definition transform_aggregates (sqrt : Q -> Q) (imputer : SimpleImputer)
    (scaler : RobustScaler) (agg_df : list AggRecord) : result (list AggRecord) :=
  let cols := numcols sqrt in
  rbind (imputer_transform imputer (map (select cols) agg_df)) (fun imp =>
  let agg_df1 := map (fun '(r, x) => assign cols r x) (combine agg_df imp) in
  rbind (scaler_transform scaler (map (fun r => map (default 0%Q) (select cols r)) agg_df1))
    (fun scaled =>
  Ok (map (fun '(r, x) => assign cols r x) (combine agg_df1 scaled)))).

Local Open Scope py_scope.

Definition save_fit (imputer : SimpleImputer) (scaler : RobustScaler) : M OutDir unit :=
  fun d => ({| imputer_joblib := Some imputer; scaler_joblib := Some scaler;
               windows_npy := windows_npy d; labels_npy := labels_npy d;
               aggregates_csv := aggregates_csv d |}, Ok tt).

Definition save_windows (w : list (list (list Q))) (l : list Z) : M OutDir unit :=
  fun d => ({| imputer_joblib := imputer_joblib d; scaler_joblib := scaler_joblib d;
               windows_npy := Some w; labels_npy := Some l;
               aggregates_csv := aggregates_csv d |}, Ok tt).

Definition save_aggregates (a : list AggRecord) : M OutDir unit :=
  fun d => ({| imputer_joblib := imputer_joblib d; scaler_joblib := scaler_joblib d;
               windows_npy := windows_npy d; labels_npy := labels_npy d;
               aggregates_csv := Some a |}, Ok tt).

(** [main] once every device has been resampled and interpolated:
    [frames] are the [df_res] of the devices, in order. *)
Definition main (sqrt : Q -> Q) (frames : list DataFrame) : M OutDir unit :=
  acc <- lift (device_loop sqrt frames
                 {| concat_for_scaler := []; all_windows := [];
                    all_labels := []; agg_rows := [] |}) ;;
  match concat_for_scaler acc with
  | [] => raise RuntimeError
  | _ =>
      let concat_df := concat (concat_for_scaler acc) in
      imputer <- lift (imputer_fit concat_df) ;;
      concat_imp <- lift (imputer_transform imputer concat_df) ;;
      scaler <- lift (scaler_fit concat_imp) ;;
      save_fit imputer scaler ;;
      let windows_arr := concat (all_windows acc) in
      let labels_arr := concat (all_labels acc) in
      windows_scaled <- lift (transform_windows imputer scaler windows_arr) ;;
      save_windows windows_scaled labels_arr ;;
      let agg_df := concat (agg_rows acc) in
      agg_out <- lift (transform_aggregates sqrt imputer scaler agg_df) ;;
      save_aggregates agg_out
  end.

End Preprocess.

(* ================================================================== *)
(** * Vocabulary of the specification                                  *)
(* ================================================================== *)

Module Spec.
Import Np Sklearn Fusion.

(** A handle that is not cached and whose artifact cannot be loaded. *)
Definition load_fails {A} (slot : option A) (file : result A) : Prop :=
  slot = None /\ exists e, file = Raise e.

(** One of the three external predictors is unavailable. *)
Definition predictor_unavailable (env : Env) (g : Globals) : Prop :=
  load_fails (_lstm g) (LSTM_PATH env)
  \/ load_fails (_ae g) (AE_PATH env)
  \/ load_fails (_rf g) (RF_PATH env).

(** The six numeric fields of a response. *)
Definition numeric_fields : list string :=
  ["failure_prob_lstm"; "prob_failure_rf"; "ae_score"; "ae_scaled";
   "health_score"; "fused_risk"].

(** The fields that hold a probability or a risk in [0, 1]. *)
Definition probability_fields : list string :=
  ["failure_prob_lstm"; "prob_failure_rf"; "ae_scaled"; "health_score";
   "fused_risk"].

(** A response carries every numeric field. *)
Definition has_numeric_fields (resp : Response) : Prop :=
  Forall (fun k => exists x, resp !! k = Some (VFloat x)) numeric_fields.

(** ** The windower, in the words of the specification *)

(** The F = 4 channel cells of a bin: temperature, vibration, rpm and
    humidity, in this order. *)
Definition cells (b : Preprocess.Bin) : list (option Q) :=
  [Preprocess.temperature b; Preprocess.vibration b;
   Preprocess.rpm b; Preprocess.humidity b].

(** The bins [start], ..., [start + T - 1] of a series. *)
Definition bins_in_range (df : Preprocess.DataFrame) (T start : nat)
    : list Preprocess.Bin :=
  firstn T (skipn start (Preprocess.rows df)).

(** The candidate window at a start offset: the cells of the [T]
    consecutive bins from [start] on. *)
Definition candidate (df : Preprocess.DataFrame) (T start : nat) : Preprocess.Window :=
  map cells (bins_in_range df T start).

(** The label of a bin: its [label] field, and 0 in a frame that has no
    label column. *)
Definition bin_label (df : Preprocess.DataFrame) (b : Preprocess.Bin) : Z :=
  if Preprocess.label_column df then Preprocess.label b else 0%Z.

(** The labels of the bins in the range of that candidate. *)
Definition labels_in_range (df : Preprocess.DataFrame) (T start : nat) : list Z :=
  map (bin_label df) (bins_in_range df T start).

(** [m] is the maximum of [xs]. *)
Definition is_max (m : Z) (xs : list Z) : Prop :=
  In m xs /\ Forall (fun x => (x <= m)%Z) xs.

(** The number of non-missing cells of a window. *)
Definition present_cells (w : Preprocess.Window) : nat :=
  list_sum (map (fun row => length (filter (fun x => is_Some x) row)) w).

(** validity ratio = (count of non-missing cells) / (T x F), F = 4. *)
Definition validity_ratio (T : nat) (w : Preprocess.Window) : Q :=
  (inject_Z (Z.of_nat (present_cells w)) / inject_Z (Z.of_nat (T * 4)))%Q.

(** The start offsets [0 <= start <= n - T] whose candidate reaches the
    threshold, in increasing order. *)
Definition kept_starts (df : Preprocess.DataFrame) (T : nat) (r : Q) : list nat :=
  List.filter (fun start => Qle_bool r (validity_ratio T (candidate df T start)))
              (seq 0 (length (Preprocess.rows df) + 1 - T)).

(** ** The aggregator, in the words of the specification *)

(** The trailing [T]-bin window of a column that ends at bin [i]. *)
Definition trailing (T : nat) (col : list (option Q)) (i : nat) : list (option Q) :=
  map (fun j => nth j col None) (seq (i + 1 - T) (Nat.min (i + 1) T)).

(** The populated values of a window. *)
Definition populated (w : list (option Q)) : list Q :=
  flat_map (fun x => match x with Some v => [v] | None => [] end) w.

(** A statistic over the trailing window, missing when fewer than
    [min_periods] of its bins are populated. *)
Definition trailing_stat (T min_periods : nat) (stat : list Q -> option Q)
    (col : list (option Q)) (i : nat) : option Q :=
  if (length (populated (trailing T col i)) <? min_periods)%nat then None
  else stat (populated (trailing T col i)).

(** The four channels: the name that prefixes the statistic columns,
    and the field of a bin that holds the channel. *)
Definition channels : list (string * (Preprocess.Bin -> option Q)) :=
  [("temperature", Preprocess.temperature); ("vibration", Preprocess.vibration);
   ("rpm", Preprocess.rpm); ("humidity", Preprocess.humidity)].

(** The twenty statistic columns of the aggregate table, in the order
    of the table. *)
Definition statistic_columns : list string :=
  ["temperature_mean"; "vibration_mean"; "rpm_mean"; "humidity_mean";
   "temperature_std"; "vibration_std"; "rpm_std"; "humidity_std";
   "temperature_min"; "vibration_min"; "rpm_min"; "humidity_min";
   "temperature_max"; "vibration_max"; "rpm_max"; "humidity_max";
   "temperature_median"; "vibration_median"; "rpm_median"; "humidity_median"].

Definition total (xs : list Q) : Q := fold_right Qplus 0%Q xs.

(** The twenty features of the tabular model, sensor by sensor. *)
Definition tabular_features : list string :=
  ["temperature_mean"; "temperature_std"; "temperature_min"; "temperature_max";
   "temperature_median"; "vibration_mean"; "vibration_std"; "vibration_min";
   "vibration_max"; "vibration_median"; "rpm_mean"; "rpm_std"; "rpm_min";
   "rpm_max"; "rpm_median"; "humidity_mean"; "humidity_std"; "humidity_min";
   "humidity_max"; "humidity_median"].

(** The mean of the squared differences of two sequences of cells. *)
Definition mean_squared_error (xs ys : list Q) : Q :=
  let squares := map (fun '(x, y) => ((x - y) * (x - y))%Q) (combine xs ys) in
  (total squares / inject_Z (Z.of_nat (length squares)))%Q.

(** [m] is the arithmetic mean of [xs]. *)
Definition is_mean (m : Q) (xs : list Q) : Prop :=
  (m * inject_Z (Z.of_nat (length xs)) == total xs)%Q.

(** [v] is the sample variance of [xs]: the squared deviations from the
    mean, summed and divided by one less than the number of values. *)
Definition is_sample_variance (v : Q) (xs : list Q) : Prop :=
  exists m, is_mean m xs /\
    (v * inject_Z (Z.of_nat (length xs - 1))
     == total (map (fun x => (x - m) * (x - m)) xs))%Q.

(** [m] is the least (greatest) of [xs]. *)
Definition is_least (m : Q) (xs : list Q) : Prop :=
  In m xs /\ Forall (fun x => (m <= x)%Q) xs.

Definition is_greatest (m : Q) (xs : list Q) : Prop :=
  In m xs /\ Forall (fun x => (x <= m)%Q) xs.

(** [m] is the median of [xs]: the middle value of the values in
    ascending order, or the mean of the two middle values. *)
Definition is_median (m : Q) (xs : list Q) : Prop :=
  exists s, Permutation s xs /\ StronglySorted Qle s /\
    let n := length s in
    (m == if Nat.even n
          then (nth (n / 2 - 1) s 0 + nth (n / 2) s 0) / 2
          else nth (n / 2) s 0)%Q.

(** ** The normalizer *)

(** Rows of F = 4 channel values. *)
Definition four_wide (X : list (list (option Q))) : Prop :=
  Forall (fun row => length row = 4%nat) X.

End Spec.

(* ================================================================== *)
(** * Sample environments and inputs                                   *)
(* ================================================================== *)

Module Samples.
Import Np Sklearn Fusion Predict Preprocess.

(** Predictors that answer constants, an autoencoder that reproduces
    its input, and a stand-in for [np.exp]. *)
Definition constant_env (p_lstm p_rf : Q) : Env :=
  {| LSTM_PATH := Ok (fun _ => Ok p_lstm);
     AE_PATH := Ok (fun w => Ok w);
     RF_PATH := Ok (fun _ => Ok p_rf);
     IMPUTER_PATH := Ok {| statistics_ := [Some 0; Some 0; Some 0; Some 0]%Q |};
     SCALER_PATH := Ok {| center_ := [0; 0; 0; 0]%Q; scale_ := [1; 1; 1; 1]%Q |};
     np_exp := fun _ => 1%Q |}.

(** The same, except that the sequence model cannot be loaded. *)
Definition no_lstm_env : Env :=
  {| LSTM_PATH := Raise (ExternalError "No file or directory found at models/lstm_model.h5");
     AE_PATH := Ok (fun w => Ok w);
     RF_PATH := Ok (fun _ => Ok 0.2%Q);
     IMPUTER_PATH := Ok {| statistics_ := [Some 0; Some 0; Some 0; Some 0]%Q |};
     SCALER_PATH := Ok {| center_ := [0; 0; 0; 0]%Q; scale_ := [1; 1; 1; 1]%Q |};
     np_exp := fun _ => 1%Q |}.

(** The same, except that the tabular model cannot be loaded. *)
Definition no_rf_env : Env :=
  {| LSTM_PATH := Ok (fun _ => Ok 0.9%Q);
     AE_PATH := Ok (fun w => Ok w);
     RF_PATH := Raise (ExternalError "No such file: models/rf_model.joblib");
     IMPUTER_PATH := Ok {| statistics_ := [Some 0; Some 0; Some 0; Some 0]%Q |};
     SCALER_PATH := Ok {| center_ := [0; 0; 0; 0]%Q; scale_ := [1; 1; 1; 1]%Q |};
     np_exp := fun _ => 1%Q |}.

(** [n] rows of [c] readings each. *)
Definition flat_window (n c : nat) : list (list Q) := repeat (repeat 1%Q c) n.

(** Rows of different lengths. *)
Definition ragged_window : list (list Q) := [[1; 2; 3; 4]; [5; 6]]%Q.

Definition full_window : ndarray := Arr2 4 (flat_window 60 4).

(** An aggregate mapping that names two of the twenty statistics. *)
Definition partial_agg : AggRow :=
  <["temperature_mean" := 25.5%Q]> (<["rpm_max" := 1800%Q]> ∅).

Definition bin (l : Z) (t : option Q) : Bin :=
  {| temperature := t; vibration := Some 1%Q; rpm := Some 1500%Q;
     humidity := Some 60%Q; device_id := "pump_alpha"; device_type := "pump";
     label := l |}.

(** Four bins, two of them without a temperature. *)
Definition short_frame : DataFrame :=
  {| rows := [bin 0 None; bin 1 (Some 25%Q); bin 0 None; bin 2 (Some 31%Q)];
     label_column := true |}.

(** Four bins, the first two without a temperature: of the three
    candidate windows of two bins, the first has 6 of 8 cells. *)
Definition gappy_frame : DataFrame :=
  {| rows := [bin 0 None; bin 1 None; bin 0 (Some 25%Q); bin 2 (Some 31%Q)];
     label_column := true |}.

(** Forty complete bins whose temperature rises by one per bin. *)
Definition ramp_frame : DataFrame :=
  {| rows := map (fun i => bin (Z.of_nat (i mod 3))
                               (Some (inject_Z (Z.of_nat i)))) (seq 0 40);
     label_column := true |}.

(** Sixty complete bins: exactly one window. *)
Definition hour_frame : DataFrame :=
  {| rows := repeat (bin 0 (Some 25%Q)) 60; label_column := true |}.

End Samples.

(* ================================================================== *)
(** * api/app/routes.py: the two prediction endpoints                  *)
(* ================================================================== *)

Module Routes.
Import Np Fusion Predict.
Local Open Scope py_scope.

(** The JSON body as the endpoints read it: [payload.get("window")]
    and [payload.get("agg")], [None] when the key is absent or null. *)
Record Payload := {
  window : option (list (list Q));
  agg : option AggRow
}.

(** What can leave an endpoint body: a Python exception, or FastAPI's
    [HTTPException] with its status code and detail. *)
Inductive route_exn :=
| PyExn (e : exn)
| HTTPException (status_code : nat) (detail : string).

Inductive outcome (A : Type) :=
| Returned (a : A)
| Raised (e : route_exn).
Arguments Returned {A} a.
Arguments Raised {A} e.

(** [str(e)] for whatever the [except Exception as e] clause catches;
    the text of an [HTTPException] is the web framework's. *)
Definition str_of (str_http : nat -> string -> string) (e : route_exn) : string :=
  match e with
  | PyExn e => Py.str e
  | HTTPException status_code detail => str_http status_code detail
  end.

(** [try: body / except Exception as e: raise HTTPException(500, str(e))] *)
Definition reraise_500 {A} (str_http : nat -> string -> string) (o : outcome A) : outcome A :=
  match o with
  | Returned a => Returned a
  | Raised e => Raised (HTTPException 500 (str_of str_http e))
  end.

Definition of_result {A} (r : result A) : outcome A :=
  match r with
  | Ok a => Returned a
  | Raise e => Raised (PyExn e)
  end.

(** [POST /predict/fusion] *)
Definition predict_fusion_endpoint (str_http : nat -> string -> string)
    (predict_fusion : Binding) (payload : Payload)
    : Globals -> Globals * outcome Response :=
  fun g =>
    let '(g', o) :=
      match window payload, agg payload with
      | Some window, Some agg =>
          let '(g', res) := predict_from_window_and_agg predict_fusion window agg g in
          (g', of_result res)
      | _, _ => (g, Raised (HTTPException 400 "Both 'window' and 'agg' required"))
      end in
    (g', reraise_500 str_http o).

(** [lstm_predict_prob] on the raw list of the payload: the handles are
    loaded first, then [np.asarray] converts the list (rows of different
    lengths end in an exception, here or in the model). *)
Definition lstm_predict_prob_list (env : Env) (window : list (list Q)) : M Globals Q :=
  h <- load_all env ;;
  let '(model, _, _, _, _) := h in
  w <- lift (Np.array window) ;;
  match model with
  | None => raise AttributeError
  | Some m => lift (m w)
  end.

(** [POST /predict/lstm]: the check for the window is outside the
    [try]; the import of [lstm_predict_prob] is inside it and may fail
    ([imported = false]). *)
Definition predict_lstm_only (str_http : nat -> string -> string) (imported : bool)
    (env : Env) (payload : Payload) : Globals -> Globals * outcome Q :=
  fun g =>
    match window payload with
    | None => (g, Raised (HTTPException 400 "window required"))
    | Some window =>
        if imported then
          let '(g', p) := lstm_predict_prob_list env window g in
          (g', reraise_500 str_http (of_result p))
        else
          (g, reraise_500 str_http
                (Raised (PyExn (ExternalError "No module named 'fusion'"))))
    end.

End Routes.

(* ================================================================== *)
(** * test_fusion_demo.py: calculate_aggregates                        *)
(* ================================================================== *)

Module DemoAggregates.
Import Np Fusion.

(** [np.std]: the population standard deviation; the square root is
    numpy's. *)
Definition np_std (sqrt : Q -> Q) (data : list Q) : Q :=
  let m := mean data in
  sqrt (mean (map (fun x => ((x - m) * (x - m))%Q) data)).

(** [window[:, i]]: a one-dimensional array cannot be indexed twice,
    and column [i] must exist. *)
Definition column (window : ndarray) (i : nat) : result (list Q) :=
  match window with
  | Arr1 _ => Raise IndexError
  | Arr2 c rows =>
      if (i <? c)%nat then Ok (map (fun r => nth i r 0%Q) rows)
      else Raise IndexError
  end.

(** The five statistics of one column, in the order the loop body
    computes them; [np.min] refuses an empty column. *)
Definition five_stats (sqrt : Q -> Q) (data : list Q) : result (list Q) :=
  match data with
  | [] => Raise ValueError
  | x :: xs =>
      Ok [mean data; np_std sqrt data; fold_left Qmin xs x; fold_left Qmax xs x;
          median data]
  end.

(** The body of [for i, sensor in enumerate(sensor_names)]. *)
Fixpoint aggregates_loop (sqrt : Q -> Q) (window : ndarray)
    (sensors : list (nat * string)) (aggregates : AggRow) : result AggRow :=
  match sensors with
  | [] => Ok aggregates
  | (i, sensor) :: sensors' =>
      rbind (column window i) (fun data =>
      rbind (five_stats sqrt data) (fun st =>
        aggregates_loop sqrt window sensors'
          (<[sensor +:+ "_median" := nth 4 st 0%Q]>
           (<[sensor +:+ "_max" := nth 3 st 0%Q]>
            (<[sensor +:+ "_min" := nth 2 st 0%Q]>
             (<[sensor +:+ "_std" := nth 1 st 0%Q]>
              (<[sensor +:+ "_mean" := nth 0 st 0%Q]> aggregates)))))))
  end.

Definition sensor_names : list string := ["temperature"; "vibration"; "rpm"; "humidity"].

(** [enumerate(l)] *)
Definition enumerate {A} (l : list A) : list (nat * A) := combine (seq 0 (length l)) l.

Definition calculate_aggregates (sqrt : Q -> Q) (window : ndarray) : result AggRow :=
  aggregates_loop sqrt window (enumerate sensor_names) ∅.

End DemoAggregates.

(* ================================================================== *)
(** * training/train_rf.py: create_aggregated_features                 *)
(* ================================================================== *)

Module TrainRf.
Import Np.

Definition feature_names : list string := ["temperature"; "vibration"; "rpm"; "humidity"].
Definition stat_names : list string := ["mean"; "std"; "min"; "max"; "median"].

(** "Create column names" *)
Definition columns : list string :=
  flat_map (fun feat_name => map (fun stat_name => feat_name +:+ "_" +:+ stat_name) stat_names)
           feature_names.

(** [series[~np.isnan(series)]] for [series = window[:, f]]. *)
Definition valid_series (window : list (list (option Q))) (f : nat) : list Q :=
  Sklearn.observed (map (fun r => nth f r None) window).

(** The five statistics of one channel, zeros when every value is nan. *)
Definition channel_features (sqrt : Q -> Q) (valid : list Q) : list Q :=
  match valid with
  | [] => [0; 0; 0; 0; 0]%Q
  | x :: xs =>
      [mean valid; DemoAggregates.np_std sqrt valid; fold_left Qmin xs x;
       fold_left Qmax xs x; median valid]
  end.

(** The feature row of one window of [n_features] channels. *)
Definition window_features (sqrt : Q -> Q) (n_features : nat)
    (window : list (list (option Q))) : list Q :=
  flat_map (fun f => channel_features sqrt (valid_series window f)) (seq 0 n_features).

(** The frame that is returned: its feature columns, its rows and the
    label column. *)
Record FeatureFrame := {
  frame_columns : list string;
  frame_rows : list (list Q);
  frame_label : list Z
}.

(** [pd.DataFrame(agg_features, columns=columns)] refuses rows whose
    length is not the number of columns, and [df["label"] = labels] a
    label array of another length. *)
Definition create_aggregated_features (sqrt : Q -> Q) (n_features : nat)
    (windows : list (list (list (option Q)))) (labels : list Z) : result FeatureFrame :=
  let agg_features := map (window_features sqrt n_features) windows in
  if forallb (fun row => (length row =? length columns)%nat) agg_features then
    if (length labels =? length agg_features)%nat then
      Ok {| frame_columns := columns; frame_rows := agg_features; frame_label := labels |}
    else Raise ValueError
  else Raise ValueError.

(** [X_cols = [c for c in df.columns if c not in ignore]], [ignore = ["label"]] *)
Definition X_cols (df : FeatureFrame) : list string :=
  List.filter (fun c => negb (String.eqb c "label")) (frame_columns df).

(** [y = (df["label"] > 0).astype(int)] *)
Definition binary_target (df : FeatureFrame) : list Z :=
  map (fun l => if (0 <? l)%Z then 1%Z else 0%Z) (frame_label df).

End TrainRf.

(* ================================================================== *)
(** * preprocess.py: resample_device                                   *)
(* ================================================================== *)

Module Resample.
Import Np Preprocess.

(** One raw reading of a device; the timestamp in nanoseconds, as
    pandas keeps it. *)
Record Reading := {
  timestamp : Z;
  r_temperature : option Q;
  r_vibration : option Q;
  r_rpm : option Q;
  r_humidity : option Q;
  r_device_id : string;
  r_device_type : string;
  r_label : option Z
}.

(** The frame of one device; [raw_label_column] tells whether
    ["label" in df_dev.columns]. *)
Record RawFrame := {
  readings : list Reading;
  raw_label_column : bool
}.

(** ["1T"]: one minute. *)
Definition RESAMPLE_RULE : Z := 60 * 1000000000.

(** One day, in nanoseconds. *)
Definition DAY : Z := 86400 * 1000000000.

(** [origin='start_day'], the default of [resample]: midnight of the
    day of the earliest reading. *)
Definition origin (rs : list Reading) : Z :=
  match map timestamp rs with
  | [] => 0%Z
  | t :: ts => (fold_left Z.min ts t / DAY * DAY)%Z
  end.

(** The bin a timestamp falls into: bins are left-closed, one rule
    wide, and counted from the origin. *)
Definition bin_of (rule origin : Z) (t : Z) : Z := ((t - origin) / rule)%Z.

Definition r_cell (c : string) (r : Reading) : option Q :=
  if String.eqb c "temperature" then r_temperature r
  else if String.eqb c "vibration" then r_vibration r
  else if String.eqb c "rpm" then r_rpm r
  else if String.eqb c "humidity" then r_humidity r
  else None.

(** The readings of one bin. *)
Definition in_bin (rule origin : Z) (b : Z) (rs : list Reading) : list Reading :=
  List.filter (fun r => (bin_of rule origin (timestamp r) =? b)%Z) rs.

(** [.mean()] of a bin: the mean of the values present, nan for none. *)
Definition bin_mean (xs : list (option Q)) : option Q :=
  match Sklearn.observed xs with
  | [] => None
  | obs => Some (mean obs)
  end.

(** [.max().fillna(0).astype(int)] of a bin of labels. *)
Definition bin_label (ls : list (option Z)) : Z :=
  match omap id ls with
  | [] => 0%Z
  | l :: ls' => fold_left Z.max ls' l
  end.

(** The bins from the first to the last one that holds a reading. *)
Definition bin_range (rule origin : Z) (rs : list Reading) : list Z :=
  match map (fun r => bin_of rule origin (timestamp r)) rs with
  | [] => []
  | b :: bs =>
      let lo := fold_left Z.min bs b in
      let hi := fold_left Z.max bs b in
      map (fun k => (lo + Z.of_nat k)%Z) (seq 0 (Z.to_nat (hi - lo + 1)))
  end.

(** Returns the start of the first bin together with the resampled
    frame, whose row [k] is the bin [k] rules later; [.iloc[0]] fails
    on a frame without readings. *)
Definition resample_device (df_dev : RawFrame) (rule : Z) : result (Z * DataFrame) :=
  match readings df_dev with
  | [] => Raise IndexError
  | r0 :: _ =>
      let start_day := origin (readings df_dev) in
      let bins := bin_range rule start_day (readings df_dev) in
      Ok ((start_day + hd 0 bins * rule)%Z,
          {| rows :=
               map (fun b =>
                      let rs := in_bin rule start_day b (readings df_dev) in
                      {| temperature := bin_mean (map r_temperature rs);
                         vibration := bin_mean (map r_vibration rs);
                         rpm := bin_mean (map r_rpm rs);
                         humidity := bin_mean (map r_humidity rs);
                         device_id := r_device_id r0;
                         device_type := r_device_type r0;
                         label := if raw_label_column df_dev
                                  then bin_label (map r_label rs)
                                  else 0%Z |})
                   bins;
             label_column := true |})
  end.

End Resample.

(* ================================================================== *)
(** * Further vocabulary: handles, fields, shapes                      *)
(* ================================================================== *)

Module Vocabulary.
Import Np Sklearn Fusion.

(** Every module-level handle is cached. *)
Definition fully_loaded (g : Globals) : Prop :=
  is_Some (_lstm g) /\ is_Some (_ae g) /\ is_Some (_rf g)
  /\ is_Some (_imputer g) /\ is_Some (_scaler g).

(** The five handles as [load_all] returns them on success. *)
Definition handles_of (g : Globals) : Handles :=
  (_lstm g, _ae g, _rf g, _imputer g, _scaler g).

(** One of the five artifacts, predictor or not, is neither cached nor
    loadable. *)
Definition artifact_unavailable (env : Env) (g : Globals) : Prop :=
  Spec.load_fails (_lstm g) (LSTM_PATH env)
  \/ Spec.load_fails (_ae g) (AE_PATH env)
  \/ Spec.load_fails (_rf g) (RF_PATH env)
  \/ Spec.load_fails (_imputer g) (IMPUTER_PATH env)
  \/ Spec.load_fails (_scaler g) (SCALER_PATH env).

(** Whatever [g] has cached, [g'] has cached too, unchanged. *)
Definition cache_kept (g g' : Globals) : Prop :=
  (forall m, _lstm g = Some m -> _lstm g' = Some m)
  /\ (forall m, _ae g = Some m -> _ae g' = Some m)
  /\ (forall m, _rf g = Some m -> _rf g' = Some m)
  /\ (forall m, _imputer g = Some m -> _imputer g' = Some m)
  /\ (forall m, _scaler g = Some m -> _scaler g' = Some m).

(** The float stored under a key of a response (0 when there is none). *)
Definition field (k : string) (resp : Response) : Q :=
  match resp !! k with
  | Some (VFloat x) => x
  | _ => 0%Q
  end.

(** The entries of an array, row by row. *)
Definition cells (a : ndarray) : list Q :=
  match a with
  | Arr1 xs => xs
  | Arr2 _ rows => concat rows
  end.

(** All rows of a list of rows have [c] entries. *)
Definition uniform (c : nat) (data : list (list Q)) : Prop :=
  Forall (fun r => length r = c) data.

(** A bin with a value in each of the four channels. *)
Definition complete (b : Preprocess.Bin) : Prop :=
  is_Some (Preprocess.temperature b) /\ is_Some (Preprocess.vibration b)
  /\ is_Some (Preprocess.rpm b) /\ is_Some (Preprocess.humidity b).

(** A bin without a value in any of the four channels. *)
Definition blank (b : Preprocess.Bin) : Prop :=
  Preprocess.temperature b = None /\ Preprocess.vibration b = None
  /\ Preprocess.rpm b = None /\ Preprocess.humidity b = None.

(** A window of [T] rows of four cells each. *)
Definition window_shaped (T : nat) (w : Preprocess.Window) : Prop :=
  length w = T /\ Forall (fun row => length row = 4%nat) w.

(** Midnight of the day of a timestamp (nanoseconds). *)
Definition midnight (t : Z) : Z := (t / 86400000000000 * 86400000000000)%Z.

(** A reading whose timestamp lies in the interval of row [k] of a
    frame resampled from [t0] on: [t0 + k rule <= t < t0 + (k+1) rule]. *)
Definition falls_in (rule t0 : Z) (k : nat) (r : Resample.Reading) : Prop :=
  (t0 + Z.of_nat k * rule <= Resample.timestamp r
   < t0 + (Z.of_nat k + 1) * rule)%Z.

End Vocabulary.

(* ================================================================== *)
(** * Further sample environments and inputs                           *)
(* ================================================================== *)

Module MoreSamples.
Import Np Sklearn Fusion Predict Preprocess.

(** All three predictors can be loaded; the scaler artifact cannot. *)
Definition no_scaler_env : Env :=
  {| LSTM_PATH := Ok (fun _ => Ok 0.9%Q);
     AE_PATH := Ok (fun w => Ok w);
     RF_PATH := Ok (fun _ => Ok 0.2%Q);
     IMPUTER_PATH := Ok {| statistics_ := [Some 0; Some 0; Some 0; Some 0]%Q |};
     SCALER_PATH := Raise (ExternalError "No such file: scaler.joblib");
     np_exp := fun _ => 1%Q |}.

(** A store with every handle cached; the tabular model refuses its
    input. *)
Definition loaded_rf_broken : Globals :=
  {| _lstm := Some (fun _ => Ok 0.9%Q);
     _ae := Some (fun w => Ok w);
     _rf := Some (fun _ => Raise (ExternalError "X has 20 features, expected 7"));
     _imputer := Some {| statistics_ := [Some 0; Some 0; Some 0; Some 0]%Q |};
     _scaler := Some {| center_ := [0; 0; 0; 0]%Q; scale_ := [1; 1; 1; 1]%Q |} |}.

(** A store with every handle cached; the sequence model refuses its
    input. *)
Definition loaded_lstm_broken : Globals :=
  {| _lstm := Some (fun _ => Raise (ExternalError "incompatible input shape"));
     _ae := Some (fun w => Ok w);
     _rf := Some (fun _ => Ok 0.2%Q);
     _imputer := Some {| statistics_ := [Some 0; Some 0; Some 0; Some 0]%Q |};
     _scaler := Some {| center_ := [0; 0; 0; 0]%Q; scale_ := [1; 1; 1; 1]%Q |} |}.

(** A reading [seconds] after the epoch. *)
Definition reading (seconds : Z) (l : option Z) (t : option Q) : Resample.Reading :=
  {| Resample.timestamp := seconds * 1000000000;
     Resample.r_temperature := t; Resample.r_vibration := None;
     Resample.r_rpm := Some 1500%Q; Resample.r_humidity := Some 60%Q;
     Resample.r_device_id := "pump_alpha"; Resample.r_device_type := "pump";
     Resample.r_label := l |}.

(** Two readings of the day after the epoch, at 00:06 and 00:08. *)
Definition next_day_frame : Resample.RawFrame :=
  {| Resample.readings :=
       [reading (86400 + 360) (Some 0%Z) (Some 25%Q);
        reading (86400 + 480) (Some 1%Z) (Some 27%Q)];
     Resample.raw_label_column := true |}.

(** Four readings over four minutes, out of order; the second minute
    and the third have none. *)
Definition raw_frame : Resample.RawFrame :=
  {| Resample.readings :=
       [reading 200 (Some 1%Z) (Some 31%Q); reading 10 None None;
        reading 50 (Some 2%Z) (Some 25%Q); reading 59 (Some 0%Z) (Some 27%Q)];
     Resample.raw_label_column := true |}.

(** The frame that [resample_device] makes of it. *)
Definition resampled : DataFrame :=
  Eval vm_compute in
    match Resample.resample_device raw_frame Resample.RESAMPLE_RULE with
    | Ok (_, df) => df
    | Raise _ => {| rows := []; label_column := false |}
    end.

(** The frame made of [next_day_frame] with a rule of seven minutes. *)
Definition resampled_next_day : DataFrame :=
  Eval vm_compute in
    match Resample.resample_device next_day_frame (7 * 60 * 1000000000) with
    | Ok (_, df) => df
    | Raise _ => {| rows := []; label_column := false |}
    end.

End MoreSamples.

(* ================================================================== *)
(** * Running monadic code                                             *)
(* ================================================================== *)

Section MonadFacts.
Context {S A B : Type}.

Lemma bind_ok_inv (m : M S A) (k : A -> M S B) s s' b :
  Py.bind m k s = (s', Ok b) ->
  exists a s1, m s = (s1, Ok a) /\ k a s1 = (s', Ok b).
Proof.
  unfold Py.bind. destruct (m s) as [s1 [a | e]]; intros H.
  - exists a, s1. split; [reflexivity | exact H].
  - discriminate H.
Qed.

Lemma bind_ok (m : M S A) (k : A -> M S B) s s1 a :
  m s = (s1, Ok a) -> Py.bind m k s = k a s1.
Proof. unfold Py.bind. intros ->. reflexivity. Qed.

Lemma bind_raise (m : M S A) (k : A -> M S B) s s1 e :
  m s = (s1, Raise e) -> Py.bind m k s = (s1, Raise e).
Proof. unfold Py.bind. intros ->. reflexivity. Qed.

End MonadFacts.

(* ================================================================== *)
(** * The fusion scorer                                                *)
(* ================================================================== *)

Section FusionFacts.
Import Np Sklearn Fusion Demo.
Local Open Scope Q_scope.

Lemma predict_fusion_inv env window agg_row g g' resp :
  predict_fusion env window agg_row g = (g', Ok resp) ->
  exists p_lstm p_rf ae_score, resp = fuse (np_exp env) p_lstm p_rf ae_score.
Proof.
  unfold predict_fusion. intros H.
  apply bind_ok_inv in H as (p_lstm & g1 & _ & H).
  apply bind_ok_inv in H as (p_rf & g2 & _ & H).
  apply bind_ok_inv in H as (ae_score & g3 & _ & H).
  unfold Py.ret in H. injection H as _ <-.
  exists p_lstm, p_rf, ae_score. reflexivity.
Qed.

Lemma fuse_dom sigmoid_exp p_lstm p_rf ae_score :
  dom (fuse sigmoid_exp p_lstm p_rf ae_score)
  = ({["failure_prob_lstm"; "prob_failure_rf"; "ae_score"; "ae_scaled";
      "health_score"; "fused_risk"]} : gset string).
Proof. unfold fuse. rewrite !dom_insert_L, dom_empty_L. set_solver. Qed.

Lemma risk_level_low (risk : Q) : risk_level risk = LOW <-> risk < 0.3.
Proof.
  unfold risk_level.
  destruct (Qlt_le_dec risk 0.3) as [H | H]; [tauto |].
  destruct (Qlt_le_dec risk 0.6); split; try discriminate; intros H'; lra.
Qed.

Lemma risk_level_medium (risk : Q) :
  risk_level risk = MEDIUM <-> 0.3 <= risk /\ risk < 0.6.
Proof.
  unfold risk_level.
  destruct (Qlt_le_dec risk 0.3) as [H | H];
    [split; [discriminate | intros [H' _]; lra] |].
  destruct (Qlt_le_dec risk 0.6); split; try discriminate; try tauto.
  intros [_ H']. lra.
Qed.

Lemma risk_level_high (risk : Q) : risk_level risk = HIGH <-> 0.6 <= risk.
Proof.
  unfold risk_level.
  destruct (Qlt_le_dec risk 0.3) as [H | H];
    [split; [discriminate | intros H'; lra] |].
  destruct (Qlt_le_dec risk 0.6); split; try discriminate; try tauto.
  intros H'. lra.
Qed.

(** C2 (as the code has it): the response of the fusion scorer holds
    exactly the six numeric fields and no risk_level; the discrete level
    is computed from fused_risk by the demo's risk_level, with LOW iff
    fused_risk < 0.3, MEDIUM iff 0.3 <= fused_risk < 0.6 and HIGH iff
    fused_risk >= 0.6, so that 0.29 is LOW, 0.30 and 0.59 are MEDIUM and
    0.60 is HIGH. *)
Theorem fusion_fields_and_demo_risk_level env window agg_row g g' resp :
  predict_fusion env window agg_row g = (g', Ok resp) ->
  dom resp = list_to_set Spec.numeric_fields /\
  resp !! "risk_level" = None /\
  exists fused,
    resp !! "fused_risk" = Some (VFloat fused) /\
    (risk_level fused = LOW <-> fused < 0.3) /\
    (risk_level fused = MEDIUM <-> 0.3 <= fused /\ fused < 0.6) /\
    (risk_level fused = HIGH <-> 0.6 <= fused) /\
    risk_level 0.29 = LOW /\ risk_level 0.30 = MEDIUM /\
    risk_level 0.59 = MEDIUM /\ risk_level 0.60 = HIGH.
Proof.
  intros H. apply predict_fusion_inv in H as (p_lstm & p_rf & ae_score & ->).
  split. { rewrite fuse_dom. unfold Spec.numeric_fields. simpl. set_solver. }
  split; [reflexivity |].
  eexists. split; [reflexivity |].
  split; [apply risk_level_low |].
  split; [apply risk_level_medium |].
  split; [apply risk_level_high |].
  repeat split; reflexivity.
Qed.

Lemma fusion_fields_and_demo_risk_level_witness :
  let env := Samples.constant_env 1 0 in
  let run := predict_fusion env (Arr2 4 [[1; 2; 3; 4]]) Samples.partial_agg initial in
  let resp := fuse (np_exp env) 1 0 (0 # 4) in
  run = (fst run, Ok resp) /\
  dom resp = list_to_set Spec.numeric_fields /\
  resp !! "risk_level" = None /\
  exists fused,
    resp !! "fused_risk" = Some (VFloat fused) /\
    (risk_level fused = LOW <-> fused < 0.3) /\
    (risk_level fused = MEDIUM <-> 0.3 <= fused /\ fused < 0.6) /\
    (risk_level fused = HIGH <-> 0.6 <= fused) /\
    risk_level 0.29 = LOW /\ risk_level 0.30 = MEDIUM /\
    risk_level 0.59 = MEDIUM /\ risk_level 0.60 = HIGH.
Proof.
  intros env run resp.
  assert (Hrun : run = (fst run, Ok resp)) by reflexivity.
  split; [exact Hrun |].
  exact (fusion_fields_and_demo_risk_level env _ _ _ _ _ Hrun).
Defined.

(** C2 (as stated) fails: with all three predictors available, the
    response of the fusion scorer has no risk_level entry. *)
Lemma predict_fusion_no_risk_level :
  exists resp,
    snd (predict_fusion (Samples.constant_env 0.9 0.8) Samples.full_window
           Samples.partial_agg initial) = Ok resp /\
    resp !! "risk_level" = None.
Proof.
  exists (fuse (fun _ => 1) 0.9 0.8 (0 # 240)). split; reflexivity.
Qed.

Lemma feature_names_eq :
  feature_names =
  ["temperature_mean"; "temperature_std"; "temperature_min"; "temperature_max";
   "temperature_median"; "vibration_mean"; "vibration_std"; "vibration_min";
   "vibration_max"; "vibration_median"; "rpm_mean"; "rpm_std"; "rpm_min";
   "rpm_max"; "rpm_median"; "humidity_mean"; "humidity_std"; "humidity_min";
   "humidity_max"; "humidity_median"].
Proof. reflexivity. Qed.

Lemma feature_vector_lookup (agg_row : AggRow) i name :
  feature_names !! i = Some name ->
  feature_vector agg_row !! i = Some (default 0 (agg_row !! name)).
Proof.
  intros H. unfold feature_vector.
  rewrite list_lookup_fmap, H. reflexivity.
Qed.

Lemma load_all_total env g : exists g' h, load_all env g = (g', Ok h).
Proof.
  destruct g as [l a r i s], env as [fl fa fr fi fs ex].
  unfold load_all, try_except, Py.bind, load_if_none, Py.get, Py.put, Py.lift, Py.ret; simpl.
  destruct l, fl, a, fa, r, fr, i, fi, s, fs; simpl; eauto.
Qed.

(** C9: the tabular step hands the classifier a vector of twenty
    entries, one per feature name in the order sensor-major
    (temperature, vibration, rpm, humidity) by statistic (mean, std, min,
    max, median); the entry of a name is the mapping's value for it, and
    0.0 where the mapping lacks the name. *)
Theorem rf_feature_vector env (agg_row : AggRow) g g' l a rf im sc :
  load_all env g = (g', Ok (l, a, Some rf, im, sc)) ->
  rf_prob_failure env agg_row g
  = (g', Ok (match rf (feature_vector agg_row) with Ok p => p | Raise _ => 0.5 end)) /\
  length (feature_vector agg_row) = 20%nat /\
  (forall i j sensor stat,
     sensor_names !! i = Some sensor -> stat_names !! j = Some stat ->
     feature_vector agg_row !! (5 * i + j)%nat
     = Some (default 0 (agg_row !! (sensor +:+ "_" +:+ stat)))) /\
  (forall i name,
     feature_names !! i = Some name -> agg_row !! name = None ->
     feature_vector agg_row !! i = Some 0).
Proof.
  intros Hload. split; [| split; [| split]].
  - unfold rf_prob_failure. rewrite (bind_ok _ _ _ _ _ Hload).
    unfold try_except, Py.lift, Py.ret.
    destruct (rf (feature_vector agg_row)); reflexivity.
  - reflexivity.
  - intros i j sensor stat Hi Hj. apply feature_vector_lookup.
    do 4 (destruct i as [| i]; [injection Hi as <-;
      do 5 (destruct j as [| j]; [injection Hj as <-; reflexivity |]);
      discriminate Hj |]).
    discriminate Hi.
  - intros i name Hi Hnone.
    rewrite (feature_vector_lookup agg_row i name Hi), Hnone. reflexivity.
Qed.

Lemma rf_feature_vector_witness :
  let env := Samples.constant_env 0.9 0.8 in
  let run := load_all env initial in
  let agg_row := Samples.partial_agg in
  let rf : RfModel := fun _ => Ok 0.8 in
  run = (fst run, Ok (Some (fun _ => Ok 0.9), Some (fun w => Ok w), Some rf,
                      Some {| statistics_ := [Some 0; Some 0; Some 0; Some 0] |},
                      Some {| center_ := [0; 0; 0; 0]; scale_ := [1; 1; 1; 1] |})) /\
  (rf_prob_failure env agg_row initial
   = (fst run, Ok (match rf (feature_vector agg_row) with Ok p => p | Raise _ => 0.5 end)) /\
   length (feature_vector agg_row) = 20%nat /\
   (forall i j sensor stat,
      sensor_names !! i = Some sensor -> stat_names !! j = Some stat ->
      feature_vector agg_row !! (5 * i + j)%nat
      = Some (default 0 (agg_row !! (sensor +:+ "_" +:+ stat)))) /\
   (forall i name,
      feature_names !! i = Some name -> agg_row !! name = None ->
      feature_vector agg_row !! i = Some 0)).
Proof.
  intros env run agg_row rf.
  assert (Hrun : run = (fst run, Ok (Some (fun _ => Ok 0.9), Some (fun w => Ok w), Some rf,
                      Some {| statistics_ := [Some 0; Some 0; Some 0; Some 0] |},
                      Some {| center_ := [0; 0; 0; 0]; scale_ := [1; 1; 1; 1] |})))
    by reflexivity.
  split; [exact Hrun |].
  exact (rf_feature_vector env agg_row _ _ _ _ _ _ _ Hrun).
Defined.

End FusionFacts.

(* ================================================================== *)
(** * The service wrapper                                              *)
(* ================================================================== *)

Section PredictFacts.
Import Np Sklearn Fusion Predict.
Local Open Scope Q_scope.

Lemma load_all_unavailable env g :
  Spec.predictor_unavailable env g ->
  exists g', load_all env g = (g', Ok (None, None, _rf g', _imputer g', _scaler g'))
    /\ (Spec.load_fails (_rf g) (RF_PATH env) -> _rf g' = None).
Proof.
  intros H. exists (fst (load_all env g)). revert H.
  destruct g as [l a r i s], env as [fl fa fr fi fs ex].
  unfold Spec.predictor_unavailable, Spec.load_fails; simpl.
  unfold load_all, try_except, Py.bind, load_if_none, Py.get, Py.put, Py.lift, Py.ret; simpl.
  destruct l, fl, a, fa, r, fr, i, fi, s, fs; simpl; intros H;
    try (split; [reflexivity | simpl; intros [? [? ?]]; congruence]);
    exfalso; destruct H as [[? [? ?]] | [[? [? ?]] | [? [? ?]]]]; congruence.
Qed.

(** With a predictor missing, the scorer itself stops at its first
    step: the sequence model handle comes back as [None]. *)
Lemma predict_fusion_unavailable env g window agg_row :
  Spec.predictor_unavailable env g ->
  exists g', predict_fusion env window agg_row g = (g', Raise AttributeError).
Proof.
  intros H. destruct (load_all_unavailable env g H) as (g' & Hload & _).
  exists g'. unfold predict_fusion, lstm_predict_prob.
  apply bind_raise. rewrite (bind_ok _ _ _ _ _ Hload). reflexivity.
Qed.

Lemma wrapper_adapt_raise env window_data agg_data g e :
  adapt_window window_data = Raise e ->
  predict_from_window_and_agg (imported env) window_data agg_data g
  = (g, Ok (error_response e)).
Proof.
  intros H. unfold predict_from_window_and_agg, imported, try_except, Py.bind, Py.lift.
  rewrite H. reflexivity.
Qed.

Lemma wrapper_fusion_raise env window_data agg_data g w g1 e :
  adapt_window window_data = Ok w ->
  predict_fusion env w agg_data g = (g1, Raise e) ->
  predict_from_window_and_agg (imported env) window_data agg_data g
  = (g1, Ok (error_response e)).
Proof.
  intros H1 H2. unfold predict_from_window_and_agg, imported, try_except, Py.bind, Py.lift.
  rewrite H1, H2. reflexivity.
Qed.

Lemma wrapper_fusion_ok env window_data agg_data g w g1 resp :
  adapt_window window_data = Ok w ->
  predict_fusion env w agg_data g = (g1, Ok resp) ->
  predict_from_window_and_agg (imported env) window_data agg_data g = (g1, Ok resp).
Proof.
  intros H1 H2. unfold predict_from_window_and_agg, imported, try_except, Py.bind, Py.lift.
  rewrite H1, H2. reflexivity.
Qed.

Lemma error_response_defaults e :
  error_response e !! "error" = Some (VStr (Py.str e)) /\
  Forall (fun k => error_response e !! k = Some (VFloat 0.5)) Spec.probability_fields.
Proof. split; [reflexivity |]. repeat constructor. Qed.

Lemma unavailable_response_defaults :
  unavailable_response !! "error" = Some (VStr "Fusion model not available") /\
  Forall (fun k => unavailable_response !! k = Some (VFloat 0.5)) Spec.probability_fields.
Proof. split; [reflexivity |]. repeat constructor. Qed.

Lemma error_response_fields e : Spec.has_numeric_fields (error_response e).
Proof. repeat constructor; eexists; reflexivity. Qed.

Lemma unavailable_response_fields : Spec.has_numeric_fields unavailable_response.
Proof. repeat constructor; eexists; reflexivity. Qed.

Lemma fuse_fields ex p q s : Spec.has_numeric_fields (fuse ex p q s).
Proof. repeat constructor; eexists; reflexivity. Qed.

(** C10: whatever the window and the aggregate mapping, and whether
    or not the fusion module could be imported, the service wrapper
    returns a dictionary with the six numeric fields and raises
    nothing; after a failed import, and whenever its body raises, the
    dictionary is the fixed default one, 0.5 in every probability
    field, with an 'error' entry. *)
Theorem predict_from_window_and_agg_total (import_ok : bool) env window_data agg_data g :
  exists g' resp,
    predict_from_window_and_agg (if import_ok then imported env else import_failed)
      window_data agg_data g = (g', Ok resp) /\
    Spec.has_numeric_fields resp /\
    (import_ok = false -> resp = unavailable_response) /\
    (forall e, import_ok = true -> adapt_window window_data = Raise e ->
               resp = error_response e) /\
    (forall w g1 e, import_ok = true -> adapt_window window_data = Ok w ->
                    predict_fusion env w agg_data g = (g1, Raise e) ->
                    resp = error_response e) /\
    (resp = unavailable_response \/ (exists e, resp = error_response e) ->
     is_Some (resp !! "error") /\
     Forall (fun k => resp !! k = Some (VFloat 0.5)) Spec.probability_fields).
Proof.
  assert (Hdef : forall resp : Response,
             resp = unavailable_response \/ (exists e, resp = error_response e) ->
             is_Some (resp !! "error") /\
             Forall (fun k => resp !! k = Some (VFloat 0.5)) Spec.probability_fields).
  { intros resp [-> | [e ->]].
    - destruct unavailable_response_defaults as [H1 H2]. rewrite H1. eauto.
    - destruct (error_response_defaults e) as [H1 H2]. rewrite H1. eauto. }
  destruct import_ok.
  - destruct (adapt_window window_data) as [w | e] eqn:Hw.
    + destruct (predict_fusion env w agg_data g) as [g1 [resp | e]] eqn:Hf.
      * exists g1, resp. rewrite (wrapper_fusion_ok _ _ _ _ _ _ _ Hw Hf).
        split; [reflexivity |]. split.
        { apply predict_fusion_inv in Hf as (p & q & s & ->). apply fuse_fields. }
        split; [discriminate |]. split; [discriminate |].
        split; [| apply Hdef].
        intros w' g1' e' _ Hw' Hf'. injection Hw' as <-. rewrite Hf' in Hf. discriminate Hf.
      * exists g1, (error_response e). rewrite (wrapper_fusion_raise _ _ _ _ _ _ _ Hw Hf).
        split; [reflexivity |]. split; [apply error_response_fields |].
        split; [discriminate |]. split; [discriminate |].
        split; [| apply Hdef].
        intros w' g1' e' _ Hw' Hf'. injection Hw' as <-. rewrite Hf' in Hf. congruence.
    + exists g, (error_response e). rewrite (wrapper_adapt_raise _ _ _ _ _ Hw).
      split; [reflexivity |]. split; [apply error_response_fields |].
      split; [discriminate |]. split; [congruence |].
      split; [discriminate | apply Hdef].
  - exists g, unavailable_response.
    split; [reflexivity |]. split; [apply unavailable_response_fields |].
    split; [reflexivity |]. split; [discriminate |].
    split; [discriminate | apply Hdef].
Qed.

(** C4 (as the code has it): when a predictor failed to load, the
    service wrapper raises nothing and returns the fixed default
    response, 0.5 in every probability field, with an 'error' entry;
    of the scorer's steps the tabular one answers 0.5 when its model is
    not loaded; and a malformed window is handled by the same handler,
    not propagated: the wrapper returns the same default response with
    the error text. *)
Theorem unavailable_predictor_defaults env g window_data agg_data :
  Spec.predictor_unavailable env g ->
  (exists g' e,
     predict_from_window_and_agg (imported env) window_data agg_data g
     = (g', Ok (error_response e)) /\
     error_response e !! "error" = Some (VStr (Py.str e)) /\
     Forall (fun k => error_response e !! k = Some (VFloat 0.5))
       Spec.probability_fields) /\
  (Spec.load_fails (_rf g) (RF_PATH env) ->
   exists g1, rf_prob_failure env agg_data g = (g1, Ok 0.5)) /\
  (forall env0 g0 bad e0,
     adapt_window bad = Raise e0 ->
     predict_from_window_and_agg (imported env0) bad agg_data g0
     = (g0, Ok (error_response e0))).
Proof.
  intros Hun. split; [| split].
  - destruct (adapt_window window_data) as [w | e] eqn:Hw.
    + destruct (predict_fusion_unavailable env g w agg_data Hun) as [g' Hf].
      exists g', AttributeError.
      rewrite (wrapper_fusion_raise _ _ _ _ _ _ _ Hw Hf).
      split; [reflexivity | apply error_response_defaults].
    + exists g, e. rewrite (wrapper_adapt_raise _ _ _ _ _ Hw).
      split; [reflexivity | apply error_response_defaults].
  - intros Hrf. destruct (load_all_unavailable env g Hun) as (g' & Hload & Hnone).
    exists g'. unfold rf_prob_failure. rewrite (bind_ok _ _ _ _ _ Hload).
    rewrite (Hnone Hrf). reflexivity.
  - intros env0 g0 bad e0 Hbad. apply wrapper_adapt_raise. exact Hbad.
Qed.

Lemma unavailable_predictor_defaults_witness :
  Spec.predictor_unavailable Samples.no_rf_env initial /\
  ((exists g' e,
      predict_from_window_and_agg (imported Samples.no_rf_env)
        (Samples.flat_window 60 4) Samples.partial_agg initial
      = (g', Ok (error_response e)) /\
      error_response e !! "error" = Some (VStr (Py.str e)) /\
      Forall (fun k => error_response e !! k = Some (VFloat 0.5))
        Spec.probability_fields) /\
   (Spec.load_fails (_rf initial) (RF_PATH Samples.no_rf_env) ->
    exists g1, rf_prob_failure Samples.no_rf_env Samples.partial_agg initial
               = (g1, Ok 0.5)) /\
   (forall env0 g0 bad e0,
      adapt_window bad = Raise e0 ->
      predict_from_window_and_agg (imported env0) bad Samples.partial_agg g0
      = (g0, Ok (error_response e0)))).
Proof.
  assert (Hun : Spec.predictor_unavailable Samples.no_rf_env initial).
  { right. right. split; [reflexivity |]. eexists. reflexivity. }
  split; [exact Hun |].
  exact (unavailable_predictor_defaults Samples.no_rf_env initial
           (Samples.flat_window 60 4) Samples.partial_agg Hun).
Defined.

(** C4 (as stated) fails twice over: with the sequence model missing
    the scorer raises instead of substituting 0.5, and a malformed
    (ragged) window given to the service, all predictors being
    available, is answered with the default response instead of an
    error raised to the caller. *)
Lemma unavailable_or_malformed_counterexample :
  snd (predict_fusion Samples.no_lstm_env Samples.full_window
         Samples.partial_agg initial) = Raise AttributeError /\
  snd (predict_from_window_and_agg (imported (Samples.constant_env 0.9 0.8))
         Samples.ragged_window Samples.partial_agg initial)
  = Ok (error_response ValueError).
Proof. split; reflexivity. Qed.

Lemma array_uniform (window_data : list (list Q)) (c : nat) :
  window_data <> [] -> Forall (fun r => length r = c) window_data ->
  Np.array window_data = Ok (Arr2 c window_data).
Proof.
  intros Hne Hall. destruct window_data as [| r rs]; [congruence |].
  inversion Hall as [| ? ? Hr Hrs]; subst. unfold Np.array.
  replace (forallb (fun r' => (length r' =? length r)%nat) rs) with true; [reflexivity |].
  symmetry. apply forallb_forall. intros r' Hin.
  rewrite Forall_forall in Hrs. apply Nat.eqb_eq, Hrs.
  apply list_elem_of_In. exact Hin.
Qed.

(** C3 (as the code has it): for a window of at least one row whose
    rows all have [c] features, the adaptation acts on the row count
    only.  With 4 features and fewer than 60 rows it is left-padded with
    zero rows to exactly 60 rows, the original rows following in order;
    with more than 60 rows, whatever [c], only the last 60 rows are kept;
    with exactly 60 rows it is passed on unchanged.  A feature count
    other than 4 raises no shape error of its own: only the padding of a
    window shorter than 60 rows fails, and the service answers that with
    its default response. *)
Theorem adapt_window_rows (window_data : list (list Q)) (c : nat) :
  window_data <> [] -> Forall (fun r => length r = c) window_data ->
  let n := length window_data in
  ((n < 60)%nat -> c = 4%nat ->
   adapt_window window_data
   = Ok (Arr2 4 (repeat (repeat 0 4) (60 - n) ++ window_data)) /\
   length (repeat (repeat 0 4) (60 - n) ++ window_data) = 60%nat) /\
  ((60 < n)%nat ->
   adapt_window window_data = Ok (Arr2 c (skipn (n - 60) window_data)) /\
   length (skipn (n - 60) window_data) = 60%nat) /\
  (n = 60%nat -> adapt_window window_data = Ok (Arr2 c window_data)) /\
  ((n < 60)%nat -> c <> 4%nat ->
   adapt_window window_data = Raise ValueError /\
   forall env agg_data g,
     predict_from_window_and_agg (imported env) window_data agg_data g
     = (g, Ok (error_response ValueError))).
Proof.
  intros Hne Hall n.
  pose proof (array_uniform window_data c Hne Hall) as Harr.
  unfold adapt_window. rewrite Harr. simpl rbind. fold n.
  assert (Hpad : (n < 60)%nat -> c <> 4%nat ->
            (if decide ([n; c] ≠ [60; 4]%nat)
             then if (n <? 60)%nat
                  then vstack (zeros (60 - n) 4) (Arr2 c window_data)
                  else if (60 <? n)%nat
                       then Ok (last_rows 60 (Arr2 c window_data))
                       else Ok (Arr2 c window_data)
             else Ok (Arr2 c window_data)) = Raise ValueError).
  { intros Hn Hc. destruct (decide ([n; c] ≠ [60; 4]%nat)) as [_ | Heq].
    - apply Nat.ltb_lt in Hn. rewrite Hn. unfold vstack, zeros, atleast_2d.
      destruct (Nat.eqb_spec 4 c); [congruence | reflexivity].
    - exfalso. apply Heq. intros [= ? ?]. lia. }
  split; [| split; [| split]].
  - intros Hn ->. split.
    + destruct (decide ([n; 4%nat] ≠ [60; 4]%nat)) as [_ | Heq].
      * apply Nat.ltb_lt in Hn. rewrite Hn. reflexivity.
      * exfalso. apply Heq. intros [= ?]. lia.
    + rewrite length_app, repeat_length. fold n. lia.
  - intros Hn. split.
    + destruct (decide ([n; c] ≠ [60; 4]%nat)) as [_ | Heq].
      * replace (n <? 60)%nat with false by (symmetry; apply Nat.ltb_ge; lia).
        apply Nat.ltb_lt in Hn. rewrite Hn. reflexivity.
      * exfalso. apply Heq. intros [= ? ?]. lia.
    + rewrite length_skipn. fold n. lia.
  - intros Hn. rewrite Hn.
    destruct (decide ([60; c]%nat ≠ [60; 4]%nat)); reflexivity.
  - intros Hn Hc. split; [exact (Hpad Hn Hc) |].
    intros env agg_data g. apply wrapper_adapt_raise.
    unfold adapt_window. rewrite Harr. simpl rbind. fold n. exact (Hpad Hn Hc).
Qed.

Lemma adapt_window_rows_witness :
  let window_data := Samples.flat_window 40 4 in
  window_data <> [] /\ Forall (fun r => length r = 4%nat) window_data /\
  let n := length window_data in
  ((n < 60)%nat -> 4%nat = 4%nat ->
   adapt_window window_data
   = Ok (Arr2 4 (repeat (repeat 0 4) (60 - n) ++ window_data)) /\
   length (repeat (repeat 0 4) (60 - n) ++ window_data) = 60%nat) /\
  ((60 < n)%nat ->
   adapt_window window_data = Ok (Arr2 4 (skipn (n - 60) window_data)) /\
   length (skipn (n - 60) window_data) = 60%nat) /\
  (n = 60%nat -> adapt_window window_data = Ok (Arr2 4 window_data)) /\
  ((n < 60)%nat -> 4%nat <> 4%nat ->
   adapt_window window_data = Raise ValueError /\
   forall env agg_data g,
     predict_from_window_and_agg (imported env) window_data agg_data g
     = (g, Ok (error_response ValueError))).
Proof.
  intros window_data.
  assert (Hne : window_data <> []) by discriminate.
  assert (Hall : Forall (fun r => length r = 4%nat) window_data).
  { apply Forall_forall. intros r Hin. apply list_elem_of_In, repeat_spec in Hin.
    subst r. reflexivity. }
  split; [exact Hne |]. split; [exact Hall |].
  exact (adapt_window_rows window_data 4 Hne Hall).
Defined.

(** C3 (as stated) fails: a window of 61 rows of 3 features is adapted
    all the same (cut to its last 60 rows) with no error, and a window of
    40 rows of 3 features raises nothing to the caller. *)
Lemma feature_mismatch_counterexample :
  adapt_window (Samples.flat_window 61 3) = Ok (Arr2 3 (Samples.flat_window 60 3)) /\
  snd (predict_from_window_and_agg (imported (Samples.constant_env 0.9 0.8))
         (Samples.flat_window 40 3) Samples.partial_agg initial)
  = Ok (error_response ValueError).
Proof. split; reflexivity. Qed.

End PredictFacts.

(* ================================================================== *)
(** * The windower                                                     *)
(* ================================================================== *)

Section WindowerFacts.
Import Np Sklearn Preprocess.
Local Open Scope Q_scope.

Lemma firstn_skipn_nth {A} (d : A) (l : list A) (T start : nat) :
  (start + T <= length l)%nat ->
  firstn T (skipn start l) = map (fun i => nth i l d) (seq start T).
Proof.
  revert start. induction T as [| T IH]; intros start Hle; [reflexivity |].
  destruct (lookup_lt_is_Some_2 l start ltac:(lia)) as [x Hx].
  rewrite (drop_S l x start Hx). simpl.
  rewrite (nth_lookup_Some l start d x Hx). f_equal.
  apply IH. lia.
Qed.

Lemma slice_nth {A} (d : A) (l : list A) (T start : nat) :
  (start + T <= length l)%nat ->
  slice start (start + T) l = map (fun i => nth i l d) (seq start T).
Proof.
  intros H. unfold slice. replace (start + T - start)%nat with T by lia.
  apply firstn_skipn_nth. exact H.
Qed.

Lemma count_valid_present (w : Window) : count_valid w = Spec.present_cells w.
Proof.
  unfold count_valid, Spec.present_cells.
  induction w as [| row w IH]; [reflexivity |].
  simpl. rewrite filter_app, length_app, IH. f_equal. f_equal.
  apply list_filter_iff. intros [x |]; simpl; split; intros H;
    try exact I; try (eexists; reflexivity); try contradiction.
  destruct H as [? H]. discriminate H.
Qed.

Lemma fold_max_is_max (l : list Z) (a : Z) :
  Spec.is_max (fold_left Z.max l a) (a :: l).
Proof.
  revert a. induction l as [| x l IH]; intros a.
  - split; [left; reflexivity |]. repeat constructor. simpl. lia.
  - simpl. destruct (IH (Z.max a x)) as [Hin Hall]. split.
    + destruct Hin as [Heq | Hin]; [| right; right; exact Hin].
      rewrite <- Heq. destruct (Z.max_spec a x) as [[_ ->] | [_ ->]];
        [right; left | left]; reflexivity.
    + inversion Hall as [| ? ? Hm Hl]; subst.
      constructor; [lia |]. constructor; [lia | exact Hl].
Qed.

Lemma np_max_is_max (xs : list Z) :
  xs <> [] -> exists m, np_max xs = Ok m /\ Spec.is_max m xs.
Proof.
  destruct xs as [| x xs]; [congruence |]. intros _.
  eexists. split; [reflexivity | apply fold_max_is_max].
Qed.

Lemma values_length df : length (values df) = length (rows df).
Proof. unfold values. apply length_map. Qed.

Lemma labels_of_length df : length (labels_of df) = length (rows df).
Proof. unfold labels_of. destruct (label_column df); apply length_map. Qed.

Lemma values_cells df : values df = map Spec.cells (rows df).
Proof. reflexivity. Qed.

Lemma labels_of_bin_label df : labels_of df = map (Spec.bin_label df) (rows df).
Proof. unfold labels_of, Spec.bin_label. destruct (label_column df); reflexivity. Qed.

Lemma slice_map {A B} (f : A -> B) (start T : nat) (l : list A) :
  slice start (start + T) (map f l) = map f (firstn T (skipn start l)).
Proof.
  unfold slice. replace (start + T - start)%nat with T by lia.
  rewrite skipn_map, firstn_map. reflexivity.
Qed.

Lemma slice_candidate df T start :
  slice start (start + T) (values df) = Spec.candidate df T start.
Proof. rewrite values_cells. apply slice_map. Qed.

Lemma slice_labels df T start :
  slice start (start + T) (labels_of df) = Spec.labels_in_range df T start.
Proof. rewrite labels_of_bin_label. apply slice_map. Qed.

Lemma bins_in_range_length df T start :
  (start + T <= length (rows df))%nat -> length (Spec.bins_in_range df T start) = T.
Proof.
  intros H. unfold Spec.bins_in_range. rewrite length_firstn, length_skipn. lia.
Qed.

(** In range, the candidate is made of the rows [start], ...,
    [start + T - 1] of the value array, and its labels are the entries
    of the label array at those positions. *)
Lemma candidate_nth df T start :
  (start + T <= length (rows df))%nat ->
  Spec.candidate df T start = map (fun i => nth i (values df) []) (seq start T).
Proof.
  intros H. rewrite <- slice_candidate. apply slice_nth. rewrite values_length. exact H.
Qed.

Lemma labels_in_range_nth df T start :
  (start + T <= length (rows df))%nat ->
  Spec.labels_in_range df T start = map (fun i => nth i (labels_of df) 0%Z) (seq start T).
Proof.
  intros H. rewrite <- slice_labels. apply slice_nth. rewrite labels_of_length. exact H.
Qed.

(** The loop, run from any accumulators, over offsets that fit. *)
Lemma extract_loop_run df T r (starts : list nat) (ws : list Window) (ls : list Z) :
  (0 < T)%nat ->
  Forall (fun start => (start + T <= length (rows df))%nat) starts ->
  let keep := fun start => Qle_bool r (Spec.validity_ratio T (Spec.candidate df T start)) in
  exists ls',
    extract_loop (values df) (labels_of df) T r starts ws ls
    = Ok (ws ++ map (Spec.candidate df T) (List.filter keep starts), ls ++ ls') /\
    Forall2 (fun start l => Spec.is_max l (Spec.labels_in_range df T start))
            (List.filter keep starts) ls'.
Proof.
  intros HT Hfit keep. revert ws ls.
  induction starts as [| start starts IH]; intros ws ls.
  - exists []. simpl. rewrite !app_nil_r. split; [reflexivity | constructor].
  - inversion Hfit as [| ? ? Hstart Hrest]; subst.
    simpl extract_loop.
    rewrite (slice_candidate df T start), (slice_labels df T start).
    destruct (np_max_is_max (Spec.labels_in_range df T start)) as (lab & -> & Hmax).
    { intros Hnil. apply (f_equal (@length Z)) in Hnil.
      unfold Spec.labels_in_range in Hnil.
      rewrite length_map, (bins_in_range_length df T start Hstart) in Hnil.
      simpl in Hnil. lia. }
    simpl rbind. rewrite count_valid_present.
    change (Qle_bool r _) with (keep start).
    change (List.filter keep (start :: starts))
      with (if keep start then start :: List.filter keep starts
            else List.filter keep starts).
    destruct (keep start).
    + destruct (IH Hrest (ws ++ [Spec.candidate df T start]) (ls ++ [lab]))
        as (ls' & Hrun & Hall).
      exists (lab :: ls'). rewrite Hrun. simpl. rewrite <- !app_assoc. simpl.
      split; [reflexivity | constructor; assumption].
    + destruct (IH Hrest ws ls) as (ls' & Hrun & Hall).
      exists ls'. rewrite Hrun. split; [reflexivity | assumption].
Qed.

Lemma range_offsets df T :
  range (Z.of_nat (length (values df)) - Z.of_nat T + 1)
  = seq 0 (length (rows df) + 1 - T).
Proof. unfold range. rewrite values_length. f_equal. lia. Qed.

Lemma offsets_fit (n T : nat) :
  (0 < T)%nat -> Forall (fun start => (start + T <= n)%nat) (seq 0 (n + 1 - T)).
Proof.
  intros HT. apply Forall_forall. intros start Hin.
  apply list_elem_of_In, in_seq in Hin. lia.
Qed.

(** C5: on a series of n bins the windower answers without error;
    it keeps, in order, the candidate window (the four channel cells of
    the bins start, ..., start + T - 1) of every start offset
    0 <= start <= n - T whose validity ratio (non-missing cells over
    T x F) is at least min_valid_ratio, and no other; the label that
    goes with a kept window is the maximum bin label in its range; and
    when n < T it yields no window. *)
Theorem extract_windows_spec df T r :
  (0 < T)%nat ->
  exists windows win_labels,
    extract_windows df T r = Ok (windows, win_labels) /\
    windows = map (Spec.candidate df T) (Spec.kept_starts df T r) /\
    Forall2 (fun start l => Spec.is_max l (Spec.labels_in_range df T start))
            (Spec.kept_starts df T r) win_labels /\
    (forall start,
       In start (Spec.kept_starts df T r) <->
       (start + T <= length (rows df))%nat /\
       r <= Spec.validity_ratio T (Spec.candidate df T start)) /\
    ((length (rows df) < T)%nat -> windows = [] /\ win_labels = []).
Proof.
  intros HT. unfold extract_windows. rewrite range_offsets.
  destruct (extract_loop_run df T r (seq 0 (length (rows df) + 1 - T)) [] [] HT
              (offsets_fit _ _ HT)) as (ls' & Hrun & Hall).
  simpl in Hrun. fold (Spec.kept_starts df T r) in Hrun, Hall.
  exists (map (Spec.candidate df T) (Spec.kept_starts df T r)), ls'.
  split; [exact Hrun |]. split; [reflexivity |]. split; [exact Hall |]. split.
  - intros start. unfold Spec.kept_starts. rewrite filter_In, in_seq, Qle_bool_iff.
    intuition lia.
  - intros Hn. unfold Spec.kept_starts in *.
    replace (length (rows df) + 1 - T)%nat with 0%nat in * by lia.
    simpl in *. inversion Hall. split; reflexivity.
Qed.

Lemma extract_windows_spec_witness :
  let df := Samples.gappy_frame in
  let cells_of t := [t; Some 1; Some 1500; Some 60] in
  (0 < 2)%nat /\
  extract_windows df 2 0.8
  = Ok ([[cells_of None; cells_of (Some 25)]; [cells_of (Some 25); cells_of (Some 31)]],
        [1%Z; 2%Z]) /\
  exists windows win_labels,
    extract_windows df 2 0.8 = Ok (windows, win_labels) /\
    windows = map (Spec.candidate df 2) (Spec.kept_starts df 2 0.8) /\
    Forall2 (fun start l => Spec.is_max l (Spec.labels_in_range df 2 start))
            (Spec.kept_starts df 2 0.8) win_labels /\
    (forall start,
       In start (Spec.kept_starts df 2 0.8) <->
       (start + 2 <= length (rows df))%nat /\
       0.8 <= Spec.validity_ratio 2 (Spec.candidate df 2 start)) /\
    ((length (rows df) < 2)%nat -> windows = [] /\ win_labels = []).
Proof.
  intros df cells_of.
  assert (HT : (0 < 2)%nat) by lia.
  split; [exact HT |]. split; [reflexivity |].
  exact (extract_windows_spec df 2 0.8 HT).
Defined.

Lemma filter_sublist_mono {A} (f1 f2 : A -> bool) (l : list A) :
  (forall x, f2 x = true -> f1 x = true) ->
  sublist (List.filter f2 l) (List.filter f1 l).
Proof.
  intros Himp. induction l as [| x l IH]; simpl; [constructor |].
  destruct (f2 x) eqn:H2.
  - rewrite (Himp x H2). constructor. exact IH.
  - destruct (f1 x); [constructor |]; exact IH.
Qed.

Lemma map_sublist {A B} (f : A -> B) (l1 l2 : list A) :
  sublist l1 l2 -> sublist (map f l1) (map f l2).
Proof. induction 1; simpl; constructor; assumption. Qed.

Lemma kept_starts_antitone df T r1 r2 :
  r1 <= r2 -> sublist (Spec.kept_starts df T r2) (Spec.kept_starts df T r1).
Proof.
  intros Hle. apply filter_sublist_mono. intros start H2.
  apply Qle_bool_iff. apply Qle_bool_iff in H2. lra.
Qed.

(** C6: for one series and one window length, the windows kept at a
    threshold r2 are, in order, among those kept at any lower threshold
    r1 <= r2; so lowering min_valid_ratio (say from 0.8 to 0.5) never
    lowers the number of windows kept. *)
Theorem extract_windows_antitone df T r1 r2 :
  (0 < T)%nat -> r1 <= r2 ->
  exists ws1 ls1 ws2 ls2,
    extract_windows df T r1 = Ok (ws1, ls1) /\
    extract_windows df T r2 = Ok (ws2, ls2) /\
    sublist ws2 ws1 /\
    (forall w, In w ws2 -> In w ws1) /\
    (length ws2 <= length ws1)%nat.
Proof.
  intros HT Hle. unfold extract_windows. rewrite range_offsets.
  destruct (extract_loop_run df T r1 _ [] [] HT (offsets_fit (length (rows df)) T HT))
    as (ls1 & Hrun1 & _).
  destruct (extract_loop_run df T r2 _ [] [] HT (offsets_fit (length (rows df)) T HT))
    as (ls2 & Hrun2 & _).
  simpl in Hrun1, Hrun2.
  fold (Spec.kept_starts df T r1) in Hrun1. fold (Spec.kept_starts df T r2) in Hrun2.
  assert (Hsub : sublist (map (Spec.candidate df T) (Spec.kept_starts df T r2))
                         (map (Spec.candidate df T) (Spec.kept_starts df T r1))).
  { apply map_sublist, kept_starts_antitone, Hle. }
  eexists _, ls1, _, ls2.
  split; [exact Hrun1 |]. split; [exact Hrun2 |]. split; [exact Hsub |]. split.
  - intros w Hin. apply list_elem_of_In. apply list_elem_of_In in Hin.
    eapply sublist_subseteq; eassumption.
  - apply sublist_length, Hsub.
Qed.

Lemma extract_windows_antitone_witness :
  (0 < 2)%nat /\ 0.5 <= 0.8 /\
  exists ws1 ls1 ws2 ls2,
    extract_windows Samples.short_frame 2 0.5 = Ok (ws1, ls1) /\
    extract_windows Samples.short_frame 2 0.8 = Ok (ws2, ls2) /\
    sublist ws2 ws1 /\
    (forall w, In w ws2 -> In w ws1) /\
    (length ws2 <= length ws1)%nat.
Proof.
  assert (HT : (0 < 2)%nat) by lia.
  assert (Hle : 0.5 <= 0.8) by (vm_compute; discriminate).
  split; [exact HT |]. split; [exact Hle |].
  exact (extract_windows_antitone Samples.short_frame 2 0.5 0.8 HT Hle).
Defined.

End WindowerFacts.

(* ================================================================== *)
(** * The aggregator                                                   *)
(* ================================================================== *)

Section AggregatorFacts.
Import Np Sklearn Preprocess.
Local Open Scope Q_scope.

Lemma observed_populated (w : list (option Q)) : observed w = Spec.populated w.
Proof.
  induction w as [| [x |] w IH]; [reflexivity | |]; simpl; rewrite <- IH; reflexivity.
Qed.

Lemma slice_trailing (T : nat) (col : list (option Q)) (i : nat) :
  (i < length col)%nat ->
  slice (i + 1 - T) (i + 1) col = Spec.trailing T col i.
Proof.
  intros Hi. unfold slice, Spec.trailing.
  replace (i + 1 - (i + 1 - T))%nat with (Nat.min (i + 1) T) by lia.
  apply firstn_skipn_nth. lia.
Qed.

Lemma nth_map_seq {A} (f : nat -> A) (n i : nat) (d : A) :
  (i < n)%nat -> nth i (map f (seq 0 n)) d = f i.
Proof.
  intros Hi. rewrite (nth_indep _ d (f 0%nat)) by (rewrite length_map, length_seq; exact Hi).
  rewrite map_nth, seq_nth by exact Hi. reflexivity.
Qed.

Lemma rolling_nth (T m : nat) stat (col : list (option Q)) (i : nat) :
  (i < length col)%nat ->
  nth i (rolling T m stat col) None = Spec.trailing_stat T m stat col i.
Proof.
  intros Hi. unfold rolling. rewrite nth_map_seq by exact Hi.
  simpl. rewrite (slice_trailing T col i Hi), observed_populated. reflexivity.
Qed.

Lemma rolling_length (T m : nat) stat (col : list (option Q)) :
  length (rolling T m stat col) = length col.
Proof. unfold rolling. rewrite length_map, length_seq. reflexivity. Qed.

Lemma assoc_map {A B} (g : A -> B) (k : string) (l : list (string * A)) :
  assoc k (map (fun '(name, v) => (name, g v)) l) = option_map g (assoc k l).
Proof.
  unfold assoc. induction l as [| [name v] l IH]; [reflexivity |].
  simpl. destruct (String.eqb name k); [reflexivity | exact IH].
Qed.

Lemma agg_columns_assoc sqrt df c suffix stat :
  In c AGG_FEATURES -> In (suffix, stat) (reducers sqrt) ->
  assoc (c +:+ suffix) (agg_columns sqrt df)
  = Some (rolling WINDOW_SIZE min_periods stat (column df c)).
Proof.
  intros Hc Hs. simpl in Hc, Hs.
  destruct Hc as [<- | [<- | [<- | [<- | []]]]];
    destruct Hs as [[= <- <-] | [[= <- <-] | [[= <- <-] | [[= <- <-] | [[= <- <-] | []]]]]];
    reflexivity.
Qed.

Lemma agg_columns_names sqrt df :
  map fst (agg_columns sqrt df) =
  ["temperature_mean"; "vibration_mean"; "rpm_mean"; "humidity_mean";
   "temperature_std"; "vibration_std"; "rpm_std"; "humidity_std";
   "temperature_min"; "vibration_min"; "rpm_min"; "humidity_min";
   "temperature_max"; "vibration_max"; "rpm_max"; "humidity_max";
   "temperature_median"; "vibration_median"; "rpm_median"; "humidity_median"].
Proof. reflexivity. Qed.

Lemma column_length df c : length (column df c) = length (rows df).
Proof. unfold column. apply length_map. Qed.

Lemma channel_column df name get :
  In (name, get) Spec.channels ->
  In name AGG_FEATURES /\ column df name = map get (rows df).
Proof.
  intros Hin. unfold Spec.channels in Hin. cbn [In] in Hin.
  destruct Hin as [[= <- <-] | [[= <- <-] | [[= <- <-] | [[= <- <-] | []]]]];
    (split; [| reflexivity]).
  - left; reflexivity.
  - right; left; reflexivity.
  - right; right; left; reflexivity.
  - right; right; right; left; reflexivity.
Qed.

Lemma mean_is_mean (xs : list Q) : xs <> [] -> Spec.is_mean (mean xs) xs.
Proof.
  intros Hne. unfold Spec.is_mean, mean. change (Qsum xs) with (Spec.total xs).
  field. destruct xs; [congruence |]. unfold Qeq. simpl. lia.
Qed.

Lemma Qmin_cases (a x : Q) : (Qmin a x = a \/ Qmin a x = x) /\ Qmin a x <= a /\ Qmin a x <= x.
Proof.
  split; [| split; [apply Q.le_min_l | apply Q.le_min_r]].
  unfold Qmin, GenericMinMax.gmin. destruct (Qcompare a x); auto.
Qed.

Lemma Qmax_cases (a x : Q) : (Qmax a x = a \/ Qmax a x = x) /\ a <= Qmax a x /\ x <= Qmax a x.
Proof.
  split; [| split; [apply Q.le_max_l | apply Q.le_max_r]].
  unfold Qmax, GenericMinMax.gmax. destruct (Qcompare a x); auto.
Qed.

Lemma fold_Qmin_least (l : list Q) (a : Q) : Spec.is_least (fold_left Qmin l a) (a :: l).
Proof.
  revert a. induction l as [| x l IH]; intros a.
  - split; [left; reflexivity |]. repeat constructor. apply Qle_refl.
  - simpl fold_left. destruct (IH (Qmin a x)) as [Hin Hall].
    destruct (Qmin_cases a x) as (Hmem & Hla & Hlx).
    inversion Hall as [| ? ? Hm Hl]; subst. split.
    + destruct Hin as [Heq | Hin]; [| right; right; exact Hin].
      rewrite <- Heq. destruct Hmem as [-> | ->]; [left | right; left]; reflexivity.
    + constructor; [eapply Qle_trans; eassumption |].
      constructor; [eapply Qle_trans; eassumption | exact Hl].
Qed.

Lemma fold_Qmax_greatest (l : list Q) (a : Q) :
  Spec.is_greatest (fold_left Qmax l a) (a :: l).
Proof.
  revert a. induction l as [| x l IH]; intros a.
  - split; [left; reflexivity |]. repeat constructor. apply Qle_refl.
  - simpl fold_left. destruct (IH (Qmax a x)) as [Hin Hall].
    destruct (Qmax_cases a x) as (Hmem & Hla & Hlx).
    inversion Hall as [| ? ? Hm Hl]; subst. split.
    + destruct Hin as [Heq | Hin]; [| right; right; exact Hin].
      rewrite <- Heq. destruct Hmem as [-> | ->]; [left | right; left]; reflexivity.
    + constructor; [eapply Qle_trans; eassumption |].
      constructor; [eapply Qle_trans; eassumption | exact Hl].
Qed.

Lemma insert_sorted_perm (x : Q) (l : list Q) : Permutation (insert_sorted x l) (x :: l).
Proof.
  induction l as [| y l IH]; simpl; [reflexivity |].
  destruct (Qle_bool x y); [reflexivity |].
  rewrite IH. apply perm_swap.
Qed.

Lemma insert_sorted_sorted (x : Q) (l : list Q) :
  StronglySorted Qle l -> StronglySorted Qle (insert_sorted x l).
Proof.
  induction 1 as [| y l Hsorted IH Hall]; simpl.
  - constructor; constructor.
  - destruct (Qle_bool x y) eqn:Hxy.
    + apply Qle_bool_iff in Hxy. constructor; [constructor; assumption |].
      constructor; [exact Hxy |].
      eapply Forall_impl; [exact Hall |]. intros z Hz. simpl in *.
      eapply Qle_trans; eassumption.
    + assert (Hyx : y <= x).
      { destruct (Qlt_le_dec y x) as [Hlt | Hle]; [apply Qlt_le_weak, Hlt |].
        apply Qle_bool_iff in Hle. congruence. }
      constructor; [exact IH |].
      eapply Permutation_Forall; [symmetry; apply insert_sorted_perm |].
      constructor; assumption.
Qed.

Lemma sort_perm (l : list Q) : Permutation (sort l) l.
Proof.
  induction l as [| x l IH]; simpl; [reflexivity |].
  rewrite insert_sorted_perm. apply perm_skip, IH.
Qed.

Lemma sort_sorted (l : list Q) : StronglySorted Qle (sort l).
Proof.
  induction l as [| x l IH]; simpl; [constructor | apply insert_sorted_sorted, IH].
Qed.

Lemma median_is_median (xs : list Q) : Spec.is_median (median xs) xs.
Proof.
  exists (sort xs). split; [apply sort_perm |]. split; [apply sort_sorted |].
  unfold median. cbv zeta. destruct (Nat.even (length (sort xs))); reflexivity.
Qed.

(** The five reducers on a window with at least two values. *)
Lemma reducers_spec sqrt (w : list Q) :
  (2 <= length w)%nat ->
  (exists m, stat_mean w = Some m /\ Spec.is_mean m w) /\
  (exists v, stat_std sqrt w = Some (sqrt v) /\ Spec.is_sample_variance v w) /\
  (exists lo, stat_min w = Some lo /\ Spec.is_least lo w) /\
  (exists hi, stat_max w = Some hi /\ Spec.is_greatest hi w) /\
  (exists med, stat_median w = Some med /\ Spec.is_median med w).
Proof.
  intros Hlen.
  assert (Hne : w <> []) by (intros ->; simpl in Hlen; lia).
  split; [| split; [| split; [| split]]].
  - eexists. split; [reflexivity | apply mean_is_mean, Hne].
  - unfold stat_std. destruct (Nat.leb_spec (length w) 1) as [Hle | _]; [lia |].
    eexists. split; [reflexivity |].
    exists (mean w). split; [apply mean_is_mean, Hne |].
    change (Qsum (map (fun x => (x - mean w) * (x - mean w)) w))
      with (Spec.total (map (fun x => (x - mean w) * (x - mean w)) w)).
    field. unfold Qeq. simpl. lia.
  - destruct w as [| x w]; [congruence |]. eexists. split; [reflexivity |].
    apply fold_Qmin_least.
  - destruct w as [| x w]; [congruence |]. eexists. split; [reflexivity |].
    apply fold_Qmax_greatest.
  - destruct w as [| x w]; [congruence |]. eexists. split; [reflexivity |].
    apply median_is_median.
Qed.

(** The cell of a statistic column in row [i] of the table. *)
Lemma stats_cell sqrt df name get suffix stat i :
  In (name, get) Spec.channels -> In (suffix, stat) (reducers sqrt) ->
  (i < length (rows df))%nat ->
  assoc (name +:+ suffix)
        (map (fun '(col_name, col) => (col_name, nth i col None)) (agg_columns sqrt df))
  = Some (Spec.trailing_stat 60 30 stat (map get (rows df)) i).
Proof.
  intros Hc Hs Hi. destruct (channel_column df name get Hc) as [Hname Hcol].
  rewrite (assoc_map (fun col => nth i col None)),
    (agg_columns_assoc _ _ _ _ _ Hname Hs).
  simpl. f_equal. rewrite Hcol. apply rolling_nth. rewrite length_map. exact Hi.
Qed.

(** C7: on a resampled series (which has at least one bin) the
    aggregator returns one row per bin, none dropped.  Row i has the
    twenty columns {channel}_{mean, std, min, max, median}.  For each
    channel, when fewer than 30 bins of the trailing 60-bin window that
    ends at bin i are populated, its five statistics are missing;
    otherwise the _mean column holds the mean of the populated values of
    that window, _std the square root of their sample variance, _min the
    least, _max the greatest and _median the median of them.  The row
    carries the label of bin i itself and the device_id and device_type
    of the series. *)
Theorem aggregate_features_rows sqrt df :
  rows df <> [] ->
  exists agg,
    aggregate_features sqrt df = Ok agg /\
    length agg = length (rows df) /\
    forall i b, rows df !! i = Some b ->
      exists row,
        agg !! i = Some row /\
        map fst (stats row) = Spec.statistic_columns /\
        (forall name get, In (name, get) Spec.channels ->
           let w := Spec.populated (Spec.trailing 60 (map get (rows df)) i) in
           ((length w < 30)%nat ->
            assoc (name +:+ "_mean") (stats row) = Some None /\
            assoc (name +:+ "_std") (stats row) = Some None /\
            assoc (name +:+ "_min") (stats row) = Some None /\
            assoc (name +:+ "_max") (stats row) = Some None /\
            assoc (name +:+ "_median") (stats row) = Some None) /\
           ((30 <= length w)%nat ->
            exists m v lo hi med,
              assoc (name +:+ "_mean") (stats row) = Some (Some m) /\
              Spec.is_mean m w /\
              assoc (name +:+ "_std") (stats row) = Some (Some (sqrt v)) /\
              Spec.is_sample_variance v w /\
              assoc (name +:+ "_min") (stats row) = Some (Some lo) /\
              Spec.is_least lo w /\
              assoc (name +:+ "_max") (stats row) = Some (Some hi) /\
              Spec.is_greatest hi w /\
              assoc (name +:+ "_median") (stats row) = Some (Some med) /\
              Spec.is_median med w)) /\
        agg_label row = Spec.bin_label df b /\
        (exists b0, head (rows df) = Some b0 /\
                    agg_device_id row = device_id b0 /\
                    agg_device_type row = device_type b0).
Proof.
  intros Hne. unfold aggregate_features.
  destruct (rows df) as [| b0 bs] eqn:Hrows; [congruence |].
  rewrite <- Hrows. eexists. split; [reflexivity |].
  split; [rewrite length_map, length_seq; reflexivity |].
  intros i b Hi.
  assert (Hlt : (i < length (rows df))%nat) by (eapply lookup_lt_Some; exact Hi).
  eexists. split.
  { rewrite list_lookup_fmap, lookup_seq_lt by exact Hlt. reflexivity. }
  cbn [stats agg_label agg_device_id agg_device_type].
  split; [| split; [| split]].
  - rewrite map_map.
    rewrite (map_ext _ fst) by (intros [col_name col]; reflexivity).
    apply agg_columns_names.
  - intros name get Hc.
    set (w := Spec.populated (Spec.trailing 60 (map get (rows df)) i)).
    pose proof (fun suffix stat Hs => stats_cell sqrt df name get suffix stat i Hc Hs Hlt)
      as Hcell.
    pose proof (Hcell "_mean" stat_mean (or_introl eq_refl)) as Hmean.
    pose proof (Hcell "_std" (stat_std sqrt) (or_intror (or_introl eq_refl))) as Hstd.
    pose proof (Hcell "_min" stat_min (or_intror (or_intror (or_introl eq_refl)))) as Hmin.
    pose proof (Hcell "_max" stat_max
                  (or_intror (or_intror (or_intror (or_introl eq_refl))))) as Hmax.
    pose proof (Hcell "_median" stat_median
                  (or_intror (or_intror (or_intror (or_intror (or_introl eq_refl))))))
      as Hmed.
    clear Hcell. unfold Spec.trailing_stat in *. fold w in Hmean, Hstd, Hmin, Hmax, Hmed.
    split.
    + intros Hfew. apply Nat.ltb_lt in Hfew.
      rewrite Hfew in Hmean, Hstd, Hmin, Hmax, Hmed.
      split; [exact Hmean |]. split; [exact Hstd |]. split; [exact Hmin |].
      split; [exact Hmax | exact Hmed].
    + intros Hmany.
      assert (Hge : (length w <? 30)%nat = false) by (apply Nat.ltb_ge; exact Hmany).
      rewrite Hge in Hmean, Hstd, Hmin, Hmax, Hmed.
      destruct (reducers_spec sqrt w ltac:(lia))
        as ((m & Hm & Hm') & (v & Hv & Hv') & (lo & Hlo & Hlo') & (hi & Hhi & Hhi')
            & (med & Hmd & Hmd')).
      rewrite Hm in Hmean. rewrite Hv in Hstd. rewrite Hlo in Hmin.
      rewrite Hhi in Hmax. rewrite Hmd in Hmed.
      exists m, v, lo, hi, med.
      split; [exact Hmean |]. split; [exact Hm' |]. split; [exact Hstd |].
      split; [exact Hv' |]. split; [exact Hmin |]. split; [exact Hlo' |].
      split; [exact Hmax |]. split; [exact Hhi' |]. split; [exact Hmed | exact Hmd'].
  - unfold labels_of, Spec.bin_label. destruct (label_column df).
    + rewrite (nth_lookup_Some _ i 0%Z (label b)); [reflexivity |].
      rewrite list_lookup_fmap, Hi. reflexivity.
    + rewrite (nth_lookup_Some _ i 0%Z 0%Z); [reflexivity |].
      rewrite list_lookup_fmap, Hi. reflexivity.
  - exists b0. rewrite Hrows. repeat split; reflexivity.
Qed.

Lemma aggregate_features_rows_witness :
  let df := Samples.ramp_frame in
  let sqrt : Q -> Q := fun x => x in
  rows df <> [] /\
  (exists agg row,
     aggregate_features sqrt df = Ok agg /\ agg !! 39%nat = Some row /\
     assoc "temperature_mean" (stats row) = Some (Some (780 # 40)) /\
     assoc "temperature_min" (stats row) = Some (Some 0) /\
     assoc "temperature_max" (stats row) = Some (Some 39) /\
     assoc "temperature_median" (stats row) = Some (Some ((19 + 20) / 2)) /\
     assoc "rpm_mean" (stats row) = Some (Some (60000 # 40)) /\
     agg_label row = 0%Z) /\
  exists agg,
    aggregate_features sqrt df = Ok agg /\
    length agg = length (rows df) /\
    forall i b, rows df !! i = Some b ->
      exists row,
        agg !! i = Some row /\
        map fst (stats row) = Spec.statistic_columns /\
        (forall name get, In (name, get) Spec.channels ->
           let w := Spec.populated (Spec.trailing 60 (map get (rows df)) i) in
           ((length w < 30)%nat ->
            assoc (name +:+ "_mean") (stats row) = Some None /\
            assoc (name +:+ "_std") (stats row) = Some None /\
            assoc (name +:+ "_min") (stats row) = Some None /\
            assoc (name +:+ "_max") (stats row) = Some None /\
            assoc (name +:+ "_median") (stats row) = Some None) /\
           ((30 <= length w)%nat ->
            exists m v lo hi med,
              assoc (name +:+ "_mean") (stats row) = Some (Some m) /\
              Spec.is_mean m w /\
              assoc (name +:+ "_std") (stats row) = Some (Some (sqrt v)) /\
              Spec.is_sample_variance v w /\
              assoc (name +:+ "_min") (stats row) = Some (Some lo) /\
              Spec.is_least lo w /\
              assoc (name +:+ "_max") (stats row) = Some (Some hi) /\
              Spec.is_greatest hi w /\
              assoc (name +:+ "_median") (stats row) = Some (Some med) /\
              Spec.is_median med w)) /\
        agg_label row = Spec.bin_label df b /\
        (exists b0, head (rows df) = Some b0 /\
                    agg_device_id row = device_id b0 /\
                    agg_device_type row = device_type b0).
Proof.
  intros df sqrt.
  assert (Hne : rows df <> []) by discriminate.
  split; [exact Hne |]. split.
  - exists (match aggregate_features sqrt df with Ok agg => agg | Raise _ => [] end).
    exists (match aggregate_features sqrt df with
            | Ok agg => nth 39 agg {| index := 0; stats := []; agg_device_id := "";
                                      agg_device_type := ""; agg_label := 0 |}
            | Raise _ => {| index := 0; stats := []; agg_device_id := "";
                            agg_device_type := ""; agg_label := 0 |}
            end).
    repeat split; vm_compute; reflexivity.
  - exact (aggregate_features_rows sqrt df Hne).
Defined.

End AggregatorFacts.

(* ================================================================== *)
(** * The normalizer, as main applies it                               *)
(* ================================================================== *)

Section NormalizerFacts.
Import Np Sklearn Preprocess.
Local Open Scope Q_scope.

Lemma numcols_length sqrt : length (numcols sqrt) = 20%nat.
Proof. reflexivity. Qed.

Lemma imputer_fit_features X imp :
  imputer_fit X = Ok imp -> length (statistics_ imp) = n_features X.
Proof.
  unfold imputer_fit. destruct (check_array X); simpl; [| discriminate].
  intros [= <-]. simpl. rewrite length_map, length_seq. reflexivity.
Qed.

Lemma check_array_ok {A} (row : list A) (X : list (list A)) :
  (0 < length row)%nat -> check_array (row :: X) = Ok tt.
Proof. destruct row; simpl; [lia | reflexivity]. Qed.

Lemma imputer_transform_refused imp X :
  X = [] \/ n_features X <> length (statistics_ imp) ->
  imputer_transform imp X = Raise ValueError.
Proof.
  unfold imputer_transform. destruct X as [| row X]; [reflexivity |].
  intros [H | H]; [discriminate H |].
  destruct (Nat.eqb_spec (n_features (row :: X)) (length (statistics_ imp)));
    [contradiction |].
  destruct row; reflexivity.
Qed.

(** An imputer fit on other than twenty features refuses the twenty
    statistic columns of the aggregate table. *)
Lemma transform_aggregates_refused sqrt imputer scaler agg_df :
  length (statistics_ imputer) <> 20%nat ->
  transform_aggregates sqrt imputer scaler agg_df = Raise ValueError.
Proof.
  intros Hlen. unfold transform_aggregates.
  rewrite imputer_transform_refused; [reflexivity |].
  destruct agg_df as [| r agg_df]; [left; reflexivity | right].
  change (n_features (map (select (numcols sqrt)) (r :: agg_df)))
    with (length (select (numcols sqrt) r)).
  unfold select. rewrite length_map, numcols_length. congruence.
Qed.

Lemma values_four_wide df : Spec.four_wide (values df).
Proof.
  unfold Spec.four_wide, values. apply Forall_forall. intros row Hin.
  apply list_elem_of_In, in_map_iff in Hin. destruct Hin as (b & <- & _). reflexivity.
Qed.

Lemma device_loop_four_wide sqrt frames acc acc' :
  Forall Spec.four_wide (concat_for_scaler acc) ->
  device_loop sqrt frames acc = Ok acc' ->
  Forall Spec.four_wide (concat_for_scaler acc').
Proof.
  revert acc. induction frames as [| df frames IH]; intros acc Hacc Hrun.
  - injection Hrun as <-. exact Hacc.
  - simpl in Hrun.
    destruct (extract_windows df WINDOW_SIZE MIN_VALID_RATIO) as [[ws ls] | e];
      [| discriminate Hrun].
    simpl in Hrun.
    destruct (aggregate_features sqrt df) as [agg | e]; [| discriminate Hrun].
    simpl in Hrun. apply IH in Hrun; [exact Hrun |].
    simpl. apply Forall_app. split; [exact Hacc |].
    constructor; [apply values_four_wide | constructor].
Qed.

Lemma concat_four_wide (Xs : list (list (list (option Q)))) :
  Forall Spec.four_wide Xs -> Spec.four_wide (concat Xs).
Proof.
  unfold Spec.four_wide. induction 1 as [| X Xs HX _ IH]; simpl; [constructor |].
  apply Forall_app. split; assumption.
Qed.

Lemma four_wide_features X : Spec.four_wide X -> n_features X <> 20%nat.
Proof.
  destruct X as [| row X]; simpl; [discriminate |].
  intros H. inversion H as [| ? ? Hrow _]; subst. rewrite Hrow. discriminate.
Qed.

(** Whatever the frames, [main] does not reach its end, and the
    aggregate table is not written. *)
Lemma main_never_writes_aggregates sqrt frames dir :
  exists dir' e,
    main sqrt frames dir = (dir', Raise e) /\
    aggregates_csv dir' = aggregates_csv dir.
Proof.
  unfold main, Py.bind, Py.lift, Py.raise.
  destruct (device_loop sqrt frames _) as [acc | e] eqn:Hloop; [| eauto].
  destruct (concat_for_scaler acc) as [| X Xs] eqn:Hc; [eauto |].
  rewrite <- Hc.
  destruct (imputer_fit _) as [imputer | e] eqn:Hfit; [| eauto].
  destruct (imputer_transform imputer _) as [concat_imp | e]; [| eauto].
  destruct (scaler_fit concat_imp) as [scaler | e]; [| eauto].
  unfold save_fit.
  destruct (transform_windows imputer scaler _) as [windows_scaled | e]; [| eauto].
  unfold save_windows.
  rewrite transform_aggregates_refused.
  - eexists _, _. split; reflexivity.
  - rewrite (imputer_fit_features _ _ Hfit). apply four_wide_features, concat_four_wide.
    eapply device_loop_four_wide; [| exact Hloop]. constructor.
Qed.

Lemma impute_row_length stats r :
  Forall is_Some stats -> length r = length stats ->
  length (impute_row stats r) = length stats.
Proof.
  intros Hall. revert r. induction Hall as [| s stats [v ->] _ IH]; intros r Hr.
  - destruct r; reflexivity.
  - destruct r as [| x r]; [discriminate Hr |]. simpl. f_equal. apply IH.
    simpl in Hr. lia.
Qed.

Lemma scale_row_length center scale r :
  length center = length r -> length scale = length r ->
  length (scale_row center scale r) = length r.
Proof.
  revert center scale. induction r as [| x r IH]; intros center scale Hc Hs.
  - destruct center, scale; reflexivity.
  - destruct center as [| c center]; [discriminate Hc |].
    destruct scale as [| s scale]; [discriminate Hs |].
    simpl. f_equal. apply IH; simpl in *; lia.
Qed.

Lemma chunks_length {A} (k n : nat) (l : list A) : length (chunks k n l) = n.
Proof. revert l. induction n as [| n IH]; intros l; simpl; [| rewrite IH]; reflexivity. Qed.

Lemma chunks_shape {A} (P : A -> Prop) (k n : nat) (l : list A) :
  length l = (n * k)%nat -> Forall P l ->
  Forall (fun w => length w = k /\ Forall P w) (chunks k n l).
Proof.
  revert l. induction n as [| n IH]; intros l Hlen Hall; simpl; [constructor |].
  constructor.
  - split; [rewrite length_firstn; lia |]. apply Forall_take. exact Hall.
  - apply IH; [rewrite length_skipn; lia | apply Forall_drop; exact Hall].
Qed.

Lemma concat_windows_rows (windows_arr : list Window) (T F : nat) :
  Forall (fun w => length w = T /\ Forall (fun row => length row = F) w) windows_arr ->
  length (concat windows_arr) = (length windows_arr * T)%nat /\
  Forall (fun row => length row = F) (concat windows_arr).
Proof.
  induction 1 as [| w ws [Hw Hrows] _ [IHlen IHrows]]; simpl; [split; constructor |].
  split; [rewrite length_app; lia | apply Forall_app; split; assumption].
Qed.

(** The window half of the transform: with a state fit on four
    channels, every window goes through imputation and scaling and
    comes back as [T x F]. *)
Lemma transform_windows_shape imputer scaler (windows_arr : list Window) :
  Forall is_Some (statistics_ imputer) ->
  length (statistics_ imputer) = 4%nat ->
  length (center_ scaler) = 4%nat -> length (scale_ scaler) = 4%nat ->
  windows_arr <> [] ->
  Forall (fun w => length w = 60%nat /\ Forall (fun row => length row = 4%nat) w)
         windows_arr ->
  exists out,
    transform_windows imputer scaler windows_arr = Ok out /\
    length out = length windows_arr /\
    Forall (fun w => length w = 60%nat /\ Forall (fun row => length row = 4%nat) w) out.
Proof.
  intros Hsome Hstats Hcenter Hscale Hne Hshape.
  destruct (concat_windows_rows windows_arr 60 4 Hshape) as [Hlen Hrows].
  unfold transform_windows, imputer_transform, scaler_transform.
  destruct (concat windows_arr) as [| row X] eqn:HX.
  { destruct windows_arr; [congruence | simpl in Hlen; lia]. }
  assert (Hrow : length row = 4%nat) by (inversion Hrows; assumption).
  rewrite check_array_ok by (rewrite Hrow; lia).
  cbn [rbind n_features]. rewrite Hrow, Hstats. cbn [Nat.eqb rbind].
  assert (Himp : Forall (fun r => length r = 4%nat)
                   (map (impute_row (statistics_ imputer)) (row :: X))).
  { apply Forall_forall. intros r Hin.
    apply list_elem_of_In, in_map_iff in Hin. destruct Hin as (r0 & <- & Hin).
    rewrite impute_row_length; [exact Hstats | exact Hsome |].
    rewrite Forall_forall in Hrows. rewrite Hstats. apply Hrows, list_elem_of_In, Hin. }
  cbn [map] in *.
  assert (Hrow1 : length (impute_row (statistics_ imputer) row) = 4%nat)
    by (inversion Himp; subst; assumption).
  rewrite check_array_ok by (rewrite Hrow1; lia).
  cbn [rbind n_features]. rewrite Hrow1, Hcenter. cbn [Nat.eqb rbind].
  set (Y := scale_row (center_ scaler) (scale_ scaler) (impute_row (statistics_ imputer) row)
            :: map (scale_row (center_ scaler) (scale_ scaler))
                 (map (impute_row (statistics_ imputer)) X)).
  assert (HY : Forall (fun r => length r = 4%nat) Y).
  { change Y with (map (scale_row (center_ scaler) (scale_ scaler))
                     (impute_row (statistics_ imputer) row
                      :: map (impute_row (statistics_ imputer)) X)).
    apply Forall_forall. intros r Hin.
    apply list_elem_of_In, in_map_iff in Hin. destruct Hin as (r0 & <- & Hin).
    rewrite Forall_forall in Himp. apply list_elem_of_In, Himp in Hin.
    rewrite scale_row_length; congruence. }
  assert (HYlen : length Y = (length windows_arr * 60)%nat).
  { unfold Y. simpl. rewrite !length_map. simpl in Hlen. exact Hlen. }
  unfold reshape3.
  replace (forallb (fun r => (length r =? length AGG_FEATURES)%nat) Y) with true.
  2:{ symmetry. apply forallb_forall. intros r Hin. apply Nat.eqb_eq.
      rewrite Forall_forall in HY. apply HY, list_elem_of_In, Hin. }
  rewrite HYlen, Nat.eqb_refl. cbn [andb].
  eexists. split; [reflexivity |]. split; [apply chunks_length |].
  apply chunks_shape; assumption.
Qed.

(** C8, failing run: one device with sixty complete bins.  The
    imputer and the scaler are fit and saved, the single window is
    imputed, scaled, reshaped and saved; the transform of the aggregate
    table, whose twenty statistic columns meet an imputer fit on four
    features, raises, and no aggregate table is written. *)
Theorem main_aggregate_transform_fails :
  let run := main (fun x => x) [Samples.hour_frame] empty_dir in
  snd run = Raise ValueError /\
  option_map length (windows_npy (fst run)) = Some 1%nat /\
  option_map (map length) (windows_npy (fst run)) = Some [60%nat] /\
  labels_npy (fst run) = Some [0%Z] /\
  aggregates_csv (fst run) = None /\
  (exists imputer scaler agg_df,
     imputer_joblib (fst run) = Some imputer /\
     scaler_joblib (fst run) = Some scaler /\
     length (statistics_ imputer) = 4%nat /\
     aggregate_features (fun x => x) Samples.hour_frame = Ok agg_df /\
     length agg_df = 60%nat /\
     transform_aggregates (fun x => x) imputer scaler agg_df = Raise ValueError).
Proof.
  intros run.
  split; [vm_compute; reflexivity |].
  split; [vm_compute; reflexivity |].
  split; [vm_compute; reflexivity |].
  split; [vm_compute; reflexivity |].
  split; [vm_compute; reflexivity |].
  exists (match imputer_fit (values Samples.hour_frame) with
          | Ok imputer => imputer
          | Raise _ => {| statistics_ := [] |}
          end).
  exists (match scaler_joblib (fst run) with
          | Some scaler => scaler
          | None => {| center_ := []; scale_ := [] |}
          end).
  exists (match aggregate_features (fun x => x) Samples.hour_frame with
          | Ok agg_df => agg_df
          | Raise _ => []
          end).
  split; [vm_compute; reflexivity |].
  split; [vm_compute; reflexivity |].
  split; [vm_compute; reflexivity |].
  split; [vm_compute; reflexivity |].
  split; [vm_compute; reflexivity |].
  apply transform_aggregates_refused. vm_compute. discriminate.
Qed.

End NormalizerFacts.

(* ================================================================== *)
(** * More on the model handles                                        *)
(* ================================================================== *)

Section HandleFacts.
Import Np Sklearn Fusion Predict.
Local Open Scope Q_scope.

Ltac some_disjunct tac :=
  first [ solve [tac] | left; solve [tac] | right; some_disjunct tac ].

(** The two ways [load_all] can end. *)
Lemma load_all_cases env g :
  match load_all env g with
  | (g', r) =>
      Vocabulary.cache_kept g g' /\
      ((Vocabulary.artifact_unavailable env g /\
        r = Ok (None, None, _rf g', _imputer g', _scaler g'))
       \/ (~ Vocabulary.artifact_unavailable env g /\
           Vocabulary.fully_loaded g' /\ r = Ok (Vocabulary.handles_of g')))
  end.
Proof.
  destruct g as [gl ga gr gi gs], env as [fl fa fr fi fs ex].
  unfold load_all, try_except, Py.bind, load_if_none, Py.get, Py.put, Py.lift, Py.ret,
    Vocabulary.artifact_unavailable, Vocabulary.cache_kept, Spec.load_fails,
    Vocabulary.fully_loaded, Vocabulary.handles_of; simpl.
  destruct gl, fl, ga, fa, gr, fr, gi, fi, gs, fs; simpl;
    (split; [repeat split; intros; congruence |]);
    first
      [ left; split; [| reflexivity];
        some_disjunct ltac:(split; [reflexivity | eexists; reflexivity])
      | right; split; [| split; [eauto 10 | reflexivity]];
        intros H; repeat (destruct H as [[? [? ?]] | H]; [congruence |]);
        destruct H as [? [? ?]]; congruence ].
Qed.

Lemma load_all_cached env g :
  Vocabulary.fully_loaded g -> load_all env g = (g, Ok (Vocabulary.handles_of g)).
Proof.
  destruct g as [gl ga gr gi gs]. unfold Vocabulary.fully_loaded. simpl.
  intros ([l ->] & [a ->] & [r ->] & [i ->] & [s ->]). reflexivity.
Qed.

(** Once [load_all] has handed out a sequence model, all five handles
    are cached, and every later call returns the same handles and the
    same store without loading anything, whatever is on disk by then. *)
Theorem load_all_loads_once env g g' l a r i s :
  load_all env g = (g', Ok (Some l, a, r, i, s)) ->
  Vocabulary.fully_loaded g' /\
  forall env', load_all env' g' = (g', Ok (Some l, a, r, i, s)).
Proof.
  intros Hrun. pose proof (load_all_cases env g) as H. rewrite Hrun in H.
  cbv beta iota in H.
  destruct H as [_ [[_ Hfail] | (_ & Hfull & Hok)]]; [discriminate Hfail |].
  split; [exact Hfull |]. intros env'.
  rewrite (load_all_cached env' g' Hfull), <- Hok. reflexivity.
Qed.

Lemma load_all_loads_once_witness :
  let env := Samples.constant_env 0.9 0.8 in
  let run := load_all env initial in
  let l : SeqModel := fun _ => Ok 0.9 in
  let a : AeModel := fun w => Ok w in
  let r : RfModel := fun _ => Ok 0.8 in
  let i := {| statistics_ := [Some 0; Some 0; Some 0; Some 0] |} in
  let s := {| center_ := [0; 0; 0; 0]; scale_ := [1; 1; 1; 1] |} in
  run = (fst run, Ok (Some l, Some a, Some r, Some i, Some s)) /\
  (Vocabulary.fully_loaded (fst run) /\
   forall env', load_all env' (fst run)
                = (fst run, Ok (Some l, Some a, Some r, Some i, Some s))).
Proof.
  intros env run l a r i s.
  assert (Hrun : run = (fst run, Ok (Some l, Some a, Some r, Some i, Some s)))
    by reflexivity.
  split; [exact Hrun |].
  exact (load_all_loads_once env initial _ _ _ _ _ _ Hrun).
Defined.

(** [load_all] never raises and never forgets: whatever was cached
    before the call is cached, unchanged, after it, also when a load
    failed half-way. *)
Theorem load_all_keeps_cache env g :
  exists g' h, load_all env g = (g', Ok h) /\ Vocabulary.cache_kept g g'.
Proof.
  pose proof (load_all_cases env g) as H.
  destruct (load_all env g) as [g' r].
  destruct H as [Hkept [[_ ->] | (_ & _ & ->)]]; eauto.
Qed.

(** A missing artifact of any kind, the imputer and the scaler
    included although the scorer never applies them, makes the scorer
    stop with an AttributeError at its first step; the service wrapper
    answers a well-formed window with the default response for that
    error. *)
Theorem any_missing_artifact_stops_fusion env g window agg_row :
  Vocabulary.artifact_unavailable env g ->
  (exists g', predict_fusion env window agg_row g = (g', Raise AttributeError)) /\
  (forall window_data,
     adapt_window window_data = Ok window ->
     exists g', predict_from_window_and_agg (imported env) window_data agg_row g
                = (g', Ok (error_response AttributeError))).
Proof.
  intros Hun.
  assert (Hf : exists g', predict_fusion env window agg_row g = (g', Raise AttributeError)).
  { pose proof (load_all_cases env g) as H.
    destruct (load_all env g) as [g' r] eqn:Hload.
    destruct H as [_ [[_ ->] | (Hav & _)]]; [| contradiction].
    exists g'. unfold predict_fusion, lstm_predict_prob.
    apply bind_raise. rewrite (bind_ok _ _ _ _ _ Hload). reflexivity. }
  split; [exact Hf |].
  intros window_data Hw. destruct Hf as [g' Hf]. exists g'.
  apply (wrapper_fusion_raise _ _ _ _ _ _ _ Hw Hf).
Qed.

Lemma any_missing_artifact_stops_fusion_witness :
  Vocabulary.artifact_unavailable MoreSamples.no_scaler_env initial /\
  ((exists g', predict_fusion MoreSamples.no_scaler_env Samples.full_window
                 Samples.partial_agg initial = (g', Raise AttributeError)) /\
   (forall window_data,
      adapt_window window_data = Ok Samples.full_window ->
      exists g', predict_from_window_and_agg (imported MoreSamples.no_scaler_env)
                   window_data Samples.partial_agg initial
                 = (g', Ok (error_response AttributeError)))).
Proof.
  assert (Hun : Vocabulary.artifact_unavailable MoreSamples.no_scaler_env initial).
  { do 4 right. split; [reflexivity |]. eexists. reflexivity. }
  split; [exact Hun |].
  exact (any_missing_artifact_stops_fusion MoreSamples.no_scaler_env initial
           Samples.full_window Samples.partial_agg Hun).
Defined.

(** The tabular step never raises: it answers 0.5 when no classifier
    is cached after the load or when the classifier refuses the vector,
    and the classifier's own answer on the assembled vector otherwise. *)
Theorem rf_prob_failure_never_raises env (agg_row : AggRow) g :
  exists g',
    rf_prob_failure env agg_row g
    = (g', Ok (match _rf g' with
               | None => 0.5
               | Some rf =>
                   match rf (feature_vector agg_row) with
                   | Ok q => q
                   | Raise _ => 0.5
                   end
               end)).
Proof.
  pose proof (load_all_cases env g) as H. unfold rf_prob_failure.
  destruct (load_all env g) as [g' r] eqn:Hload. exists g'.
  destruct H as [_ [[_ ->] | (_ & _ & ->)]];
    rewrite (bind_ok _ _ _ _ _ Hload); unfold Vocabulary.handles_of;
    (destruct (_rf g') as [rf |]; [| reflexivity]);
    unfold try_except, Py.lift, Py.ret;
    destruct (rf (feature_vector agg_row)); reflexivity.
Qed.

End HandleFacts.

(* ================================================================== *)
(** * More on the fusion arithmetic                                    *)
(* ================================================================== *)

Section FusionArithmetic.
Import Np Sklearn Fusion Predict.
Local Open Scope Q_scope.

Lemma feature_names_nodup : NoDup feature_names.
Proof. apply (bool_decide_unpack _). vm_compute. exact I. Qed.

(** A key that is none of the twenty feature names does not reach the
    classifier, and writing a named feature into the mapping changes
    exactly its own position of the vector. *)
Theorem feature_vector_insert (agg_row : AggRow) (k : string) (v : Q) :
  (k ∉ feature_names ->
   feature_vector (<[k := v]> agg_row) = feature_vector agg_row) /\
  (forall i, feature_names !! i = Some k ->
             feature_vector (<[k := v]> agg_row) = <[i := v]> (feature_vector agg_row)).
Proof.
  split.
  - intros Hk. unfold feature_vector. apply map_ext_in. intros name Hin.
    rewrite lookup_insert_ne; [reflexivity |].
    intros ->. apply Hk, list_elem_of_In, Hin.
  - intros i Hi. apply list_eq. intros j.
    destruct (decide (j = i)) as [-> | Hne].
    + rewrite (feature_vector_lookup _ i k Hi), lookup_insert_eq.
      rewrite list_lookup_insert_eq; [reflexivity |].
      apply lookup_lt_Some in Hi. unfold feature_vector. rewrite length_map. exact Hi.
    + rewrite list_lookup_insert_ne by congruence.
      unfold feature_vector. rewrite !list_lookup_fmap.
      destruct (feature_names !! j) as [name |] eqn:Hj; [| reflexivity].
      simpl. rewrite lookup_insert_ne; [reflexivity |].
      intros <-. apply Hne. eapply NoDup_lookup; [apply feature_names_nodup | |]; eassumption.
Qed.

Lemma field_fuse sigmoid_exp p q s :
  Vocabulary.field "ae_scaled" (fuse sigmoid_exp p q s)
  = 1 / (1 + sigmoid_exp (- (s - 0.01) * 100)) /\
  Vocabulary.field "health_score" (fuse sigmoid_exp p q s) = 1.0 - q /\
  Vocabulary.field "fused_risk" (fuse sigmoid_exp p q s)
  = W_LSTM * p + W_RF * (1 - (1.0 - q))
    + W_AE * (1 / (1 + sigmoid_exp (- (s - 0.01) * 100))).
Proof. repeat split; reflexivity. Qed.

Lemma logistic_range (e : Q) : 0 < e -> 0 < 1 / (1 + e) /\ 1 / (1 + e) < 1.
Proof.
  intros He. split.
  - apply Qlt_shift_div_l; lra.
  - apply Qlt_shift_div_r; lra.
Qed.

Lemma logistic_antitone (e e' : Q) : 0 < e' -> e' <= e -> 1 / (1 + e) <= 1 / (1 + e').
Proof.
  intros He' Hle. apply Qle_shift_div_r; [lra |].
  assert (H1 : 1 / (1 + e') * (1 + e') == 1) by (field; lra).
  assert (H2 : 0 < 1 / (1 + e')) by (apply logistic_range; exact He').
  assert (H3 : 1 / (1 + e') * (1 + e') <= 1 / (1 + e') * (1 + e)).
  { apply Qmult_le_l; lra. }
  lra.
Qed.

Lemma logistic_unit (e : Q) : 0 <= e -> 0 <= 1 / (1 + e) <= 1.
Proof.
  intros He. split.
  - apply Qle_shift_div_l; lra.
  - apply Qle_shift_div_r; lra.
Qed.

(** With both probabilities in [0, 1] and an exponential that is never
    negative, every derived field of the response stays in [0, 1]: the
    scaled anomaly score, the health score and the fused risk. *)
Theorem fuse_in_range sigmoid_exp p q s :
  (forall x, 0 <= sigmoid_exp x) -> 0 <= p <= 1 -> 0 <= q <= 1 ->
  let resp := fuse sigmoid_exp p q s in
  0 <= Vocabulary.field "ae_scaled" resp <= 1 /\
  0 <= Vocabulary.field "health_score" resp <= 1 /\
  0 <= Vocabulary.field "fused_risk" resp <= 1.
Proof.
  intros Hexp [Hp0 Hp1] [Hq0 Hq1] resp. unfold resp.
  destruct (field_fuse sigmoid_exp p q s) as (-> & -> & ->).
  destruct (logistic_unit _ (Hexp (- (s - 0.01) * 100))) as [Ha0 Ha1].
  set (a := 1 / (1 + sigmoid_exp (- (s - 0.01) * 100))) in *.
  unfold W_LSTM, W_RF, W_AE. repeat split; lra.
Qed.

Lemma fuse_in_range_witness :
  let ex : Q -> Q := fun x => if Qlt_le_dec x 0 then 0 else 1 in
  (forall x, 0 <= ex x) /\ 0 <= 0.9 <= 1 /\ 0 <= 0.2 <= 1 /\
  Vocabulary.field "ae_scaled" (fuse ex 0.9 0.2 0.05) == 1 /\
  let resp := fuse ex 0.9 0.2 0.05 in
  0 <= Vocabulary.field "ae_scaled" resp <= 1 /\
  0 <= Vocabulary.field "health_score" resp <= 1 /\
  0 <= Vocabulary.field "fused_risk" resp <= 1.
Proof.
  intros ex.
  assert (Hex : forall x, 0 <= ex x).
  { intros x. unfold ex. destruct (Qlt_le_dec x 0); discriminate. }
  assert (Hp : 0 <= 0.9 <= 1) by (split; discriminate).
  assert (Hq : 0 <= 0.2 <= 1) by (split; discriminate).
  split; [exact Hex |]. split; [exact Hp |]. split; [exact Hq |].
  split; [reflexivity |].
  exact (fuse_in_range ex 0.9 0.2 0.05 Hex Hp Hq).
Defined.

(** With a positive, increasing exponential the fused risk is monotone
    in each of its three inputs: a higher sequence probability, tabular
    probability or reconstruction error never lowers it. *)
Theorem fuse_monotone sigmoid_exp p p' q q' s s' :
  (forall x, 0 < sigmoid_exp x) ->
  (forall x y, x <= y -> sigmoid_exp x <= sigmoid_exp y) ->
  p <= p' -> q <= q' -> s <= s' ->
  Vocabulary.field "fused_risk" (fuse sigmoid_exp p q s)
  <= Vocabulary.field "fused_risk" (fuse sigmoid_exp p' q' s').
Proof.
  intros Hpos Hmono Hp Hq Hs.
  destruct (field_fuse sigmoid_exp p q s) as (_ & _ & ->).
  destruct (field_fuse sigmoid_exp p' q' s') as (_ & _ & ->).
  assert (Ha : 1 / (1 + sigmoid_exp (- (s - 0.01) * 100))
               <= 1 / (1 + sigmoid_exp (- (s' - 0.01) * 100))).
  { apply logistic_antitone; [apply Hpos |]. apply Hmono. lra. }
  unfold W_LSTM, W_RF, W_AE. lra.
Qed.

Lemma fuse_monotone_witness :
  let ex : Q -> Q := fun _ => 1 in
  (forall x, 0 < ex x) /\ (forall x y, x <= y -> ex x <= ex y) /\
  0.1 <= 0.9 /\ 0.2 <= 0.3 /\ 0.01 <= 0.05 /\
  Vocabulary.field "fused_risk" (fuse ex 0.1 0.2 0.01)
  <= Vocabulary.field "fused_risk" (fuse ex 0.9 0.3 0.05).
Proof.
  intros ex.
  assert (Hex : forall x, 0 < ex x) by (intros x; reflexivity).
  assert (Hmono : forall x y, x <= y -> ex x <= ex y) by (intros x y _; discriminate).
  assert (Hp : 0.1 <= 0.9) by discriminate.
  assert (Hq : 0.2 <= 0.3) by discriminate.
  assert (Hs : 0.01 <= 0.05) by discriminate.
  split; [exact Hex |]. split; [exact Hmono |]. split; [exact Hp |].
  split; [exact Hq |]. split; [exact Hs |].
  exact (fuse_monotone ex 0.1 0.9 0.2 0.3 0.01 0.05 Hex Hmono Hp Hq Hs).
Defined.

End FusionArithmetic.

(* ================================================================== *)
(** * More on the scorer's steps                                       *)
(* ================================================================== *)

Section ScorerSteps.
Import Np Sklearn Fusion Predict.
Local Open Scope Q_scope.

Lemma Qsum_nonneg (xs : list Q) : Forall (fun x => 0 <= x) xs -> 0 <= Qsum xs.
Proof.
  induction 1 as [| x xs Hx _ IH]; simpl; [discriminate |]. lra.
Qed.

Lemma Qsum_zero (xs : list Q) : Forall (fun x => x == 0) xs -> Qsum xs == 0.
Proof.
  induction 1 as [| x xs Hx _ IH]; simpl; [reflexivity |]. lra.
Qed.

Lemma mean_nonneg (xs : list Q) : Forall (fun x => 0 <= x) xs -> 0 <= mean xs.
Proof.
  intros H. unfold mean, Qdiv. apply Qmult_le_0_compat; [apply Qsum_nonneg, H |].
  apply Qinv_le_0_compat. unfold Qle. simpl. lia.
Qed.

Lemma Qsquare_nonneg (a : Q) : 0 <= a * a.
Proof.
  destruct (Qlt_le_dec a 0) as [Hneg | Hpos].
  - assert (H : a * a == (- a) * (- a)) by ring. rewrite H.
    apply Qmult_le_0_compat; lra.
  - apply Qmult_le_0_compat; exact Hpos.
Qed.

Lemma squares_nonneg (l : list (Q * Q)) :
  Forall (fun x => 0 <= x) (map (fun '(x, y) => (x - y) * (x - y)) l).
Proof.
  apply Forall_forall. intros z Hin.
  apply list_elem_of_In, in_map_iff in Hin. destruct Hin as ([x y] & <- & _). apply Qsquare_nonneg.
Qed.

Lemma squares_self_zero (l : list Q) :
  Forall (fun x => x == 0) (map (fun '(x, y) => (x - y) * (x - y)) (combine l l)).
Proof.
  induction l as [| x l IH]; simpl; constructor; [ring | exact IH].
Qed.

Lemma mse_nonneg w recon s : mse w recon = Ok s -> 0 <= s.
Proof.
  unfold mse. destruct w as [| c rows]; [discriminate |].
  destruct recon as [| c' rows']; [discriminate |].
  destruct ((c =? c')%nat && (length rows =? length rows')%nat); [| discriminate].
  intros [= <-]. apply mean_nonneg, squares_nonneg.
Qed.

Lemma mse_self_zero w s : mse w w = Ok s -> s == 0.
Proof.
  unfold mse. destruct w as [| c rows]; [discriminate |].
  rewrite !Nat.eqb_refl. simpl. intros [= <-].
  unfold mean. rewrite (Qsum_zero _ (squares_self_zero (concat rows))).
  unfold Qdiv. ring.
Qed.

(** A step that asks [load_all] for a handle and finds it there runs
    on a store with every handle cached. *)
Lemma load_all_handed_out env g g' (h : Handles) :
  load_all env g = (g', Ok h) ->
  (is_Some (fst (fst (fst (fst h)))) \/ is_Some (snd (fst (fst (fst h))))) ->
  Vocabulary.fully_loaded g' /\ h = Vocabulary.handles_of g'.
Proof.
  intros Hload Hsome. pose proof (load_all_cases env g) as H. rewrite Hload in H.
  destruct H as [_ [[_ [= ->]] | (_ & Hfull & [= ->])]].
  - simpl in Hsome. destruct Hsome as [[? H] | [? H]]; discriminate H.
  - split; [exact Hfull | reflexivity].
Qed.

Lemma lstm_predict_prob_inv env window g g' p :
  lstm_predict_prob env window g = (g', Ok p) ->
  Vocabulary.fully_loaded g' /\ exists l, _lstm g' = Some l /\ l window = Ok p.
Proof.
  unfold lstm_predict_prob. intros Hrun.
  apply bind_ok_inv in Hrun as (h & g1 & Hload & Hrun).
  destruct h as [[[[model ae] rf] im] sc].
  destruct model as [m |]; [| discriminate Hrun].
  unfold Py.lift in Hrun. injection Hrun as <- Hm.
  destruct (load_all_handed_out env g g1 _ Hload) as [Hfull Hh].
  { left. eexists. reflexivity. }
  split; [exact Hfull |]. exists m. split; [| exact Hm].
  unfold Vocabulary.handles_of in Hh. congruence.
Qed.

Lemma ae_anomaly_score_inv env window g g' s :
  ae_anomaly_score env window g = (g', Ok s) ->
  Vocabulary.fully_loaded g' /\
  exists a recon, _ae g' = Some a /\ a window = Ok recon /\ mse window recon = Ok s.
Proof.
  unfold ae_anomaly_score. intros Hrun.
  apply bind_ok_inv in Hrun as (h & g1 & Hload & Hrun).
  destruct h as [[[[model ae] rf] im] sc].
  destruct ae as [m |]; [| discriminate Hrun].
  apply bind_ok_inv in Hrun as (recon & g2 & Hrecon & Hrun).
  unfold Py.lift in Hrecon, Hrun. injection Hrecon as <- Hrecon. injection Hrun as <- Hmse.
  destruct (load_all_handed_out env g g1 _ Hload) as [Hfull Hh].
  { right. eexists. reflexivity. }
  split; [exact Hfull |]. exists m, recon. split; [| split; assumption].
  unfold Vocabulary.handles_of in Hh. congruence.
Qed.

(** The anomaly score is a mean of squares.  For a window that has at
    least one cell (numpy's mean of no cell is nan), whenever the
    autoencoder step answers, its score is not negative, and it is zero
    when the autoencoder in use reproduces the window exactly. *)
Theorem ae_anomaly_score_nonneg env window g g' s :
  Vocabulary.cells window <> [] ->
  ae_anomaly_score env window g = (g', Ok s) ->
  0 <= s /\
  (forall a, _ae g' = Some a -> a window = Ok window -> s == 0).
Proof.
  intros _ Hrun.
  destruct (ae_anomaly_score_inv _ _ _ _ _ Hrun) as (_ & a & recon & Ha & Hrecon & Hmse).
  split; [eapply mse_nonneg; exact Hmse |].
  intros a' Ha' Hsame. rewrite Ha in Ha'. injection Ha' as <-.
  rewrite Hrecon in Hsame. injection Hsame as ->.
  apply (mse_self_zero window). exact Hmse.
Qed.

Lemma ae_anomaly_score_nonneg_witness :
  let env := Samples.constant_env 0.9 0.8 in
  let window := Arr2 4 [[1; 2; 3; 4]] in
  let run := ae_anomaly_score env window initial in
  Vocabulary.cells window <> [] /\
  run = (fst run, Ok (0 # 4)) /\
  (0 <= 0 # 4 /\
   (forall a, _ae (fst run) = Some a -> a window = Ok window -> 0 # 4 == 0)).
Proof.
  intros env window run.
  assert (Hcells : Vocabulary.cells window <> []) by discriminate.
  assert (Hrun : run = (fst run, Ok (0 # 4))) by reflexivity.
  split; [exact Hcells |]. split; [exact Hrun |].
  exact (ae_anomaly_score_nonneg env window initial _ _ Hcells Hrun).
Defined.

(** With every handle cached and the sequence model and autoencoder
    answering, the scorer returns the fused response and leaves the
    store as it was; a tabular model that is cached but refuses the
    vector does not stop it: its term is 0.5. *)
Theorem predict_fusion_when_loaded env g window (agg_row : AggRow) l a p recon score :
  Vocabulary.fully_loaded g ->
  _lstm g = Some l -> _ae g = Some a ->
  l window = Ok p -> a window = Ok recon -> mse window recon = Ok score ->
  predict_fusion env window agg_row g
  = (g, Ok (fuse (np_exp env) p
              (match _rf g with
               | Some rf => match rf (feature_vector agg_row) with
                            | Ok q => q
                            | Raise _ => 0.5
                            end
               | None => 0.5
               end) score)).
Proof.
  intros Hfull Hl Ha Hp Hrecon Hscore.
  pose proof (load_all_cached env g Hfull) as Hload.
  unfold Vocabulary.handles_of in Hload. rewrite Hl, Ha in Hload.
  unfold predict_fusion, lstm_predict_prob, rf_prob_failure, ae_anomaly_score.
  unfold Py.bind at 1. unfold Py.bind at 1. rewrite Hload. unfold Py.lift at 1. rewrite Hp.
  unfold Py.bind at 1. unfold Py.bind at 1. rewrite Hload.
  destruct (_rf g) as [rf |].
  - unfold try_except, Py.lift at 1.
    destruct (rf (feature_vector agg_row)) as [q | e]; unfold Py.ret at 1;
      unfold Py.bind at 1; unfold Py.bind at 1; rewrite Hload;
      unfold Py.bind, Py.lift; rewrite Hrecon, Hscore; reflexivity.
  - unfold Py.ret at 1. unfold Py.bind at 1. unfold Py.bind at 1. rewrite Hload.
    unfold Py.bind, Py.lift. rewrite Hrecon, Hscore. reflexivity.
Qed.

Lemma predict_fusion_when_loaded_witness :
  let g := MoreSamples.loaded_rf_broken in
  let l : SeqModel := fun _ => Ok 0.9 in
  let a : AeModel := fun w => Ok w in
  let window := Arr2 4 [[1; 2; 3; 4]] in
  Vocabulary.fully_loaded g /\ _lstm g = Some l /\ _ae g = Some a /\
  l window = Ok 0.9 /\ a window = Ok window /\ mse window window = Ok (0 # 4) /\
  predict_fusion Samples.no_rf_env window Samples.partial_agg g
  = (g, Ok (fuse (np_exp Samples.no_rf_env) 0.9
              (match _rf g with
               | Some rf => match rf (feature_vector Samples.partial_agg) with
                            | Ok q => q
                            | Raise _ => 0.5
                            end
               | None => 0.5
               end) (0 # 4))).
Proof.
  intros g l a window.
  assert (Hfull : Vocabulary.fully_loaded g).
  { unfold Vocabulary.fully_loaded. simpl. eauto 10. }
  split; [exact Hfull |]. do 5 (split; [reflexivity |]).
  exact (predict_fusion_when_loaded Samples.no_rf_env g window Samples.partial_agg
           l a 0.9 window (0 # 4) Hfull eq_refl eq_refl eq_refl eq_refl eq_refl).
Defined.

(** The sequence model and the autoencoder have no fallback: an
    exception of either one leaves the scorer as it is, and the service
    wrapper turns it into the default response that carries its text. *)
Theorem predictor_error_propagates env g window (agg_row : AggRow) l e :
  Vocabulary.fully_loaded g -> _lstm g = Some l ->
  (l window = Raise e ->
   predict_fusion env window agg_row g = (g, Raise e)) /\
  (forall p a, l window = Ok p -> _ae g = Some a -> a window = Raise e ->
               predict_fusion env window agg_row g = (g, Raise e)) /\
  (forall window_data,
     adapt_window window_data = Ok window ->
     predict_fusion env window agg_row g = (g, Raise e) ->
     predict_from_window_and_agg (imported env) window_data agg_row g
     = (g, Ok (error_response e)) /\
     error_response e !! "error" = Some (VStr (Py.str e))).
Proof.
  intros Hfull Hl.
  pose proof (load_all_cached env g Hfull) as Hload.
  unfold Vocabulary.handles_of in Hload. rewrite Hl in Hload.
  split; [| split].
  - intros He. unfold predict_fusion, lstm_predict_prob.
    unfold Py.bind at 1. unfold Py.bind at 1. rewrite Hload. unfold Py.lift. rewrite He.
    reflexivity.
  - intros p a Hp Ha He. rewrite Ha in Hload.
    unfold predict_fusion, lstm_predict_prob, rf_prob_failure, ae_anomaly_score.
    unfold Py.bind at 1. unfold Py.bind at 1. rewrite Hload. unfold Py.lift at 1. rewrite Hp.
    unfold Py.bind at 1. unfold Py.bind at 1. rewrite Hload.
    destruct (_rf g) as [rf |].
    + unfold try_except, Py.lift at 1.
      destruct (rf (feature_vector agg_row)) as [q | e']; unfold Py.ret at 1;
        unfold Py.bind at 1; unfold Py.bind at 1; rewrite Hload;
        unfold Py.bind, Py.lift; rewrite He; reflexivity.
    + unfold Py.ret at 1. unfold Py.bind at 1. unfold Py.bind at 1. rewrite Hload.
      unfold Py.bind, Py.lift. rewrite He. reflexivity.
  - intros window_data Hw Hf. split; [| reflexivity].
    apply (wrapper_fusion_raise _ _ _ _ _ _ _ Hw Hf).
Qed.

Lemma predictor_error_propagates_witness :
  let g := MoreSamples.loaded_lstm_broken in
  let e := ExternalError "incompatible input shape" in
  let l : SeqModel := fun _ => Raise e in
  let window := Samples.full_window in
  Vocabulary.fully_loaded g /\ _lstm g = Some l /\
  ((l window = Raise e ->
    predict_fusion Samples.no_rf_env window Samples.partial_agg g = (g, Raise e)) /\
   (forall p a, l window = Ok p -> _ae g = Some a -> a window = Raise e ->
                predict_fusion Samples.no_rf_env window Samples.partial_agg g
                = (g, Raise e)) /\
   (forall window_data,
      adapt_window window_data = Ok window ->
      predict_fusion Samples.no_rf_env window Samples.partial_agg g = (g, Raise e) ->
      predict_from_window_and_agg (imported Samples.no_rf_env) window_data
        Samples.partial_agg g
      = (g, Ok (error_response e)) /\
      error_response e !! "error" = Some (VStr (Py.str e)))).
Proof.
  intros g e l window.
  assert (Hfull : Vocabulary.fully_loaded g).
  { unfold Vocabulary.fully_loaded. simpl. eauto 10. }
  split; [exact Hfull |]. split; [reflexivity |].
  exact (predictor_error_propagates Samples.no_rf_env g window Samples.partial_agg
           l e Hfull eq_refl).
Defined.

(** Every run of the scorer that returns, read backwards: the models
    that were asked and what they answered. *)
Lemma predict_fusion_ok_inv env window (agg_row : AggRow) g g' resp :
  predict_fusion env window agg_row g = (g', Ok resp) ->
  exists l a recon p score,
    _lstm g' = Some l /\ l window = Ok p /\
    _ae g' = Some a /\ a window = Ok recon /\ mse window recon = Ok score /\
    resp = fuse (np_exp env) p
             (match _rf g' with
              | Some rf => match rf (feature_vector agg_row) with
                           | Ok q => q
                           | Raise _ => 0.5
                           end
              | None => 0.5
              end) score.
Proof.
  unfold predict_fusion. intros Hrun.
  apply bind_ok_inv in Hrun as (p & g1 & Hlstm & Hrun).
  apply bind_ok_inv in Hrun as (q & g2 & Hrf & Hrun).
  apply bind_ok_inv in Hrun as (score & g3 & Hae & Hrun).
  unfold Py.ret in Hrun. injection Hrun as <- <-.
  destruct (lstm_predict_prob_inv _ _ _ _ _ Hlstm) as (Hfull & l & Hl & Hp).
  assert (Hg2 : g2 = g1 /\
                q = match _rf g1 with
                    | Some rf => match rf (feature_vector agg_row) with
                                 | Ok q => q
                                 | Raise _ => 0.5
                                 end
                    | None => 0.5
                    end).
  { unfold rf_prob_failure in Hrf.
    rewrite (bind_ok _ _ _ _ _ (load_all_cached env g1 Hfull)) in Hrf.
    unfold Vocabulary.handles_of in Hrf.
    destruct (_rf g1) as [rf |]; [| injection Hrf as <- <-; split; reflexivity].
    unfold try_except, Py.lift, Py.ret in Hrf.
    destruct (rf (feature_vector agg_row)); injection Hrf as <- <-; split; reflexivity. }
  destruct Hg2 as [-> ->].
  assert (Hg3 : g3 = g1).
  { unfold ae_anomaly_score in Hae.
    rewrite (bind_ok _ _ _ _ _ (load_all_cached env g1 Hfull)) in Hae.
    unfold Vocabulary.handles_of in Hae.
    destruct (_ae g1) as [m |]; [| discriminate Hae].
    apply bind_ok_inv in Hae as (recon & g4 & Hrecon & Hae).
    unfold Py.lift in Hrecon, Hae. injection Hrecon as <- _. injection Hae as <- _.
    reflexivity. }
  subst g3.
  destruct (ae_anomaly_score_inv _ _ _ _ _ Hae) as (_ & a & recon & Ha & Hrecon & Hmse).
  exists l, a, recon, p, score. repeat split; assumption.
Qed.

(** C1: whenever the fusion scorer returns, its response reports the
    three model outputs and combines them with fixed weights.  The
    sequence probability is the answer of the cached sequence model on
    the window; the tabular probability is the answer of the cached
    classifier on the twenty features read from the aggregate mapping
    (0.5 where the scorer falls back);
    ae_scaled is the logistic 1 / (1 + exp (- (ae_score - 0.01) * 100))
    of the mean squared error between the window and the autoencoder's
    reconstruction; and fused_risk = 0.6 * sequence probability
    + 0.3 * tabular probability + 0.1 * ae_scaled.  The weights are the
    constants 0.6, 0.3 and 0.1, which sum to 1, so that the weighted
    sum of (1, 0, 0) is 0.6 and that of (0, 0, 0) is 0. *)
Theorem predict_fusion_weighted_sum env window (agg_row : AggRow) g g' resp :
  predict_fusion env window agg_row g = (g', Ok resp) ->
  (exists l a c rows rows' sequence_prob,
     _lstm g' = Some l /\ l window = Ok sequence_prob /\
     _ae g' = Some a /\ window = Arr2 c rows /\ a window = Ok (Arr2 c rows') /\
     let features := map (fun name => default 0 (agg_row !! name)) Spec.tabular_features in
     let tabular_prob :=
       match _rf g' with
       | Some rf => match rf features with
                    | Ok q => q
                    | Raise _ => 0.5
                    end
       | None => 0.5
       end in
     let ae_score := Spec.mean_squared_error (concat rows) (concat rows') in
     let ae_scaled := 1 / (1 + np_exp env (- (ae_score - 0.01) * 100)) in
     resp !! "failure_prob_lstm" = Some (VFloat sequence_prob) /\
     resp !! "prob_failure_rf" = Some (VFloat tabular_prob) /\
     resp !! "ae_score" = Some (VFloat ae_score) /\
     resp !! "ae_scaled" = Some (VFloat ae_scaled) /\
     exists fused,
       resp !! "fused_risk" = Some (VFloat fused) /\
       fused == 0.6 * sequence_prob + 0.3 * tabular_prob + 0.1 * ae_scaled) /\
  W_LSTM = 0.6 /\ W_RF = 0.3 /\ W_AE = 0.1 /\
  W_LSTM + W_RF + W_AE == 1 /\
  W_LSTM * 1 + W_RF * 0 + W_AE * 0 == 0.6 /\
  W_LSTM * 0 + W_RF * 0 + W_AE * 0 == 0.
Proof.
  intros Hrun. split; [| repeat split; reflexivity].
  destruct (predict_fusion_ok_inv _ _ _ _ _ _ Hrun)
    as (l & a & recon & p & score & Hl & Hp & Ha & Hrecon & Hmse & ->).
  unfold mse in Hmse. destruct window as [| c rows]; [discriminate Hmse |].
  destruct recon as [| c' rows']; [discriminate Hmse |].
  destruct ((c =? c')%nat && (length rows =? length rows')%nat) eqn:Hshape;
    [| discriminate Hmse].
  apply andb_prop in Hshape as [Hc _]. apply Nat.eqb_eq in Hc. subst c'.
  injection Hmse as <-.
  exists l, a, c, rows, rows', p.
  split; [exact Hl |]. split; [exact Hp |]. split; [exact Ha |].
  split; [reflexivity |]. split; [exact Hrecon |].
  cbv zeta.
  split; [reflexivity |]. split; [reflexivity |].
  split; [reflexivity |]. split; [reflexivity |].
  set (q := match _rf g' with
            | Some rf =>
                match rf (map (fun name => default 0 (agg_row !! name))
                              Spec.tabular_features) with
                | Ok q => q
                | Raise _ => 0.5
                end
            | None => 0.5
            end).
  set (s := 1 / (1 + np_exp env
                       (- (Spec.mean_squared_error (concat rows) (concat rows') - 0.01)
                        * 100))).
  exists (W_LSTM * p + W_RF * (1 - (1.0 - q)) + W_AE * s).
  split; [reflexivity |]. unfold W_LSTM, W_RF, W_AE. ring.
Qed.

Lemma predict_fusion_weighted_sum_witness :
  let env := Samples.constant_env 1 0 in
  let window := Arr2 4 [[1; 2; 3; 4]] in
  let run := predict_fusion env window Samples.partial_agg initial in
  let resp := fuse (np_exp env) 1 0 (0 # 4) in
  run = (fst run, Ok resp) /\
  (exists fused, resp !! "fused_risk" = Some (VFloat fused) /\ fused == 0.65) /\
  (exists l a c rows rows' sequence_prob,
     _lstm (fst run) = Some l /\ l window = Ok sequence_prob /\
     _ae (fst run) = Some a /\ window = Arr2 c rows /\ a window = Ok (Arr2 c rows') /\
     let features :=
       map (fun name => default 0 (Samples.partial_agg !! name)) Spec.tabular_features in
     let tabular_prob :=
       match _rf (fst run) with
       | Some rf => match rf features with
                    | Ok q => q
                    | Raise _ => 0.5
                    end
       | None => 0.5
       end in
     let ae_score := Spec.mean_squared_error (concat rows) (concat rows') in
     let ae_scaled := 1 / (1 + np_exp env (- (ae_score - 0.01) * 100)) in
     resp !! "failure_prob_lstm" = Some (VFloat sequence_prob) /\
     resp !! "prob_failure_rf" = Some (VFloat tabular_prob) /\
     resp !! "ae_score" = Some (VFloat ae_score) /\
     resp !! "ae_scaled" = Some (VFloat ae_scaled) /\
     exists fused,
       resp !! "fused_risk" = Some (VFloat fused) /\
       fused == 0.6 * sequence_prob + 0.3 * tabular_prob + 0.1 * ae_scaled) /\
  W_LSTM = 0.6 /\ W_RF = 0.3 /\ W_AE = 0.1 /\
  W_LSTM + W_RF + W_AE == 1 /\
  W_LSTM * 1 + W_RF * 0 + W_AE * 0 == 0.6 /\
  W_LSTM * 0 + W_RF * 0 + W_AE * 0 == 0.
Proof.
  intros env window run resp.
  assert (Hrun : run = (fst run, Ok resp)) by reflexivity.
  split; [exact Hrun |].
  split; [eexists; split; reflexivity |].
  exact (predict_fusion_weighted_sum env window Samples.partial_agg initial _ _ Hrun).
Defined.

End ScorerSteps.

(* ================================================================== *)
(** * More on the service wrapper                                      *)
(* ================================================================== *)

Section WrapperFacts.
Import Np Sklearn Fusion Predict.
Local Open Scope Q_scope.

Lemma uniform_forallb (r : list Q) (rs : list (list Q)) :
  forallb (fun r' => (length r' =? length r)%nat) rs = true
  <-> Vocabulary.uniform (length r) rs.
Proof.
  unfold Vocabulary.uniform. rewrite forallb_forall, Forall_forall. split.
  - intros H x Hin. apply Nat.eqb_eq, H, list_elem_of_In, Hin.
  - intros H x Hin. apply Nat.eqb_eq, H, list_elem_of_In, Hin.
Qed.

(** What [np.array] makes of a list of rows. *)
Lemma array_cases (data : list (list Q)) :
  (data = [] /\ Np.array data = Ok (Arr1 []))
  \/ (data <> [] /\ exists c, Vocabulary.uniform c data /\ Np.array data = Ok (Arr2 c data))
  \/ (data <> [] /\ (forall c, ~ Vocabulary.uniform c data)
      /\ Np.array data = Raise ValueError).
Proof.
  destruct data as [| r rs]; [left; split; reflexivity | right].
  unfold Np.array.
  destruct (forallb (fun r' => (length r' =? length r)%nat) rs) eqn:Hall.
  - left. split; [discriminate |]. exists (length r). split; [| reflexivity].
    constructor; [reflexivity | apply uniform_forallb, Hall].
  - right. split; [discriminate |]. split; [| reflexivity].
    intros c Hc. inversion Hc as [| ? ? Hr Hrs]; subst.
    apply uniform_forallb in Hrs. congruence.
Qed.

Lemma adapt_window_empty : adapt_window [] = Raise ValueError.
Proof. reflexivity. Qed.

(** What the adaptation makes of rows of one width. *)
Lemma adapt_window_uniform (data : list (list Q)) (c : nat) :
  data <> [] -> Vocabulary.uniform c data ->
  adapt_window data
  = if (length data <? 60)%nat
    then if (c =? 4)%nat
         then Ok (Arr2 4 (repeat (repeat 0 4) (60 - length data) ++ data))
         else Raise ValueError
    else Ok (Arr2 c (skipn (length data - 60) data)).
Proof.
  intros Hne Hc. unfold adapt_window.
  rewrite (array_uniform data c Hne Hc). simpl rbind.
  destruct (Nat.ltb_spec (length data) 60) as [Hlt | Hge].
  - destruct (decide ([length data; c] ≠ [60; 4]%nat)) as [_ | Heq].
    + unfold vstack, zeros, atleast_2d.
      destruct (Nat.eqb_spec c 4) as [-> | Hne4].
      * reflexivity.
      * destruct (Nat.eqb_spec 4 c); [congruence | reflexivity].
    + exfalso. apply Heq. intros [= ? ?]. lia.
  - destruct (decide ([length data; c] ≠ [60; 4]%nat)) as [_ | Heq].
    + destruct (Nat.ltb_spec 60 (length data)) as [Hgt | Hle]; [reflexivity |].
      replace (length data - 60)%nat with 0%nat by lia. reflexivity.
    + replace (length data - 60)%nat with 0%nat; [reflexivity |].
      destruct (decide (length data = 60%nat)) as [-> | Hn]; [reflexivity |].
      exfalso. apply Heq. intros [= ? ?]. contradiction.
Qed.

Lemma uniform_app c (l1 l2 : list (list Q)) :
  Vocabulary.uniform c (l1 ++ l2) <-> Vocabulary.uniform c l1 /\ Vocabulary.uniform c l2.
Proof. unfold Vocabulary.uniform. apply Forall_app. Qed.

(** Whenever the adaptation succeeds, its result is a two-dimensional
    array of exactly 60 rows, all of the width the input rows share; a
    window shorter than 60 rows only gets through with 4 features. *)
Theorem adapt_window_ok_shape (window_data : list (list Q)) a :
  adapt_window window_data = Ok a ->
  exists c rows,
    a = Arr2 c rows /\ length rows = 60%nat /\
    Vocabulary.uniform c rows /\ Vocabulary.uniform c window_data /\
    ((length window_data < 60)%nat -> c = 4%nat).
Proof.
  intros Hok.
  destruct (array_cases window_data) as [[-> _] | [(Hne & c & Hc & _) | (_ & _ & Harr)]].
  - discriminate Hok.
  - rewrite (adapt_window_uniform window_data c Hne Hc) in Hok.
    destruct (Nat.ltb_spec (length window_data) 60) as [Hlt | Hge].
    + destruct (Nat.eqb_spec c 4) as [Hc4 | Hne4]; [subst c | discriminate Hok].
      injection Hok as <-. eexists _, _. split; [reflexivity |].
      split; [rewrite length_app, repeat_length; lia |].
      split; [| split; [exact Hc | reflexivity]].
      apply uniform_app. split; [| exact Hc].
      apply Forall_forall. intros r Hin. apply list_elem_of_In, repeat_spec in Hin.
      subst r. reflexivity.
    + injection Hok as <-. eexists _, _. split; [reflexivity |].
      split; [rewrite length_skipn; lia |].
      split; [apply Forall_drop; exact Hc | split; [exact Hc | lia]].
  - unfold adapt_window in Hok. rewrite Harr in Hok. discriminate Hok.
Qed.

Lemma adapt_window_ok_shape_witness :
  let window_data := Samples.flat_window 61 3 in
  let a := Arr2 3 (Samples.flat_window 60 3) in
  adapt_window window_data = Ok a /\
  exists c rows,
    a = Arr2 c rows /\ length rows = 60%nat /\
    Vocabulary.uniform c rows /\ Vocabulary.uniform c window_data /\
    ((length window_data < 60)%nat -> c = 4%nat).
Proof.
  intros window_data a.
  assert (Hok : adapt_window window_data = Ok a) by reflexivity.
  split; [exact Hok |].
  exact (adapt_window_ok_shape window_data a Hok).
Defined.

(** The adaptation fails exactly on an empty window, on rows of
    different lengths, and on a window shorter than 60 rows that is not
    4 features wide; the exception is always a ValueError. *)
Theorem adapt_window_raises_iff (window_data : list (list Q)) :
  (forall e, adapt_window window_data = Raise e -> e = ValueError) /\
  ((exists e, adapt_window window_data = Raise e) <->
   window_data = []
   \/ (forall c, ~ Vocabulary.uniform c window_data)
   \/ ((length window_data < 60)%nat /\ ~ Vocabulary.uniform 4 window_data)).
Proof.
  destruct (array_cases window_data) as [[-> _] | [(Hne & c & Hc & _) | (Hne & Hrag & Harr)]].
  - split; [intros e [= <-]; reflexivity |].
    split; [intros _; left; reflexivity | intros _; eexists; reflexivity].
  - assert (Hwidth : forall c', Vocabulary.uniform c' window_data -> c' = c).
    { intros c' Hc'. destruct window_data as [| r rs]; [congruence |].
      inversion Hc; inversion Hc'; congruence. }
    rewrite (adapt_window_uniform window_data c Hne Hc).
    destruct (Nat.ltb_spec (length window_data) 60) as [Hlt | Hge].
    + destruct (Nat.eqb_spec c 4) as [-> | Hne4].
      * split; [discriminate |]. split; [intros [e He]; discriminate He |].
        intros [-> | [Hrag | [_ Hno]]]; [congruence | |]; exfalso; eauto.
        eapply Hrag; eassumption.
      * split; [intros e [= <-]; reflexivity |].
        split; [| intros _; eexists; reflexivity].
        intros _. right. right. split; [exact Hlt |].
        intros H4. apply Hne4. symmetry. apply Hwidth, H4.
    + split; [discriminate |]. split; [intros [e He]; discriminate He |].
      intros [-> | [Hrag | [Hlt _]]]; [congruence | | lia].
      exfalso. eapply Hrag; eassumption.
  - unfold adapt_window. rewrite Harr. simpl.
    split; [intros e [= <-]; reflexivity |].
    split; [intros _; right; left; exact Hrag | intros _; eexists; reflexivity].
Qed.

(** Only the last 60 rows matter: rows in front of a complete 60-row
    window are dropped, and adapting an adapted window changes
    nothing. *)
Theorem adapt_window_last_rows (c : nat) (front rows : list (list Q)) :
  Vocabulary.uniform c (front ++ rows) -> length rows = 60%nat ->
  adapt_window (front ++ rows) = Ok (Arr2 c rows) /\
  adapt_window rows = Ok (Arr2 c rows).
Proof.
  intros Hc Hlen.
  assert (Hrows : Vocabulary.uniform c rows) by (apply uniform_app in Hc; tauto).
  assert (Hne : rows <> []) by (intros ->; discriminate Hlen).
  split.
  - rewrite (adapt_window_uniform (front ++ rows) c); [| | exact Hc].
    + rewrite length_app, Hlen.
      replace (length front + 60 <? 60)%nat with false
        by (symmetry; apply Nat.ltb_ge; lia).
      replace (length front + 60 - 60)%nat with (length front) by lia.
      rewrite drop_app_length. reflexivity.
    + destruct front; [exact Hne | discriminate].
  - rewrite (adapt_window_uniform rows c Hne Hrows), Hlen. reflexivity.
Qed.

Lemma adapt_window_last_rows_witness :
  let front := Samples.flat_window 30 3 in
  let rows := Samples.flat_window 60 3 in
  Vocabulary.uniform 3 (front ++ rows) /\ length rows = 60%nat /\
  (adapt_window (front ++ rows) = Ok (Arr2 3 rows) /\
   adapt_window rows = Ok (Arr2 3 rows)).
Proof.
  intros front rows.
  assert (Hc : Vocabulary.uniform 3 (front ++ rows)).
  { apply Forall_forall. intros r Hin. apply list_elem_of_In, in_app_or in Hin.
    destruct Hin as [Hin | Hin]; apply repeat_spec in Hin; subst r; reflexivity. }
  assert (Hlen : length rows = 60%nat) by reflexivity.
  split; [exact Hc |]. split; [exact Hlen |].
  exact (adapt_window_last_rows 3 front rows Hc Hlen).
Defined.

(** A response of the service carries an 'error' entry exactly when it
    is one of the two default responses; without that entry it is the
    scorer's own response. *)
Theorem wrapper_error_entry (import_ok : bool) env window_data agg_data g g' resp :
  predict_from_window_and_agg (if import_ok then imported env else import_failed)
    window_data agg_data g = (g', Ok resp) ->
  (is_Some (resp !! "error") <->
   resp = unavailable_response \/ exists e, resp = error_response e) /\
  (resp !! "error" = None ->
   exists p_lstm p_rf ae_score, resp = fuse (np_exp env) p_lstm p_rf ae_score).
Proof.
  intros Hrun.
  assert (Hdef : resp = unavailable_response \/ (exists e, resp = error_response e)
                 \/ exists p q s, resp = fuse (np_exp env) p q s).
  { destruct import_ok; [| injection Hrun as _ <-; left; reflexivity].
    destruct (adapt_window window_data) as [w | e] eqn:Hw.
    - destruct (predict_fusion env w agg_data g) as [g1 [r | e]] eqn:Hf.
      + rewrite (wrapper_fusion_ok _ _ _ _ _ _ _ Hw Hf) in Hrun. injection Hrun as _ <-.
        right. right. eapply predict_fusion_inv. exact Hf.
      + rewrite (wrapper_fusion_raise _ _ _ _ _ _ _ Hw Hf) in Hrun.
        injection Hrun as _ <-. right. left. eexists. reflexivity.
    - rewrite (wrapper_adapt_raise _ _ _ _ _ Hw) in Hrun. injection Hrun as _ <-.
      right. left. eexists. reflexivity. }
  destruct Hdef as [-> | [[e ->] | (p & q & s & ->)]].
  - split; [split; [intros _; left; reflexivity | intros _; eexists; reflexivity] |].
    intros H. discriminate H.
  - split; [split; [intros _; right; eexists; reflexivity | intros _; eexists; reflexivity] |].
    intros H. discriminate H.
  - split; [| intros _; eexists _, _, _; reflexivity].
    split.
    + intros [v Hv]. discriminate Hv.
    + intros [H | [e H]]; apply (f_equal (fun r : Response => r !! "error")) in H;
        discriminate H.
Qed.

Lemma wrapper_error_entry_witness :
  let env := Samples.constant_env 1 0 in
  let run := predict_from_window_and_agg (if true then imported env else import_failed)
               Samples.ragged_window Samples.partial_agg initial in
  let resp := error_response ValueError in
  run = (initial, Ok resp) /\
  ((is_Some (resp !! "error") <->
    resp = unavailable_response \/ exists e, resp = error_response e) /\
   (resp !! "error" = None ->
    exists p_lstm p_rf ae_score, resp = fuse (np_exp env) p_lstm p_rf ae_score)).
Proof.
  intros env run resp.
  assert (Hrun : run = (initial, Ok resp)) by reflexivity.
  split; [exact Hrun |].
  exact (wrapper_error_entry true env _ _ _ _ _ Hrun).
Defined.

End WrapperFacts.

(* ================================================================== *)
(** * More on the windower                                             *)
(* ================================================================== *)

Section WindowerEdges.
Import Np Sklearn Preprocess.
Local Open Scope Q_scope.

Lemma extract_windows_zero df r : extract_windows df 0 r = Raise ValueError.
Proof.
  unfold extract_windows, range.
  replace (Z.to_nat (Z.of_nat (length (values df)) - Z.of_nat 0 + 1))
    with (S (length (values df))) by lia.
  reflexivity.
Qed.

Lemma extract_windows_ok_positive df T r out :
  extract_windows df T r = Ok out -> (0 < T)%nat.
Proof.
  destruct T; [rewrite extract_windows_zero; discriminate | lia].
Qed.

(** The result of the windower through the kept offsets. *)
Lemma extract_windows_kept df T r ws ls :
  extract_windows df T r = Ok (ws, ls) ->
  (0 < T)%nat /\
  ws = map (Spec.candidate df T) (Spec.kept_starts df T r) /\
  Forall2 (fun start l => Spec.is_max l (Spec.labels_in_range df T start))
          (Spec.kept_starts df T r) ls.
Proof.
  intros Hok. pose proof (extract_windows_ok_positive _ _ _ _ Hok) as HT.
  split; [exact HT |]. unfold extract_windows in Hok. rewrite range_offsets in Hok.
  destruct (extract_loop_run df T r (seq 0 (length (rows df) + 1 - T)) [] [] HT
              (offsets_fit _ _ HT)) as (ls' & Hrun & Hall).
  rewrite Hrun in Hok. simpl in Hok. injection Hok as <- <-.
  split; [reflexivity | exact Hall].
Qed.

Lemma kept_starts_fit df T r start :
  In start (Spec.kept_starts df T r) -> (0 < T)%nat ->
  (start + T <= length (rows df))%nat.
Proof.
  unfold Spec.kept_starts. rewrite filter_In, in_seq. lia.
Qed.

Lemma values_row_width df i : (i < length (rows df))%nat ->
  length (nth i (values df) []) = 4%nat.
Proof.
  intros Hi. unfold values.
  destruct (lookup_lt_is_Some_2 (rows df) i Hi) as [b Hb].
  rewrite (nth_lookup_Some _ i [] (map (fun c => cell c b) AGG_FEATURES));
    [reflexivity |].
  rewrite list_lookup_fmap, Hb. reflexivity.
Qed.

Lemma candidate_shaped df T start :
  (start + T <= length (rows df))%nat ->
  Vocabulary.window_shaped T (Spec.candidate df T start).
Proof.
  intros Hfit. unfold Vocabulary.window_shaped.
  rewrite (candidate_nth df T start Hfit). split.
  - rewrite length_map, length_seq. reflexivity.
  - apply Forall_forall. intros row Hin.
    apply list_elem_of_In, in_map_iff in Hin. destruct Hin as (i & <- & Hi).
    apply in_seq in Hi. apply values_row_width. lia.
Qed.

(** Whatever the threshold, the windower returns as many labels as
    windows, at most one window per start offset (n - T + 1 of them),
    and every window has exactly T rows of 4 cells; a window size of 0
    is refused with a ValueError. *)
Theorem extract_windows_shape df T r ws ls :
  extract_windows df T r = Ok (ws, ls) ->
  length ws = length ls /\
  (length ws <= length (rows df) + 1 - T)%nat /\
  Forall (Vocabulary.window_shaped T) ws /\
  (forall r', extract_windows df 0 r' = Raise ValueError).
Proof.
  intros Hok. destruct (extract_windows_kept _ _ _ _ _ Hok) as (HT & -> & Hall).
  split; [rewrite length_map; eapply Forall2_length; exact Hall |].
  split; [| split; [| intros r'; apply extract_windows_zero]].
  - rewrite length_map. unfold Spec.kept_starts.
    etransitivity; [apply filter_length_le |]. rewrite length_seq. lia.
  - apply Forall_forall. intros w Hin.
    apply list_elem_of_In, in_map_iff in Hin. destruct Hin as (start & <- & Hstart).
    apply candidate_shaped. eapply kept_starts_fit; eassumption.
Qed.

Lemma extract_windows_shape_witness :
  let out := extract_windows Samples.short_frame 2 0.8 in
  let cells_of t := [t; Some 1; Some 1500; Some 60] in
  let ws := [[cells_of None; cells_of (Some 25)]; [cells_of (Some 25); cells_of None];
             [cells_of None; cells_of (Some 31)]] in
  let ls := [1; 1; 2]%Z in
  out = Ok (ws, ls) /\
  (length ws = length ls /\
   (length ws <= length (rows Samples.short_frame) + 1 - 2)%nat /\
   Forall (Vocabulary.window_shaped 2) ws /\
   (forall r', extract_windows Samples.short_frame 0 r' = Raise ValueError)).
Proof.
  intros out cells_of ws ls.
  assert (Hok : out = Ok (ws, ls)) by reflexivity.
  split; [exact Hok |].
  exact (extract_windows_shape Samples.short_frame 2 0.8 ws ls Hok).
Defined.

Lemma Forall2_In_right {A B} (R : A -> B -> Prop) (l : list A) (k : list B) (y : B) :
  Forall2 R l k -> In y k -> exists x, In x l /\ R x y.
Proof.
  induction 1 as [| x y' l k Hxy _ IH]; intros Hin; [contradiction |].
  destruct Hin as [<- | Hin]; [exists x; split; [left; reflexivity | exact Hxy] |].
  destruct (IH Hin) as (x' & Hx' & HR). exists x'. split; [right; exact Hx' | exact HR].
Qed.

(** Window labels stay within the bounds of the bin labels: labels
    drawn from 0..2 give window labels in 0..2, and a frame without a
    label column gives only zeros. *)
Theorem window_labels_within df T r ws ls (lo hi : Z) :
  extract_windows df T r = Ok (ws, ls) ->
  Forall (fun x => (lo <= x <= hi)%Z) (labels_of df) ->
  Forall (fun l => (lo <= l <= hi)%Z) ls /\
  (label_column df = false -> Forall (fun l => l = 0%Z) ls).
Proof.
  intros Hok Hbound. destruct (extract_windows_kept _ _ _ _ _ Hok) as (HT & _ & Hall).
  assert (Hin : forall P : Z -> Prop,
             Forall P (labels_of df) ->
             Forall (fun l => P l) ls).
  { intros P HP. apply Forall_forall. intros l Hl.
    apply list_elem_of_In in Hl.
    destruct (Forall2_In_right _ _ _ l Hall Hl) as (start & Hstart & [Hmem _]).
    pose proof (kept_starts_fit df T r start Hstart HT) as Hfit.
    rewrite (labels_in_range_nth df T start Hfit) in Hmem. apply in_map_iff in Hmem.
    destruct Hmem as (i & <- & Hi). apply in_seq in Hi.
    rewrite Forall_forall in HP. apply HP, list_elem_of_In, nth_In.
    rewrite labels_of_length. lia. }
  split; [apply Hin; exact Hbound |].
  intros Hno. apply Hin. unfold labels_of. rewrite Hno.
  apply Forall_forall. intros x Hx. apply list_elem_of_In, in_map_iff in Hx.
  destruct Hx as (b & <- & _). reflexivity.
Qed.

Lemma window_labels_within_witness :
  let out := extract_windows Samples.short_frame 2 0.8 in
  let ws := map (Spec.candidate Samples.short_frame 2) [0; 1; 2]%nat in
  let ls := [1; 1; 2]%Z in
  out = Ok (ws, ls) /\
  Forall (fun x => (0 <= x <= 2)%Z) (labels_of Samples.short_frame) /\
  (Forall (fun l => (0 <= l <= 2)%Z) ls /\
   (label_column Samples.short_frame = false -> Forall (fun l => l = 0%Z) ls)).
Proof.
  intros out ws ls.
  assert (Hok : out = Ok (ws, ls)) by reflexivity.
  assert (Hb : Forall (fun x => (0 <= x <= 2)%Z) (labels_of Samples.short_frame)).
  { repeat constructor; discriminate. }
  split; [exact Hok |]. split; [exact Hb |].
  exact (window_labels_within Samples.short_frame 2 0.8 ws ls 0 2 Hok Hb).
Defined.

End WindowerEdges.

(* ================================================================== *)
(** * Complete data and extreme thresholds                             *)
(* ================================================================== *)

Section WindowerExtremes.
Import Np Sklearn Preprocess.
Local Open Scope Q_scope.

Lemma filter_all_true {A} (f : A -> bool) (l : list A) :
  (forall x, In x l -> f x = true) -> List.filter f l = l.
Proof.
  induction l as [| x l IH]; intros H; [reflexivity |]. simpl.
  rewrite (H x (or_introl eq_refl)). f_equal. apply IH. intros y Hy. apply H. right. exact Hy.
Qed.

Lemma filter_all_false {A} (f : A -> bool) (l : list A) :
  (forall x, In x l -> f x = false) -> List.filter f l = [].
Proof.
  induction l as [| x l IH]; intros H; [reflexivity |]. simpl.
  rewrite (H x (or_introl eq_refl)). apply IH. intros y Hy. apply H. right. exact Hy.
Qed.

Lemma present_cells_le (T : nat) (w : Window) :
  Vocabulary.window_shaped T w -> (Spec.present_cells w <= T * 4)%nat.
Proof.
  intros [<- Hrows]. unfold Spec.present_cells.
  induction Hrows as [| row w Hrow _ IH]; simpl; [lia |].
  pose proof (length_filter (fun x : option Q => is_Some x) row). lia.
Qed.

Lemma complete_row (b : Bin) :
  Vocabulary.complete b ->
  length (filter (fun x : option Q => is_Some x) (map (fun c => cell c b) AGG_FEATURES))
  = 4%nat.
Proof.
  intros ([t Ht] & [v Hv] & [r Hr] & [h Hh]). simpl.
  unfold cell. simpl. rewrite Ht, Hv, Hr, Hh. reflexivity.
Qed.

Lemma list_sum_const {A} (f : A -> nat) (k : nat) (l : list A) :
  (forall x, In x l -> f x = k) -> list_sum (map f l) = (length l * k)%nat.
Proof.
  induction l as [| x l IH]; intros H; [reflexivity |]. simpl.
  rewrite (H x (or_introl eq_refl)), IH; [reflexivity |].
  intros y Hy. apply H. right. exact Hy.
Qed.

Lemma present_cells_complete df T start :
  Forall Vocabulary.complete (rows df) ->
  (start + T <= length (rows df))%nat ->
  Spec.present_cells (Spec.candidate df T start) = (T * 4)%nat.
Proof.
  intros Hall Hfit. unfold Spec.present_cells.
  rewrite (candidate_nth df T start Hfit).
  rewrite map_map, (list_sum_const _ 4%nat); [rewrite length_seq; reflexivity |].
  intros i Hi. apply in_seq in Hi.
  destruct (lookup_lt_is_Some_2 (rows df) i ltac:(lia)) as [b Hb].
  unfold values.
  rewrite (nth_lookup_Some _ i [] (map (fun c => cell c b) AGG_FEATURES))
    by (rewrite list_lookup_fmap, Hb; reflexivity).
  apply complete_row. rewrite Forall_forall in Hall.
  apply Hall. eapply list_elem_of_lookup_2. exact Hb.
Qed.

Lemma validity_ratio_le_one df T start :
  (0 < T)%nat -> (start + T <= length (rows df))%nat ->
  Spec.validity_ratio T (Spec.candidate df T start) <= 1.
Proof.
  intros HT Hfit. unfold Spec.validity_ratio.
  pose proof (present_cells_le T _ (candidate_shaped df T start Hfit)) as Hle.
  apply Qle_shift_div_r.
  - unfold Qlt. simpl. lia.
  - unfold Qle. simpl. lia.
Qed.

Lemma validity_ratio_complete df T start :
  (0 < T)%nat -> Forall Vocabulary.complete (rows df) ->
  (start + T <= length (rows df))%nat ->
  Spec.validity_ratio T (Spec.candidate df T start) == 1.
Proof.
  intros HT Hall Hfit. unfold Spec.validity_ratio.
  rewrite (present_cells_complete df T start Hall Hfit).
  field. unfold Qeq. simpl. lia.
Qed.

(** The two ends of the threshold: above 1 no window can pass, and on
    a series without missing cells every start offset passes any
    threshold up to 1, so that exactly n - T + 1 windows come out, in
    order. *)
Theorem extract_windows_extremes df T :
  (0 < T)%nat ->
  (forall r, 1 < r -> extract_windows df T r = Ok ([], [])) /\
  (forall r, r <= 1 -> Forall Vocabulary.complete (rows df) ->
     exists ls,
       extract_windows df T r
       = Ok (map (Spec.candidate df T) (seq 0 (length (rows df) + 1 - T)), ls) /\
       length ls = (length (rows df) + 1 - T)%nat).
Proof.
  intros HT.
  assert (Hrun : forall r, exists ls,
             extract_windows df T r
             = Ok (map (Spec.candidate df T) (Spec.kept_starts df T r), ls) /\
             length ls = length (Spec.kept_starts df T r)).
  { intros r. unfold extract_windows. rewrite range_offsets.
    destruct (extract_loop_run df T r (seq 0 (length (rows df) + 1 - T)) [] [] HT
                (offsets_fit _ _ HT)) as (ls' & Hrun & Hall).
    exists ls'. split; [exact Hrun |]. symmetry. eapply Forall2_length. exact Hall. }
  split.
  - intros r Hr. destruct (Hrun r) as (ls & Hok & Hlen).
    assert (Hnone : Spec.kept_starts df T r = []).
    { apply filter_all_false. intros start Hin. apply in_seq in Hin.
      destruct (Qle_bool r _) eqn:Hq; [| reflexivity].
      apply Qle_bool_iff in Hq.
      pose proof (validity_ratio_le_one df T start HT ltac:(lia)). lra. }
    rewrite Hnone in Hok, Hlen. destruct ls; [exact Hok | discriminate Hlen].
  - intros r Hr Hall. destruct (Hrun r) as (ls & Hok & Hlen).
    assert (Hevery : Spec.kept_starts df T r = seq 0 (length (rows df) + 1 - T)).
    { apply filter_all_true. intros start Hin. apply in_seq in Hin.
      apply Qle_bool_iff.
      rewrite (validity_ratio_complete df T start HT Hall ltac:(lia)). exact Hr. }
    rewrite Hevery in Hok, Hlen. exists ls. split; [exact Hok |].
    rewrite Hlen, length_seq. reflexivity.
Qed.

Lemma extract_windows_extremes_witness :
  (0 < 2)%nat /\
  ((forall r, 1 < r -> extract_windows Samples.short_frame 2 r = Ok ([], [])) /\
   (forall r, r <= 1 -> Forall Vocabulary.complete (rows Samples.short_frame) ->
      exists ls,
        extract_windows Samples.short_frame 2 r
        = Ok (map (Spec.candidate Samples.short_frame 2)
                  (seq 0 (length (rows Samples.short_frame) + 1 - 2)), ls) /\
        length ls = (length (rows Samples.short_frame) + 1 - 2)%nat)).
Proof.
  assert (HT : (0 < 2)%nat) by lia.
  split; [exact HT |].
  exact (extract_windows_extremes Samples.short_frame 2 HT).
Defined.

End WindowerExtremes.

(* ================================================================== *)
(** * More on the aggregator                                           *)
(* ================================================================== *)

Section AggregatorEdges.
Import Np Sklearn Preprocess.
Local Open Scope Q_scope.

Lemma populated_length_le (w : list (option Q)) :
  (length (Spec.populated w) <= length w)%nat.
Proof.
  induction w as [| [x |] w IH]; simpl; lia.
Qed.

Lemma trailing_length (T : nat) (col : list (option Q)) (i : nat) :
  length (Spec.trailing T col i) = Nat.min (i + 1) T.
Proof. unfold Spec.trailing. rewrite length_map, length_seq. reflexivity. Qed.

(** Every statistic column is a rolling reduction of a channel. *)
Lemma agg_columns_rolling sqrt df name col :
  In (name, col) (agg_columns sqrt df) ->
  exists stat c, col = rolling WINDOW_SIZE min_periods stat (column df c).
Proof.
  unfold agg_columns. intros Hin. apply in_flat_map in Hin.
  destruct Hin as ([suffix stat] & _ & Hin). apply in_map_iff in Hin.
  destruct Hin as (c & [= _ <-] & _). eauto.
Qed.

Lemma aggregate_features_inv sqrt df agg i row :
  aggregate_features sqrt df = Ok agg -> agg !! i = Some row ->
  (i < length (rows df))%nat /\
  stats row = map (fun '(name, col) => (name, nth i col None)) (agg_columns sqrt df).
Proof.
  unfold aggregate_features. destruct (rows df) as [| b0 bs] eqn:Hrows; [discriminate |].
  rewrite <- Hrows. intros [= <-] Hrow.
  rewrite list_lookup_fmap in Hrow.
  destruct (seq 0 (length (rows df)) !! i) as [j |] eqn:Hj; [| discriminate Hrow].
  apply lookup_seq in Hj. destruct Hj as [-> Hlt]. simpl in Hrow.
  injection Hrow as <-. split; [exact Hlt | reflexivity].
Qed.

(** The warm-up of the rolling statistics: in each device's aggregate
    table the first 29 rows have all twenty statistics missing; and an
    empty frame is refused with an IndexError. *)
Theorem aggregate_features_warmup sqrt df :
  (rows df = [] -> aggregate_features sqrt df = Raise IndexError) /\
  (forall agg i row,
     aggregate_features sqrt df = Ok agg -> (i < 29)%nat -> agg !! i = Some row ->
     length (stats row) = 20%nat /\ Forall (fun kv => snd kv = None) (stats row)).
Proof.
  split.
  - intros Hrows. unfold aggregate_features. rewrite Hrows. reflexivity.
  - intros agg i row Hok Hi Hrow.
    destruct (aggregate_features_inv sqrt df agg i row Hok Hrow) as [Hlt ->].
    split; [reflexivity |].
    apply Forall_forall. intros kv Hin.
    apply list_elem_of_In, in_map_iff in Hin. destruct Hin as ([name col] & <- & Hin).
    destruct (agg_columns_rolling sqrt df name col Hin) as (stat & c & ->).
    simpl. rewrite rolling_nth by (rewrite column_length; exact Hlt).
    unfold Spec.trailing_stat.
    replace (length (Spec.populated (Spec.trailing WINDOW_SIZE (column df c) i)) <? min_periods)%nat
      with true; [reflexivity |].
    symmetry. apply Nat.ltb_lt.
    pose proof (populated_length_le (Spec.trailing WINDOW_SIZE (column df c) i)) as Hle.
    rewrite trailing_length in Hle. change min_periods with 30%nat. lia.
Qed.




End AggregatorEdges.

(* ================================================================== *)
(** * More on main                                                     *)
(* ================================================================== *)

Section MainEdges.
Import Np Sklearn Preprocess.
Local Open Scope Q_scope.

Lemma extract_windows_short df :
  (length (rows df) < WINDOW_SIZE)%nat ->
  extract_windows df WINDOW_SIZE MIN_VALID_RATIO = Ok ([], []).
Proof.
  intros Hshort. unfold extract_windows. rewrite range_offsets.
  replace (length (rows df) + 1 - WINDOW_SIZE)%nat with 0%nat by lia. reflexivity.
Qed.

Lemma aggregate_features_nonempty sqrt df :
  rows df <> [] -> exists agg, aggregate_features sqrt df = Ok agg.
Proof.
  intros Hne. unfold aggregate_features.
  destruct (rows df); [congruence | eexists; reflexivity].
Qed.

Lemma device_loop_short sqrt frames acc :
  Forall (fun df => (0 < length (rows df) < 60)%nat) frames ->
  exists aggs,
    device_loop sqrt frames acc
    = Ok {| concat_for_scaler := concat_for_scaler acc ++ map values frames;
            all_windows := all_windows acc;
            all_labels := all_labels acc;
            agg_rows := agg_rows acc ++ aggs |}.
Proof.
  intros Hall. revert acc. induction Hall as [| df frames Hdf _ IH]; intros acc.
  - exists []. simpl. rewrite !app_nil_r. destruct acc; reflexivity.
  - simpl device_loop.
    rewrite (extract_windows_short df) by (change WINDOW_SIZE with 60%nat; lia).
    destruct (aggregate_features_nonempty sqrt df) as [agg ->].
    { destruct (rows df); [simpl in Hdf; lia | discriminate]. }
    simpl rbind.
    destruct (IH {| concat_for_scaler := concat_for_scaler acc ++ [values df];
                    all_windows := all_windows acc;
                    all_labels := all_labels acc;
                    agg_rows := agg_rows acc ++ [agg] |}) as [aggs ->].
    exists (agg :: aggs). simpl. rewrite <- !app_assoc. reflexivity.
Qed.

Lemma concat_values_rows (frames : list DataFrame) row :
  In row (concat (map values frames)) <->
  exists df b, In df frames /\ In b (rows df)
               /\ row = [temperature b; vibration b; rpm b; humidity b].
Proof.
  rewrite in_concat. split.
  - intros (X & HX & Hrow). apply in_map_iff in HX as (df & <- & Hdf).
    unfold values in Hrow. apply in_map_iff in Hrow as (b & <- & Hb).
    exists df, b. repeat split; assumption.
  - intros (df & b & Hdf & Hb & ->). exists (values df). split.
    + apply in_map. exact Hdf.
    + unfold values. apply in_map_iff. exists b. split; [reflexivity | exact Hb].
Qed.

Lemma observed_In (w : list (option Q)) v : In (Some v) w -> observed w <> [].
Proof.
  induction w as [| [x |] w IH]; simpl; [tauto | discriminate |].
  intros [H | H]; [discriminate H | apply IH, H].
Qed.

Lemma observed_none (w : list (option Q)) :
  Forall (fun x => x = None) w -> observed w = [].
Proof. induction 1 as [| x w -> _ IH]; [reflexivity | exact IH]. Qed.

Lemma impute_row_count stats (r : list (option Q)) :
  length r = length stats ->
  length (impute_row stats r) = length (observed stats).
Proof.
  revert r. induction stats as [| [s |] stats IH]; intros [| x r] Hr;
    try discriminate Hr; [reflexivity | |]; simpl in *.
  - f_equal. apply IH. lia.
  - apply IH. lia.
Qed.

(** The statistics the imputer learns from four-wide rows. *)
Lemma imputer_fit_four (hd_row : list (option Q)) (X : list (list (option Q))) :
  length hd_row = 4%nat ->
  imputer_fit (hd_row :: X)
  = Ok {| statistics_ :=
            map (fun j => match observed (column_at j (hd_row :: X) None) with
                          | [] => None
                          | obs => Some (median obs)
                          end) [0; 1; 2; 3]%nat |}.
Proof.
  intros Hlen. unfold imputer_fit. rewrite check_array_ok by lia.
  cbn [rbind n_features]. rewrite Hlen. reflexivity.
Qed.

(** Two runs of [main] that produce no window.  Without any device
    frame it raises a RuntimeError and writes nothing.  When every
    device has between 1 and 59 bins, there are two cases.  If some bin
    has a value in some channel, the imputer and the scaler are fit and
    saved, and the run stops with a ValueError at the transform of the
    empty window array.  If no bin has a value in any channel, the
    imputer leaves an array without columns, the fit of the scaler is
    the ValueError, and nothing at all is written.  In both cases no
    window file and no aggregate table is written. *)
Theorem main_without_windows sqrt dir :
  main sqrt [] dir = (dir, Raise RuntimeError) /\
  (forall frames,
     frames <> [] ->
     Forall (fun df => (0 < length (rows df) < 60)%nat) frames ->
     (Exists (fun df => Exists (fun b => ~ Vocabulary.blank b) (rows df)) frames ->
      exists imputer scaler,
        main sqrt frames dir
        = ({| imputer_joblib := Some imputer; scaler_joblib := Some scaler;
              windows_npy := windows_npy dir; labels_npy := labels_npy dir;
              aggregates_csv := aggregates_csv dir |}, Raise ValueError)) /\
     (Forall (fun df => Forall Vocabulary.blank (rows df)) frames ->
      main sqrt frames dir = (dir, Raise ValueError))).
Proof.
  split; [reflexivity |].
  intros frames Hne Hshort.
  destruct (device_loop_short sqrt frames
              {| concat_for_scaler := []; all_windows := [];
                 all_labels := []; agg_rows := [] |} Hshort) as [aggs Hloop].
  assert (Hmain : forall imputer concat_imp,
             imputer_fit (concat (map values frames)) = Ok imputer ->
             imputer_transform imputer (concat (map values frames)) = Ok concat_imp ->
             main sqrt frames dir
             = match scaler_fit concat_imp with
               | Ok scaler =>
                   ({| imputer_joblib := Some imputer; scaler_joblib := Some scaler;
                       windows_npy := windows_npy dir; labels_npy := labels_npy dir;
                       aggregates_csv := aggregates_csv dir |}, Raise ValueError)
               | Raise e => (dir, Raise e)
               end).
  { intros imputer concat_imp Hfit Himp.
    unfold main. unfold Py.bind at 1. unfold Py.lift at 1. rewrite Hloop.
    cbn [concat_for_scaler all_windows all_labels agg_rows app].
    destruct frames as [| df frames]; [congruence |].
    cbn [map] in *. unfold Py.bind, Py.lift. rewrite Hfit, Himp.
    destruct (scaler_fit concat_imp); reflexivity. }
  (* the concatenated frame: at least one row, every row four cells *)
  destruct (concat (map values frames)) as [| row X] eqn:HX.
  { exfalso. destruct frames as [| df frames]; [congruence |].
    inversion Hshort as [| ? ? Hlen _]; subst. simpl in HX.
    pose proof (values_length df) as Hv.
    destruct (values df); [simpl in Hv; lia | discriminate HX]. }
  assert (Hrows : forall r, In r (row :: X) ->
            exists df b, In df frames /\ In b (rows df)
                         /\ r = [temperature b; vibration b; rpm b; humidity b]).
  { intros r Hr. rewrite <- HX in Hr. apply concat_values_rows, Hr. }
  assert (Hwide : forall r, In r (row :: X) -> length r = 4%nat).
  { intros r Hr. destruct (Hrows r Hr) as (df & b & _ & _ & ->). reflexivity. }
  pose proof (imputer_fit_four row X (Hwide row (or_introl eq_refl))) as Hfit.
  set (imputer := {| statistics_ := _ |}) in Hfit.
  assert (Himp : imputer_transform imputer (row :: X)
                 = Ok (map (impute_row (statistics_ imputer)) (row :: X))).
  { unfold imputer_transform.
    rewrite check_array_ok by (rewrite (Hwide row (or_introl eq_refl)); lia).
    cbn [rbind n_features]. rewrite (Hwide row (or_introl eq_refl)). reflexivity. }
  rewrite (Hmain imputer _ Hfit Himp).
  split.
  - (* some value observed: the scaler is fit on at least one column *)
    intros Hobs. exists imputer.
    assert (Hcount : (0 < length (observed (statistics_ imputer)))%nat).
    { apply Exists_exists in Hobs as (df & Hdf & Hb).
      apply Exists_exists in Hb as (b & Hb & Hnb).
      apply list_elem_of_In in Hdf, Hb.
      assert (Hin : In [temperature b; vibration b; rpm b; humidity b] (row :: X)).
      { rewrite <- HX. apply concat_values_rows. exists df, b. repeat split; assumption. }
      assert (Hj : exists j v, (j < 4)%nat
                   /\ nth j [temperature b; vibration b; rpm b; humidity b] None = Some v).
      { unfold Vocabulary.blank in Hnb.
        destruct (temperature b) as [v |] eqn:H0; [exists 0%nat, v; split; [lia | reflexivity] |].
        destruct (vibration b) as [v |] eqn:H1; [exists 1%nat, v; split; [lia | reflexivity] |].
        destruct (rpm b) as [v |] eqn:H2; [exists 2%nat, v; split; [lia | reflexivity] |].
        destruct (humidity b) as [v |] eqn:H3; [exists 3%nat, v; split; [lia | reflexivity] |].
        exfalso. apply Hnb. repeat split; reflexivity. }
      destruct Hj as (j & v & Hj & Hv).
      assert (Hcol : observed (column_at j (row :: X) None) <> []).
      { apply (observed_In _ v). unfold column_at. rewrite <- Hv.
        apply (in_map (fun r => nth j r None)). exact Hin. }
      unfold imputer. cbn [statistics_].
      do 4 (destruct j as [| j];
            [cbn [map];
             destruct (observed (column_at _ (row :: X) None)); [congruence |];
             repeat match goal with
                    | |- context [match ?o with [] => None | _ => _ end] => destruct o
                    end; simpl; lia |]).
      lia. }
    assert (Hscaler : exists scaler,
               scaler_fit (map (impute_row (statistics_ imputer)) (row :: X)) = Ok scaler).
    { unfold scaler_fit. cbn [map]. rewrite check_array_ok; [eexists; reflexivity |].
      rewrite impute_row_count; [exact Hcount |].
      rewrite (Hwide row (or_introl eq_refl)). reflexivity. }
    destruct Hscaler as [scaler ->]. exists scaler. reflexivity.
  - (* nothing observed: the imputer drops every column *)
    intros Hblank.
    assert (Hnone : forall j, observed (column_at j (row :: X) None) = []).
    { intros j. apply observed_none. unfold column_at. apply Forall_forall.
      intros x Hx. apply list_elem_of_In, in_map_iff in Hx as (r & <- & Hr).
      destruct (Hrows r Hr) as (df & b & Hdf & Hb & ->).
      rewrite Forall_forall in Hblank.
      pose proof (Hblank df (proj2 (list_elem_of_In _ _) Hdf)) as Hdfb.
      rewrite Forall_forall in Hdfb.
      destruct (Hdfb b (proj2 (list_elem_of_In _ _) Hb)) as (H0 & H1 & H2 & H3).
      rewrite H0, H1, H2, H3.
      do 4 (destruct j as [| j]; [reflexivity |]). destruct j; reflexivity. }
    assert (Hstats : statistics_ imputer = [None; None; None; None]).
    { unfold imputer. cbn [statistics_ map]. rewrite !Hnone. reflexivity. }
    rewrite Hstats. cbn [map].
    replace (impute_row [None; None; None; None] row) with (@nil Q).
    2:{ pose proof (Hwide row (or_introl eq_refl)) as Hr.
        destruct row as [| ? [| ? [| ? [| ? [| ? ?]]]]]; try discriminate Hr. reflexivity. }
    reflexivity.
Qed.

Lemma main_without_windows_witness :
  let frames := [Samples.short_frame] in
  frames <> [] /\
  Forall (fun df => (0 < length (rows df) < 60)%nat) frames /\
  Exists (fun df => Exists (fun b => ~ Vocabulary.blank b) (rows df)) frames /\
  exists imputer scaler,
    main (fun x => x) frames empty_dir
    = ({| imputer_joblib := Some imputer; scaler_joblib := Some scaler;
          windows_npy := None; labels_npy := None; aggregates_csv := None |},
       Raise ValueError).
Proof.
  intros frames.
  assert (Hne : frames <> []) by discriminate.
  assert (Hshort : Forall (fun df => (0 < length (rows df) < 60)%nat) frames).
  { constructor; [simpl; lia | constructor]. }
  assert (Hobs : Exists (fun df => Exists (fun b => ~ Vocabulary.blank b) (rows df)) frames).
  { constructor. constructor. intros (_ & H & _). discriminate H. }
  split; [exact Hne |]. split; [exact Hshort |]. split; [exact Hobs |].
  exact (proj1 (proj2 (main_without_windows (fun x => x) empty_dir) frames Hne Hshort) Hobs).
Defined.

End MainEdges.

(* ================================================================== *)
(** * The prediction endpoints                                         *)
(* ================================================================== *)

Section RouteFacts.
Import Np Sklearn Fusion Predict Routes.
Local Open Scope nat_scope.

Lemma wrapper_returns (import_ok : bool) env window agg g :
  exists g' res,
    predict_from_window_and_agg (if import_ok then imported env else import_failed)
      window agg g = (g', Ok res).
Proof.
  destruct import_ok; [| eexists _, _; reflexivity].
  destruct (adapt_window window) as [w | e] eqn:Hw.
  - destruct (predict_fusion env w agg g) as [g1 [r | e]] eqn:Hf.
    + rewrite (wrapper_fusion_ok _ _ _ _ _ _ _ Hw Hf). eauto.
    + rewrite (wrapper_fusion_raise _ _ _ _ _ _ _ Hw Hf). eauto.
  - rewrite (wrapper_adapt_raise _ _ _ _ _ Hw). eauto.
Qed.

(** The fusion endpoint.  With both fields present the request always
    succeeds and returns the dictionary of the service wrapper, degraded
    or not.  With a field missing the 400 that the body raises is caught
    by its own handler: the client gets a 500 whose detail is the text of
    that 400, and the model handles are not touched.  No other outcome
    exists. *)
Theorem fusion_endpoint_outcomes str_http (import_ok : bool) env payload g :
  let binding := if import_ok then imported env else import_failed in
  (forall w a, window payload = Some w -> agg payload = Some a ->
     exists g' res,
       predict_fusion_endpoint str_http binding payload g = (g', Returned res) /\
       predict_from_window_and_agg binding w a g = (g', Ok res)) /\
  (window payload = None \/ agg payload = None ->
   predict_fusion_endpoint str_http binding payload g
   = (g, Raised (HTTPException 500
                   (str_http 400 "Both 'window' and 'agg' required")))) /\
  (forall g' e, predict_fusion_endpoint str_http binding payload g = (g', Raised e) ->
                exists detail, e = HTTPException 500 detail).
Proof.
  intros binding. unfold predict_fusion_endpoint. split; [| split].
  - intros w a -> ->.
    destruct (wrapper_returns import_ok env w a g) as (g' & res & Hrun).
    fold binding in Hrun. rewrite Hrun. eauto.
  - intros [Hw | Ha].
    + rewrite Hw. reflexivity.
    + rewrite Ha. destruct (window payload); reflexivity.
  - intros g' e.
    destruct (window payload) as [w |]; [destruct (agg payload) as [a |] |].
    + destruct (wrapper_returns import_ok env w a g) as (g1 & res & Hrun).
      fold binding in Hrun. rewrite Hrun. discriminate.
    + intros [= _ <-]. eauto.
    + intros [= _ <-]. eauto.
Qed.

(** The sequence-model endpoint checks for the window before its
    [try]: a missing window is answered with a 400 and nothing is
    loaded; with a window the outcome is a probability or a 500, and it
    is a 500 whenever the import failed, an artifact is missing or the
    rows have different lengths. *)
Theorem lstm_endpoint_outcomes str_http (import_ok : bool) env payload g :
  (window payload = None ->
   predict_lstm_only str_http import_ok env payload g
   = (g, Raised (HTTPException 400 "window required"))) /\
  (forall w, window payload = Some w ->
     exists g' o,
       predict_lstm_only str_http import_ok env payload g = (g', o) /\
       ((exists p, o = Returned p) \/ (exists detail, o = Raised (HTTPException 500 detail))) /\
       ((import_ok = false \/ Vocabulary.artifact_unavailable env g
         \/ Np.array w = Raise ValueError) ->
        exists detail, o = Raised (HTTPException 500 detail))).
Proof.
  unfold predict_lstm_only. split; [intros ->; reflexivity |].
  intros w ->. destruct import_ok.
  2:{ eexists _, _. split; [reflexivity |]. simpl. eauto. }
  unfold lstm_predict_prob_list.
  pose proof (load_all_cases env g) as Hcases.
  unfold Py.bind at 1.
  destruct (load_all env g) as [g' r].
  destruct Hcases as [_ [[Hun ->] | (Hav & _ & ->)]]; unfold Vocabulary.handles_of.
  - unfold Py.bind, Py.lift, Py.raise.
    destruct (Np.array w) as [arr | e]; eexists _, _; (split; [reflexivity |]); simpl; eauto.
  - unfold Py.bind, Py.lift, Py.raise.
    destruct (Np.array w) as [arr | e] eqn:Harr.
    + destruct (_lstm g') as [m |].
      * destruct (m arr) as [p | e]; eexists _, _; (split; [reflexivity |]); simpl;
          (split; [eauto |]); intros [Hno | [Hun | Hbad]];
          try discriminate Hno; try contradiction; try discriminate Hbad; eauto.
      * eexists _, _. split; [reflexivity |]. simpl. eauto.
    + eexists _, _. split; [reflexivity |]. simpl. eauto.
Qed.

End RouteFacts.

(* ================================================================== *)
(** * Aggregates of the demo and of the training script                *)
(* ================================================================== *)

Section AggregateConsistency.
Import Np Sklearn Fusion.
Local Open Scope Q_scope.

Lemma nth_map_Some (r : list Q) (f : nat) :
  (f < length r)%nat -> nth f (map Some r) None = Some (nth f r 0).
Proof.
  revert f. induction r as [| x r IH]; intros f Hf; [simpl in Hf; lia |].
  destruct f; [reflexivity |]. simpl. apply IH. simpl in Hf. lia.
Qed.

Lemma valid_series_complete (rows : list (list Q)) (c f : nat) :
  Vocabulary.uniform c rows -> (f < c)%nat ->
  TrainRf.valid_series (map (map Some) rows) f = map (fun r => nth f r 0) rows.
Proof.
  intros Hc Hf. unfold TrainRf.valid_series, observed.
  induction Hc as [| r rows Hr _ IH]; [reflexivity |].
  simpl. rewrite nth_map_Some by lia. simpl. f_equal. exact IH.
Qed.

(** The demo computes its aggregates the way the classifier was
    trained.  For a window of at least one row of 4 readings,
    calculate_aggregates returns a mapping that holds each of the
    twenty feature names of the tabular step, so that no 0.0 default is
    used, and the vector the tabular step assembles from it is the
    feature row the training script computes for the same window. *)
Theorem demo_features_match_training sqrt (rows : list (list Q)) :
  rows <> [] -> Vocabulary.uniform 4 rows ->
  exists agg,
    DemoAggregates.calculate_aggregates sqrt (Arr2 4 rows) = Ok agg /\
    (forall name, In name feature_names -> is_Some (agg !! name)) /\
    feature_vector agg = TrainRf.window_features sqrt 4 (map (map Some) rows).
Proof.
  intros Hne Hc.
  unfold TrainRf.window_features. simpl flat_map.
  rewrite !(valid_series_complete rows 4) by (exact Hc || lia).
  destruct rows as [| r rs]; [congruence |].
  unfold DemoAggregates.calculate_aggregates. simpl.
  eexists. split; [reflexivity |]. split.
  - intros name Hin. simpl in Hin.
    repeat (destruct Hin as [<- | Hin]; [eexists; reflexivity |]). contradiction.
  - reflexivity.
Qed.

Lemma demo_features_match_training_witness :
  let rows := Samples.flat_window 3 4 in
  rows <> [] /\ Vocabulary.uniform 4 rows /\
  exists agg,
    DemoAggregates.calculate_aggregates (fun x => x) (Arr2 4 rows) = Ok agg /\
    (forall name, In name feature_names -> is_Some (agg !! name)) /\
    feature_vector agg = TrainRf.window_features (fun x => x) 4 (map (map Some) rows).
Proof.
  intros rows.
  assert (Hne : rows <> []) by discriminate.
  assert (Hc : Vocabulary.uniform 4 rows) by (repeat constructor).
  split; [exact Hne |]. split; [exact Hc |].
  exact (demo_features_match_training (fun x => x) rows Hne Hc).
Defined.

(** Where calculate_aggregates fails: a one-dimensional array and a
    window with rows of fewer than 4 columns are an IndexError, a window
    of one or more columns without rows is a ValueError. *)
Theorem calculate_aggregates_errors sqrt :
  (forall xs, DemoAggregates.calculate_aggregates sqrt (Arr1 xs) = Raise IndexError) /\
  (forall c rows, (c < 4)%nat -> rows <> [] ->
     DemoAggregates.calculate_aggregates sqrt (Arr2 c rows) = Raise IndexError) /\
  (forall c, (1 <= c)%nat ->
     DemoAggregates.calculate_aggregates sqrt (Arr2 c []) = Raise ValueError) /\
  DemoAggregates.calculate_aggregates sqrt (Arr2 0 []) = Raise IndexError.
Proof.
  split; [intros xs; reflexivity |]. split; [| split; [| reflexivity]].
  - intros c rows Hc Hne. destruct rows as [| r rs]; [congruence |].
    do 4 (destruct c as [| c]; [reflexivity |]). lia.
  - intros c Hc. destruct c; [lia | reflexivity].
Qed.

Lemma channel_features_length sqrt valid :
  length (TrainRf.channel_features sqrt valid) = 5%nat.
Proof. destruct valid; reflexivity. Qed.

Lemma window_features_length sqrt n w :
  length (TrainRf.window_features sqrt n w) = (5 * n)%nat.
Proof.
  unfold TrainRf.window_features.
  assert (H : forall l : list nat,
             length (flat_map (fun f => TrainRf.channel_features sqrt
                                          (TrainRf.valid_series w f)) l)
             = (5 * length l)%nat).
  { induction l as [| f l IH]; [reflexivity |].
    simpl flat_map. rewrite length_app, channel_features_length, IH. simpl. lia. }
  rewrite H, length_seq. reflexivity.
Qed.

Lemma flat_map_block {A} (g : nat -> list A) (l : list nat) (f x : nat) :
  (forall i, length (g i) = 5%nat) -> l !! f = Some x ->
  firstn 5 (skipn (5 * f) (flat_map g l)) = g x.
Proof.
  intros Hg. revert f. induction l as [| y l IH]; intros f Hf; [discriminate Hf |].
  destruct f as [| f].
  - injection Hf as ->. cbn [flat_map]. replace (5 * 0)%nat with 0%nat by lia.
    rewrite drop_0. apply take_app_length'. symmetry. apply Hg.
  - simpl in Hf. cbn [flat_map].
    replace (5 * S f)%nat with (length (g y) + 5 * f)%nat by (rewrite Hg; lia).
    rewrite drop_app_add. apply IH. exact Hf.
Qed.

(** The frame the training script builds from windows of 4 channels:
    one row of 20 features per window and the labels beside them; its
    feature columns are, name for name and in order, the feature names
    of the scorer's tabular step; a channel without any observed value
    contributes five zeros.  With another channel count and at least
    one window the frame cannot be built. *)
Theorem create_aggregated_features_frame sqrt windows labels :
  length labels = length windows ->
  (exists df,
     TrainRf.create_aggregated_features sqrt 4 windows labels = Ok df /\
     TrainRf.X_cols df = Fusion.feature_names /\
     length (TrainRf.frame_rows df) = length windows /\
     Forall (fun row => length row = 20%nat) (TrainRf.frame_rows df) /\
     TrainRf.frame_label df = labels) /\
  (forall w f, (f < 4)%nat -> TrainRf.valid_series w f = [] ->
     firstn 5 (skipn (5 * f) (TrainRf.window_features sqrt 4 w)) = [0; 0; 0; 0; 0]) /\
  (forall n, n <> 4%nat -> windows <> [] ->
     TrainRf.create_aggregated_features sqrt n windows labels = Raise ValueError).
Proof.
  intros Hlen. split; [| split].
  - unfold TrainRf.create_aggregated_features.
    replace (forallb _ (map (TrainRf.window_features sqrt 4) windows)) with true.
    2:{ symmetry. apply forallb_forall. intros row Hin. apply in_map_iff in Hin.
        destruct Hin as (w & <- & _). rewrite window_features_length. reflexivity. }
    rewrite length_map, Hlen, Nat.eqb_refl.
    eexists. split; [reflexivity |]. simpl.
    split; [reflexivity |]. split; [apply length_map |]. split; [| reflexivity].
    apply Forall_forall. intros row Hin. apply list_elem_of_In, in_map_iff in Hin.
    destruct Hin as (w & <- & _). apply window_features_length.
  - intros w f Hf Hnone. unfold TrainRf.window_features.
    rewrite (flat_map_block _ (seq 0 4) f f).
    + rewrite Hnone. reflexivity.
    + intros i. apply channel_features_length.
    + apply lookup_seq_lt. exact Hf.
  - intros n Hn Hne. unfold TrainRf.create_aggregated_features.
    destruct windows as [| w ws]; [congruence |]. simpl map. simpl forallb.
    rewrite window_features_length.
    change (length TrainRf.columns) with 20%nat.
    destruct (Nat.eqb_spec (5 * n) 20) as [Heq | _]; [lia | reflexivity].
Qed.

Lemma create_aggregated_features_frame_witness :
  let windows := [map (map Some) (Samples.flat_window 3 4)] in
  let labels := [1%Z] in
  length labels = length windows /\
  ((exists df,
      TrainRf.create_aggregated_features (fun x => x) 4 windows labels = Ok df /\
      TrainRf.X_cols df = Fusion.feature_names /\
      length (TrainRf.frame_rows df) = length windows /\
      Forall (fun row => length row = 20%nat) (TrainRf.frame_rows df) /\
      TrainRf.frame_label df = labels) /\
   (forall w f, (f < 4)%nat -> TrainRf.valid_series w f = [] ->
      firstn 5 (skipn (5 * f) (TrainRf.window_features (fun x => x) 4 w))
      = [0; 0; 0; 0; 0]) /\
   (forall n, n <> 4%nat -> windows <> [] ->
      TrainRf.create_aggregated_features (fun x => x) n windows labels
      = Raise ValueError)).
Proof.
  intros windows labels.
  assert (Hlen : length labels = length windows) by reflexivity.
  split; [exact Hlen |].
  exact (create_aggregated_features_frame (fun x => x) windows labels Hlen).
Defined.

End AggregateConsistency.

(* ================================================================== *)
(** * The resampler                                                    *)
(* ================================================================== *)

Section ResampleFacts.
Import Np Sklearn Preprocess Resample.
Local Open Scope Z_scope.

Lemma fold_min_bounds (l : list Z) (a : Z) :
  In (fold_left Z.min l a) (a :: l) /\ Forall (fun x => fold_left Z.min l a <= x) (a :: l).
Proof.
  revert a. induction l as [| x l IH]; intros a.
  - split; [left; reflexivity |]. repeat constructor. simpl. lia.
  - simpl fold_left. destruct (IH (Z.min a x)) as [Hin Hall]. split.
    + destruct Hin as [Heq | Hin]; [| right; right; exact Hin].
      rewrite <- Heq. destruct (Z.min_spec a x) as [[_ ->] | [_ ->]];
        [left | right; left]; reflexivity.
    + inversion Hall as [| ? ? Hm Hl]; subst.
      constructor; [lia |]. constructor; [lia | exact Hl].
Qed.

Lemma div_interval (rule t q : Z) :
  0 < rule -> (q * rule <= t < (q + 1) * rule <-> t / rule = q).
Proof.
  intros Hrule. split.
  - intros H. symmetry. apply (Z.div_unique t rule q (t - q * rule)); lia.
  - intros <-. pose proof (Z.div_mod t rule ltac:(lia)).
    pose proof (Z.mod_pos_bound t rule Hrule). lia.
Qed.

Lemma in_bin_In rule o b rs r :
  In r (in_bin rule o b rs) <-> In r rs /\ bin_of rule o (timestamp r) = b.
Proof. unfold in_bin. rewrite filter_In, Z.eqb_eq. reflexivity. Qed.

(** A bin, as an interval of timestamps. *)
Lemma bin_of_interval (rule o t q : Z) :
  0 < rule -> (o + q * rule <= t < o + (q + 1) * rule <-> bin_of rule o t = q).
Proof.
  intros Hrule. unfold bin_of. rewrite <- (div_interval rule (t - o) q Hrule). lia.
Qed.

Lemma bin_of_mono (rule o a b : Z) :
  0 < rule -> a <= b -> bin_of rule o a <= bin_of rule o b.
Proof. intros Hrule Hab. unfold bin_of. apply Z.div_le_mono; lia. Qed.

(** The origin is the midnight before the earliest reading. *)
Lemma origin_earliest (rs : list Reading) first :
  In first rs -> (forall r, In r rs -> timestamp first <= timestamp r) ->
  origin rs = Vocabulary.midnight (timestamp first).
Proof.
  intros Hin Hmin. unfold origin, Vocabulary.midnight.
  destruct rs as [| r0 rs]; [contradiction |]. cbn [map].
  destruct (fold_min_bounds (map timestamp rs) (timestamp r0)) as [Hmem Hall].
  change (timestamp r0 :: map timestamp rs) with (map timestamp (r0 :: rs)) in Hmem, Hall.
  apply in_map_iff in Hmem as (rmin & Heq & Hrmin).
  rewrite Forall_forall in Hall.
  assert (Hle : fold_left Z.min (map timestamp rs) (timestamp r0) <= timestamp first).
  { apply Hall, list_elem_of_In, in_map, Hin. }
  pose proof (Hmin rmin Hrmin) as Hge.
  replace (fold_left Z.min (map timestamp rs) (timestamp r0)) with (timestamp first) by lia.
  reflexivity.
Qed.

(** The bins of a non-empty frame: consecutive from the lowest bin of a
    reading to the highest. *)
Lemma bin_range_bounds rule o (rs : list Reading) :
  rs <> [] ->
  exists lo hi,
    bin_range rule o rs = map (fun k => lo + Z.of_nat k) (seq 0 (Z.to_nat (hi - lo + 1))) /\
    lo <= hi /\
    (exists r, In r rs /\ bin_of rule o (timestamp r) = lo) /\
    (exists r, In r rs /\ bin_of rule o (timestamp r) = hi) /\
    (forall r, In r rs -> lo <= bin_of rule o (timestamp r) <= hi).
Proof.
  intros Hne. unfold bin_range.
  destruct rs as [| r0 rs]; [congruence |]. cbn [map].
  set (b := bin_of rule o (timestamp r0)).
  set (bs := map (fun r => bin_of rule o (timestamp r)) rs).
  destruct (fold_min_bounds bs b) as [Hlo_in Hlo].
  destruct (fold_max_is_max bs b) as [Hhi_in Hhi].
  exists (fold_left Z.min bs b), (fold_left Z.max bs b).
  assert (Hmem : forall x, In x (b :: bs) ->
                   exists r, In r (r0 :: rs) /\ bin_of rule o (timestamp r) = x).
  { intros x [<- | Hx]; [exists r0; split; [left |]; reflexivity |].
    apply in_map_iff in Hx. destruct Hx as (r & <- & Hr). exists r. split; [right |]; auto. }
  assert (Hbound : forall r, In r (r0 :: rs) ->
                     fold_left Z.min bs b <= bin_of rule o (timestamp r)
                     <= fold_left Z.max bs b).
  { intros r Hr. rewrite Forall_forall in Hlo, Hhi.
    assert (Hin : In (bin_of rule o (timestamp r)) (b :: bs)).
    { destruct Hr as [<- | Hr]; [left; reflexivity | right].
      apply in_map_iff. exists r. split; [reflexivity | exact Hr]. }
    apply list_elem_of_In in Hin. split; [apply Hlo | apply Hhi]; exact Hin. }
  split; [reflexivity |]. split.
  - destruct (Hbound r0 (or_introl eq_refl)). lia.
  - split; [apply Hmem, Hlo_in |]. split; [apply Hmem, Hhi_in | exact Hbound].
Qed.

(** What [resample_device] returns on a non-empty frame. *)
Lemma resample_device_ok df_dev rule :
  readings df_dev <> [] ->
  exists o lo hi r0 df,
    o = origin (readings df_dev) /\
    resample_device df_dev rule = Ok (o + lo * rule, df) /\
    head (readings df_dev) = Some r0 /\
    lo <= hi /\
    (exists r, In r (readings df_dev) /\ bin_of rule o (timestamp r) = lo) /\
    (exists r, In r (readings df_dev) /\ bin_of rule o (timestamp r) = hi) /\
    (forall r, In r (readings df_dev) -> lo <= bin_of rule o (timestamp r) <= hi) /\
    label_column df = true /\
    length (rows df) = Z.to_nat (hi - lo + 1) /\
    (forall k b, rows df !! k = Some b ->
       let rs := in_bin rule o (lo + Z.of_nat k) (readings df_dev) in
       temperature b = bin_mean (map r_temperature rs) /\
       vibration b = bin_mean (map r_vibration rs) /\
       rpm b = bin_mean (map r_rpm rs) /\
       humidity b = bin_mean (map r_humidity rs) /\
       device_id b = r_device_id r0 /\ device_type b = r_device_type r0 /\
       label b = (if raw_label_column df_dev then bin_label (map r_label rs) else 0)).
Proof.
  intros Hne.
  destruct (bin_range_bounds rule (origin (readings df_dev)) (readings df_dev) Hne)
    as (lo & hi & Hbins & Hle & Hlo & Hhi & Hbound).
  unfold resample_device. destruct (readings df_dev) as [| r0 rs] eqn:Hrs; [congruence |].
  rewrite <- Hrs in *. rewrite Hbins.
  exists (origin (readings df_dev)), lo, hi, r0. eexists.
  split; [reflexivity |]. split.
  { f_equal. f_equal. f_equal. f_equal.
    destruct (Z.to_nat (hi - lo + 1)) eqn:Hn; [lia |]. simpl. lia. }
  split; [rewrite Hrs; reflexivity |].
  split; [exact Hle |]. split; [exact Hlo |]. split; [exact Hhi |]. split; [exact Hbound |].
  split; [reflexivity |]. cbn [rows].
  split; [rewrite !length_map, length_seq; reflexivity |].
  intros k b Hk. rewrite !list_lookup_fmap in Hk.
  destruct (seq 0 (Z.to_nat (hi - lo + 1)) !! k) as [j |] eqn:Hj; [| discriminate Hk].
  apply lookup_seq in Hj. destruct Hj as [-> _]. simpl in Hk. injection Hk as <-.
  simpl. repeat split; reflexivity.
Qed.

(** The resampler drops no bin and no reading.  An empty frame is
    refused (IndexError).  Otherwise the frame returned has a label
    column and one row per rule-wide interval, empty intervals
    included: every reading falls in the interval of one of the rows,
    the earliest in that of the first row and the latest in that of the
    last row, which fixes the number of rows; the intervals are counted
    from the midnight before the earliest reading; and all rows carry
    the device identity of the first reading. *)
Theorem resample_device_bins df_dev rule :
  0 < rule ->
  (readings df_dev = [] -> resample_device df_dev rule = Raise IndexError) /\
  (readings df_dev <> [] ->
   exists t0 df,
     resample_device df_dev rule = Ok (t0, df) /\
     label_column df = true /\ rows df <> [] /\
     (forall r, In r (readings df_dev) ->
        exists k, (k < length (rows df))%nat /\ Vocabulary.falls_in rule t0 k r) /\
     (forall first last,
        In first (readings df_dev) -> In last (readings df_dev) ->
        (forall r, In r (readings df_dev) ->
                   timestamp first <= timestamp r <= timestamp last) ->
        Vocabulary.falls_in rule t0 0 first /\
        Vocabulary.falls_in rule t0 (length (rows df) - 1) last /\
        Z.of_nat (length (rows df)) = (timestamp last - t0) / rule + 1 /\
        exists m, 0 <= m /\ t0 = Vocabulary.midnight (timestamp first) + m * rule) /\
     (forall r0 b, head (readings df_dev) = Some r0 -> In b (rows df) ->
        device_id b = r_device_id r0 /\ device_type b = r_device_type r0)).
Proof.
  intros Hrule. split.
  - intros Hnil. unfold resample_device. rewrite Hnil. reflexivity.
  - intros Hne.
    destruct (resample_device_ok df_dev rule Hne)
      as (o & lo & hi & r0 & df & Ho & Hrun & Hhead & Hle & Hlo & Hhi & Hbound
          & Hlab & Hlen & Hrows).
    exists (o + lo * rule), df. split; [exact Hrun |]. split; [exact Hlab |].
    split; [intros Hnil; rewrite Hnil in Hlen; simpl in Hlen; lia |].
    split; [| split].
    + intros r Hr. destruct (Hbound r Hr) as [H1 H2].
      exists (Z.to_nat (bin_of rule o (timestamp r) - lo)). split; [lia |].
      unfold Vocabulary.falls_in.
      pose proof (proj2 (bin_of_interval rule o (timestamp r) _ Hrule) eq_refl) as Hint.
      rewrite Z2Nat.id by lia. nia.
    + intros first last Hfirst Hlast Hext.
      destruct Hlo as (rlo & Hrlo & Hlo). destruct Hhi as (rhi & Hrhi & Hhi).
      assert (Hlo' : bin_of rule o (timestamp first) = lo).
      { pose proof (bin_of_mono rule o _ _ Hrule (proj1 (Hext rlo Hrlo))).
        pose proof (Hbound first Hfirst). lia. }
      assert (Hhi' : bin_of rule o (timestamp last) = hi).
      { pose proof (bin_of_mono rule o _ _ Hrule (proj2 (Hext rhi Hrhi))).
        pose proof (Hbound last Hlast). lia. }
      apply bin_of_interval in Hlo', Hhi'; [| exact Hrule | exact Hrule].
      assert (Horigin : o = Vocabulary.midnight (timestamp first)).
      { rewrite Ho. apply origin_earliest; [exact Hfirst |].
        intros r Hr. apply (Hext r Hr). }
      assert (Hpos : 0 <= lo).
      { assert (Hmid : o <= timestamp first).
        { rewrite Horigin. unfold Vocabulary.midnight.
          pose proof (Z.mul_div_le (timestamp first) 86400000000000 ltac:(lia)). lia. }
        destruct (Z_lt_le_dec lo 0) as [Hneg | Hok]; [| exact Hok]. nia. }
      unfold Vocabulary.falls_in. rewrite Hlen.
      replace (Z.of_nat (Z.to_nat (hi - lo + 1) - 1)) with (hi - lo) by lia.
      rewrite Z2Nat.id by lia.
      split; [simpl Z.of_nat; lia |]. split; [lia |]. split.
      * assert (Hq : (timestamp last - (o + lo * rule)) / rule = hi - lo).
        { apply div_interval; [exact Hrule | lia]. }
        rewrite Hq. lia.
      * exists lo. split; [exact Hpos |]. rewrite <- Horigin. reflexivity.
    + intros r0' b Hhead' Hb. rewrite Hhead in Hhead'. injection Hhead' as <-.
      apply list_elem_of_In, list_elem_of_lookup in Hb. destruct Hb as [k Hk].
      destruct (Hrows k b Hk) as (_ & _ & _ & _ & Hid & Hty & _). split; assumption.
Qed.

(** With a rule of seven minutes, readings at 00:06 and 00:08 of the
    day after the epoch fall in two rows, counted from midnight. *)
Lemma resample_device_bins_witness :
  let rule := 7 * 60 * 1000000000 in
  let df_dev := MoreSamples.next_day_frame in
  0 < rule /\
  (exists df, resample_device df_dev rule = Ok (86400 * 1000000000, df)
              /\ length (rows df) = 2%nat) /\
  ((readings df_dev = [] -> resample_device df_dev rule = Raise IndexError) /\
   (readings df_dev <> [] ->
    exists t0 df,
      resample_device df_dev rule = Ok (t0, df) /\
      label_column df = true /\ rows df <> [] /\
      (forall r, In r (readings df_dev) ->
         exists k, (k < length (rows df))%nat /\ Vocabulary.falls_in rule t0 k r) /\
      (forall first last,
         In first (readings df_dev) -> In last (readings df_dev) ->
         (forall r, In r (readings df_dev) ->
                    timestamp first <= timestamp r <= timestamp last) ->
         Vocabulary.falls_in rule t0 0 first /\
         Vocabulary.falls_in rule t0 (length (rows df) - 1) last /\
         Z.of_nat (length (rows df)) = (timestamp last - t0) / rule + 1 /\
         exists m, 0 <= m /\ t0 = Vocabulary.midnight (timestamp first) + m * rule) /\
      (forall r0 b, head (readings df_dev) = Some r0 -> In b (rows df) ->
         device_id b = r_device_id r0 /\ device_type b = r_device_type r0))).
Proof.
  intros rule df_dev.
  assert (Hrule : 0 < rule) by reflexivity.
  split; [exact Hrule |].
  split; [eexists; split; vm_compute; reflexivity |].
  exact (resample_device_bins df_dev rule Hrule).
Defined.

Lemma present_values {A B} (f : A -> option B) (rs : list A) (v : B) :
  In v (omap id (map f rs)) <-> exists r, In r rs /\ f r = Some v.
Proof.
  induction rs as [| r rs IH]; simpl.
  - split; [contradiction | intros (r & [] & _)].
  - destruct (f r) as [x |] eqn:Hf; simpl.
    + rewrite IH. split.
      * intros [<- | (r' & Hr' & Hv)]; [exists r; auto | exists r'; auto].
      * intros (r' & [<- | Hr'] & Hv); [left; congruence | right; eauto].
    + change (omap id (map f rs)) with (omap id (map f rs)). rewrite IH. split.
      * intros (r' & Hr' & Hv). exists r'. auto.
      * intros (r' & [<- | Hr'] & Hv); [congruence | eauto].
Qed.

Lemma present_values_id {B} (xs : list (option B)) (v : B) :
  In v (omap id xs) <-> In (Some v) xs.
Proof.
  rewrite <- (map_id xs) at 1. rewrite present_values. split.
  - intros (x & Hx & Hv). simpl in Hv. subst x. exact Hx.
  - intros Hx. exists (Some v). auto.
Qed.

Lemma omap_nil_none {B} (xs : list (option B)) :
  omap id xs = [] <-> forall x, In x xs -> x = None.
Proof.
  split.
  - intros Hnil x Hx. destruct x as [v |]; [| reflexivity].
    apply present_values_id in Hx. rewrite Hnil in Hx. contradiction.
  - intros H. destruct (omap id xs) as [| v vs] eqn:Hobs; [reflexivity |].
    assert (Hin : In v (omap id xs)) by (rewrite Hobs; left; reflexivity).
    apply present_values_id in Hin. apply H in Hin. discriminate Hin.
Qed.

Lemma bin_mean_none (xs : list (option Q)) :
  bin_mean xs = None <-> forall x, In x xs -> x = None.
Proof.
  rewrite <- omap_nil_none. unfold bin_mean, observed.
  destruct (omap id xs); split; intros H; congruence.
Qed.

Lemma bin_label_spec (ls : list (option Z)) :
  ((forall x, In x ls -> x = None) -> bin_label ls = 0) /\
  (forall l, In (Some l) ls -> l <= bin_label ls /\ In (Some (bin_label ls)) ls).
Proof.
  unfold bin_label. split.
  - intros H. apply omap_nil_none in H. rewrite H. reflexivity.
  - intros l Hl. apply present_values_id in Hl.
    destruct (omap id ls) as [| v vs] eqn:Hobs; [contradiction |].
    destruct (fold_max_is_max vs v) as [Hmem Hall]. split.
    + rewrite Forall_forall in Hall. apply Hall, list_elem_of_In, Hl.
    + apply present_values_id. rewrite Hobs. exact Hmem.
Qed.

(** What a resampled bin holds.  Its label is the highest label among
    the readings of its interval, and 0 when none of them has one (or
    the frame has no label column); a channel is missing in the bin
    exactly when no reading of the interval has a value for it. *)
Theorem resample_device_bin_contents df_dev rule t0 df k b :
  0 < rule ->
  resample_device df_dev rule = Ok (t0, df) -> rows df !! k = Some b ->
  let here := fun r => In r (readings df_dev) /\ Vocabulary.falls_in rule t0 k r in
  (raw_label_column df_dev = false -> label b = 0) /\
  (raw_label_column df_dev = true ->
   ((forall r, here r -> r_label r = None) -> label b = 0) /\
   (forall r l, here r -> r_label r = Some l ->
      l <= label b /\ exists r', here r' /\ r_label r' = Some (label b))) /\
  (forall c, In c AGG_FEATURES ->
     (cell c b = None <-> forall r, here r -> r_cell c r = None)).
Proof.
  intros Hrule Hrun Hk here.
  assert (Hne : readings df_dev <> []).
  { intros Hnil. unfold resample_device in Hrun. rewrite Hnil in Hrun. discriminate Hrun. }
  destruct (resample_device_ok df_dev rule Hne)
    as (o & lo & hi & r0 & df' & _ & Hrun' & _ & _ & _ & _ & _ & _ & _ & Hrows).
  rewrite Hrun' in Hrun. injection Hrun as <- <-.
  destruct (Hrows k b Hk) as (Ht & Hv & Hr & Hh & _ & _ & Hl). clear Hrows.
  set (rs := in_bin rule o (lo + Z.of_nat k) (readings df_dev)) in *.
  assert (Hhere : forall r, In r rs <-> here r).
  { intros r. unfold rs, here, Vocabulary.falls_in. rewrite in_bin_In.
    rewrite <- (bin_of_interval rule o (timestamp r) (lo + Z.of_nat k) Hrule).
    split; intros [H1 H2]; (split; [exact H1 | lia]). }
  assert (Hmap : forall {B} (f : Reading -> option B) x,
             In x (map f rs) <-> exists r, here r /\ f r = x).
  { intros B f x. rewrite in_map_iff. split; intros (r & H1 & H2); exists r.
    - split; [apply Hhere; exact H2 | exact H1].
    - split; [exact H2 | apply Hhere; exact H1]. }
  split; [intros Hno; rewrite Hl, Hno; reflexivity |]. split.
  - intros Hyes. rewrite Hl, Hyes.
    destruct (bin_label_spec (map r_label rs)) as [Hzero Hmax]. split.
    + intros Hall. apply Hzero. intros x Hx. apply Hmap in Hx.
      destruct Hx as (r & Hr' & <-). apply Hall, Hr'.
    + intros r l Hr' Hlab.
      destruct (Hmax l) as [Hle Hin]; [apply Hmap; exists r; auto |].
      split; [exact Hle |]. apply Hmap in Hin. exact Hin.
  - intros c Hc.
    assert (Hcell : cell c b = bin_mean (map (r_cell c) rs)).
    { simpl in Hc. destruct Hc as [<- | [<- | [<- | [<- | []]]]]; assumption. }
    rewrite Hcell, bin_mean_none. split.
    + intros Hall r Hr'. apply Hall, Hmap. exists r. auto.
    + intros Hall x Hx. apply Hmap in Hx. destruct Hx as (r & Hr' & <-). apply Hall, Hr'.
Qed.

Lemma resample_device_bin_contents_witness :
  let rule := 7 * 60 * 1000000000 in
  let t0 := 86400 * 1000000000 in
  let df_dev := MoreSamples.next_day_frame in
  let df := MoreSamples.resampled_next_day in
  let b := {| temperature := Some 27%Q; vibration := None;
              rpm := Some 1500%Q; humidity := Some 60%Q;
              device_id := "pump_alpha"; device_type := "pump"; label := 1 |} in
  0 < rule /\
  resample_device df_dev rule = Ok (t0, df) /\
  rows df !! 1%nat = Some b /\
  let here := fun r => In r (readings df_dev) /\ Vocabulary.falls_in rule t0 1 r in
  (raw_label_column df_dev = false -> label b = 0) /\
  (raw_label_column df_dev = true ->
   ((forall r, here r -> r_label r = None) -> label b = 0) /\
   (forall r l, here r -> r_label r = Some l ->
      l <= label b /\ exists r', here r' /\ r_label r' = Some (label b))) /\
  (forall c, In c AGG_FEATURES ->
     (cell c b = None <-> forall r, here r -> r_cell c r = None)).
Proof.
  intros rule t0 df_dev df b.
  assert (Hrule : 0 < rule) by reflexivity.
  assert (Hout : resample_device df_dev rule = Ok (t0, df))
    by (vm_compute; reflexivity).
  assert (Hk : rows df !! 1%nat = Some b) by reflexivity.
  split; [exact Hrule |]. split; [exact Hout |]. split; [exact Hk |].
  exact (resample_device_bin_contents df_dev rule t0 df 1 b Hrule Hout Hk).
Defined.

(** After a successful resampling the two consumers cannot fail: the
    aggregator returns one row per bin with the bin's label, and the
    windower returns its windows with labels read from the label column
    that the resampler always writes. *)
Theorem resample_then_aggregate sqrt df_dev rule t0 df :
  resample_device df_dev rule = Ok (t0, df) ->
  (exists agg,
     aggregate_features sqrt df = Ok agg /\
     length agg = length (rows df) /\
     forall k b, rows df !! k = Some b ->
       exists row, agg !! k = Some row /\ agg_label row = label b) /\
  (exists ws ls,
     extract_windows df WINDOW_SIZE MIN_VALID_RATIO = Ok (ws, ls) /\
     labels_of df = map label (rows df)).
Proof.
  intros Hrun.
  assert (Hne : readings df_dev <> []).
  { intros Hnil. unfold resample_device in Hrun. rewrite Hnil in Hrun. discriminate Hrun. }
  destruct (resample_device_ok df_dev rule Hne)
    as (o & lo & hi & r0 & df' & _ & Hrun' & _ & Hle & _ & _ & _ & Hlab & Hlen & _).
  rewrite Hrun' in Hrun. injection Hrun as <- <-.
  assert (Hrows : rows df' <> []).
  { intros Hnil. rewrite Hnil in Hlen. simpl in Hlen. lia. }
  split.
  - unfold aggregate_features. destruct (rows df') as [| b0 bs] eqn:Hb; [congruence |].
    rewrite <- Hb. eexists. split; [reflexivity |].
    split; [rewrite length_map, length_seq; reflexivity |].
    intros k b Hk. eexists. split.
    + rewrite list_lookup_fmap, lookup_seq_lt by (eapply lookup_lt_Some; exact Hk).
      reflexivity.
    + simpl. unfold labels_of. rewrite Hlab.
      apply nth_lookup_Some. rewrite list_lookup_fmap, Hk. reflexivity.
  - assert (HT : (0 < WINDOW_SIZE)%nat) by (unfold WINDOW_SIZE; lia).
    unfold extract_windows. rewrite range_offsets.
    destruct (extract_loop_run df' WINDOW_SIZE MIN_VALID_RATIO
                (seq 0 (length (rows df') + 1 - WINDOW_SIZE)) [] [] HT
                (offsets_fit _ _ HT)) as (ls' & Hloop & _).
    rewrite Hloop. eexists _, _. split; [reflexivity |].
    unfold labels_of. rewrite Hlab. reflexivity.
Qed.

Lemma resample_then_aggregate_witness :
  let df := MoreSamples.resampled in
  resample_device MoreSamples.raw_frame RESAMPLE_RULE = Ok (0, df) /\
  ((exists agg,
      aggregate_features (fun x => x) df = Ok agg /\
      length agg = length (rows df) /\
      forall k b, rows df !! k = Some b ->
        exists row, agg !! k = Some row /\ agg_label row = label b) /\
   (exists ws ls,
      extract_windows df WINDOW_SIZE MIN_VALID_RATIO = Ok (ws, ls) /\
      labels_of df = map label (rows df))).
Proof.
  intros df.
  assert (Hout : resample_device MoreSamples.raw_frame RESAMPLE_RULE = Ok (0, df))
    by (vm_compute; reflexivity).
  split; [exact Hout |].
  exact (resample_then_aggregate (fun x => x) MoreSamples.raw_frame RESAMPLE_RULE 0 df Hout).
Defined.

End ResampleFacts.

(* ================================================================== *)
(** * The window transform on a sample                                 *)
(* ================================================================== *)

Section WindowTransformSample.
Import Np Sklearn Preprocess.

Lemma transform_windows_shape_witness :
  let imputer := {| statistics_ := [Some 25; Some 1; Some 1500; Some 60]%Q |} in
  let scaler := {| center_ := [25; 1; 1500; 60]%Q; scale_ := [2; 1; 100; 5]%Q |} in
  let windows_arr := [values Samples.hour_frame] in
  Forall is_Some (statistics_ imputer) /\
  length (statistics_ imputer) = 4%nat /\
  length (center_ scaler) = 4%nat /\ length (scale_ scaler) = 4%nat /\
  windows_arr <> [] /\
  Forall (fun w => length w = 60%nat /\ Forall (fun row => length row = 4%nat) w)
         windows_arr /\
  exists out,
    transform_windows imputer scaler windows_arr = Ok out /\
    length out = length windows_arr /\
    Forall (fun w => length w = 60%nat /\ Forall (fun row => length row = 4%nat) w) out.
Proof.
  intros imputer scaler windows_arr.
  assert (Hsome : Forall is_Some (statistics_ imputer)) by (repeat constructor; eexists; reflexivity).
  assert (Hne : windows_arr <> []) by discriminate.
  assert (Hshape : Forall (fun w => length w = 60%nat
                                    /\ Forall (fun row => length row = 4%nat) w) windows_arr).
  { constructor; [| constructor]. split; [reflexivity |]. apply values_four_wide. }
  split; [exact Hsome |]. do 3 (split; [reflexivity |]).
  split; [exact Hne |]. split; [exact Hshape |].
  exact (transform_windows_shape imputer scaler windows_arr Hsome eq_refl eq_refl eq_refl
           Hne Hshape).
Defined.

End WindowTransformSample.
